(** * hl-agent: order execution and the risk gate

    A shallow embedding of [src/safety/risk-manager.ts] (class
    [RiskManager]) and of the trading actions of
    [src/toolkit/hyperliquid-toolkit.ts] (class [HyperliquidAgentToolkit]),
    followed by the properties the specification states about them.

    Modelling conventions.
    - A JavaScript [number] is a value of [number]: the exact value of a
      finite double as a rational, one of the two infinities, or NaN.  The
      arithmetic operations round their exact result to the nearest
      binary64 value, ties to even ([Num.round64]), and a decimal literal
      of the source is the double nearest to it.  The sign of zero is not
      modelled.
    - [Date.now()] is an integer number of milliseconds ([Z]); a function
      that reads the clock takes the reading as an argument, one argument
      per read.
    - A template-literal message that interpolates numbers is a constructor
      of an inductive type whose arguments are the interpolated values.
    - The exchange client is an oracle: every request is answered (or
      rejected) as a function of the requests made so far. *)

From Stdlib Require Import ZArith QArith Qround Qabs Qpower Bool String Ascii List.
From Stdlib Require Import Lia Lqa Permutation.
From Stdlib Require Qcanon.
From Stdlib Require Import NArith Nnat DecimalString DecimalPos DecimalN.
Import ListNotations.

Local Open Scope Z_scope.

(** ** JavaScript numbers *)

Inductive number : Type :=
| Fin (q : Q)
| PosInf
| NegInf
| NaN.

Module Num.

Definition zero : number := Fin 0.
Definition one : number := Fin 1.
Definition ofZ (z : Z) : number := Fin (inject_Z z).
Definition ofNat (n : nat) : number := ofZ (Z.of_nat n).

Definition Qlt_bool (a b : Q) : bool := negb (Qle_bool b a).

(** -1, 0 or 1 *)
Definition Qsign (a : Q) : Z := Z.sgn (Qnum a).

(** [Number.isFinite] *)
Definition isFinite (a : number) : bool :=
  match a with Fin _ => true | _ => false end.

(** ToBoolean: [0] and [NaN] are falsy. *)
Definition truthy (a : number) : bool :=
  match a with
  | Fin q => negb (Qeq_bool q 0)
  | PosInf | NegInf => true
  | NaN => false
  end.

(** [a < b] *)
Definition lt (a b : number) : bool :=
  match a, b with
  | NaN, _ | _, NaN => false
  | Fin x, Fin y => Qlt_bool x y
  | NegInf, (Fin _ | PosInf) => true
  | Fin _, PosInf => true
  | _, _ => false
  end.

(** [a <= b] *)
Definition le (a b : number) : bool :=
  match a, b with
  | NaN, _ | _, NaN => false
  | Fin x, Fin y => Qle_bool x y
  | NegInf, _ => true
  | _, PosInf => true
  | _, _ => false
  end.

Definition gt (a b : number) : bool := lt b a.
Definition ge (a b : number) : bool := le b a.

(** [a === b] *)
Definition eqb (a b : number) : bool :=
  match a, b with
  | Fin x, Fin y => Qeq_bool x y
  | PosInf, PosInf | NegInf, NegInf => true
  | _, _ => false
  end.

Definition neg (a : number) : number :=
  match a with
  | Fin q => Fin (- q)
  | PosInf => NegInf
  | NegInf => PosInf
  | NaN => NaN
  end.

(** [Math.abs] *)
Definition abs (a : number) : number :=
  match a with
  | Fin q => Fin (Qabs q)
  | PosInf | NegInf => PosInf
  | NaN => NaN
  end.

(** The infinity of the given sign; NaN for sign 0. *)
Definition inf_of_sign (s : Z) : number :=
  match s with
  | Zpos _ => PosInf
  | Zneg _ => NegInf
  | Z0 => NaN
  end.

(** *** Rounding to binary64 *)

(** [floor (log2 |q|)], for [q] other than 0. *)
Definition exponentOf (q : Q) : Z :=
  let k := Z.log2 (Z.abs (Qnum q)) - Z.log2 (Zpos (Qden q)) in
  if Qle_bool (Qpower 2 k) (Qabs q) then k else k - 1.

(** The nearest integer, the even one of two. *)
Definition roundEven (x : Q) : Z :=
  let f := Qfloor x in
  match Qcompare (x - inject_Z f) (1 # 2) with
  | Lt => f
  | Gt => f + 1
  | Eq => if Z.even f then f else f + 1
  end.

(** The spacing of the doubles around [q]: [2^(e-52)] where [2^e] is the
    power of two at or below [|q|], and [2^-1074] for the subnormals. *)
Definition ulpExponent (q : Q) : Z := Z.max (exponentOf q - 52) (-1074).

(** Round to nearest, ties to even, at 53 bits of precision; what reaches
    [2^1024] is an infinity. *)
Definition round64 (q : Q) : number :=
  if Qeq_bool q 0 then Fin 0
  else
    let e := ulpExponent q in
    let r := (inject_Z (roundEven (q / Qpower 2 e)) * Qpower 2 e)%Q in
    if Qle_bool (Qpower 2 1024) (Qabs r) then inf_of_sign (Qsign q)
    else Fin (Qred r).

Definition add (a b : number) : number :=
  match a, b with
  | NaN, _ | _, NaN => NaN
  | Fin x, Fin y => round64 (x + y)
  | PosInf, NegInf | NegInf, PosInf => NaN
  | PosInf, _ | _, PosInf => PosInf
  | NegInf, _ | _, NegInf => NegInf
  end.

Definition sub (a b : number) : number := add a (neg b).

Definition sign (a : number) : Z :=
  match a with
  | Fin q => Qsign q
  | PosInf => 1
  | NegInf => -1
  | NaN => 0
  end.

Definition mul (a b : number) : number :=
  match a, b with
  | NaN, _ | _, NaN => NaN
  | Fin x, Fin y => round64 (x * y)
  | _, _ => inf_of_sign (sign a * sign b)
  end.

(** Division; a finite non-zero value over zero is an infinity, [0/0]
    and [inf/inf] are NaN.  The divisor zero counts as [+0]. *)
Definition div (a b : number) : number :=
  match a, b with
  | NaN, _ | _, NaN => NaN
  | Fin x, Fin y =>
      if Qeq_bool y 0 then inf_of_sign (Qsign x) else round64 (x / y)
  | Fin _, (PosInf | NegInf) => Fin 0
  | (PosInf | NegInf), (PosInf | NegInf) => NaN
  | (PosInf | NegInf), Fin y =>
      if Qeq_bool y 0 then a else inf_of_sign (sign a * Qsign y)
  end.

(** [Math.floor] and [Math.ceil] *)
Definition floor (a : number) : number :=
  match a with Fin q => ofZ (Qfloor q) | _ => a end.
Definition ceil (a : number) : number :=
  match a with Fin q => ofZ (Qceiling q) | _ => a end.

(** [a || b] on numbers *)
Definition or (a b : number) : number := if truthy a then a else b.

(** [a || b] where [a] may be [undefined] *)
Definition orElse (a : option number) (b : number) : number :=
  match a with
  | Some v => or v b
  | None => b
  end.

(** ToBoolean of an optional number: [undefined] is falsy. *)
Definition given (a : option number) : bool :=
  match a with
  | Some v => truthy v
  | None => false
  end.

(** The same number, up to the representation of the fraction. *)
Definition same (a b : number) : Prop :=
  match a, b with
  | Fin x, Fin y => x == y
  | PosInf, PosInf | NegInf, NegInf | NaN, NaN => True
  | _, _ => False
  end.

End Num.

Declare Scope number_scope.
Delimit Scope number_scope with num.
Bind Scope number_scope with number.
Infix "+" := Num.add : number_scope.
Infix "-" := Num.sub : number_scope.
Infix "*" := Num.mul : number_scope.
Infix "/" := Num.div : number_scope.
Infix "<?" := Num.lt : number_scope.
Infix "<=?" := Num.le : number_scope.
Infix ">?" := Num.gt : number_scope.
Infix ">=?" := Num.ge : number_scope.
Infix "=?" := Num.eqb : number_scope.

(** A decimal literal [n / 10^k] of the source. *)
Definition dec (n : Z) (d : positive) : number := Num.round64 (n # d).

(** ** Types ([src/types/index.ts]) *)

Record RiskConfig : Type := mkRiskConfig {
  maxLeverage : number;
  maxPositionSizeUsd : number;
  maxDailyLoss : option number;
  maxDrawdownPercent : option number;
  requireStopLoss : option bool;
  maxOpenPositions : option number
}.

(** [Partial<RiskConfig>]: every key may be absent. *)
Record PartialRiskConfig : Type := mkPartialRiskConfig {
  p_maxLeverage : option number;
  p_maxPositionSizeUsd : option number;
  p_maxDailyLoss : option number;
  p_maxDrawdownPercent : option number;
  p_requireStopLoss : option bool;
  p_maxOpenPositions : option number
}.

Inductive Side : Type := Long | Short.

Record Position : Type := mkPosition {
  pos_coin : string;
  pos_side : Side;
  pos_size : number;
  pos_entryPrice : number;
  pos_currentPrice : number;
  pos_leverage : number;
  unrealizedPnl : number;
  unrealizedPnlPercent : number;
  liquidationPrice : option number
}.

Record OpenPositionParams : Type := mkOpenPositionParams {
  coin : string;
  side : string;
  market : option string;
  sizeUsd : option number;
  sizeCoin : option number;
  leverage : option number;
  stopLossPrice : option number;
  stopLossPercent : option number;
  takeProfitPrice : option number;
  takeProfitPercent : option number;
  slippagePercent : option number;
  orderType : option string;
  limitPrice : option number
}.

Record ClosePositionParams : Type := mkClosePositionParams {
  c_coin : string;
  c_percent : option number;
  c_slippagePercent : option number
}.

(** ** The risk manager ([src/safety/risk-manager.ts]) *)

(** The reason of a denial: one constructor per message template of
    [checkOpenPosition], in the order of the checks. *)
Inductive DenyReason : Type :=
| LeverageExceedsMaximum (lev max : number)
| PositionSizeExceedsMaximum (size max : number)
| AtMaximumOpenPositions (max : number)
| DailyLossLimitReached (loss max : number)
| DrawdownExceedsMaximum (drawdown max : number)
| StopLossRequired
| InsufficientMargin (required available : number).

Inductive Warning : Type :=
| CloseToDailyLossLimit (loss max : number)
| CloseToDrawdownLimit (drawdown max : number)
| HighMarginUsage (percent : number).

Record RiskCheckResult : Type := mkRiskCheckResult {
  allowed : bool;
  reason : option DenyReason;
  warnings : option (list Warning)
}.

Inductive ConfigError : Type :=
| BadMaxLeverage
| BadMaxPositionSizeUsd
| BadMaxDailyLoss
| BadMaxDrawdownPercent
| BadMaxOpenPositions.

Record TradeEntry : Type := mkTradeEntry {
  timestamp : Z;
  pnl : number
}.

Record RiskStats : Type := mkRiskStats {
  st_dailyPnl : number;
  st_totalTrades : nat;
  st_avgPnl : number;
  st_winRate : number
}.

Module RiskManager.

(** The private fields of the class. *)
Record t : Type := mk {
  config : RiskConfig;
  dailyPnl : number;
  dailyPnlResetTime : Z;
  tradesLog : list TradeEntry
}.

Definition dayMs : Z := 24 * 60 * 60 * 1000.

Definition validateConfig (c : RiskConfig) : ConfigError + RiskConfig :=
  if (maxLeverage c <=? Num.zero)%num || (maxLeverage c >? Num.ofZ 50)%num
  then inl BadMaxLeverage
  else if (maxPositionSizeUsd c <=? Num.zero)%num
  then inl BadMaxPositionSizeUsd
  else if match maxDailyLoss c with
          | Some v => Num.truthy v && (v <=? Num.zero)%num
          | None => false
          end
  then inl BadMaxDailyLoss
  else if match maxDrawdownPercent c with
          | Some v =>
              Num.truthy v && ((v <=? Num.zero)%num || (v >? Num.ofZ 100)%num)
          | None => false
          end
  then inl BadMaxDrawdownPercent
  else if match maxOpenPositions c with
          | Some v => Num.truthy v && (v <=? Num.zero)%num
          | None => false
          end
  then inl BadMaxOpenPositions
  else inr c.

(** [new RiskManager(config)] at clock reading [now]. *)
Definition create (now : Z) (c : RiskConfig) : ConfigError + t :=
  match validateConfig c with
  | inl e => inl e
  | inr c' => inr (mk c' Num.zero now [])
  end.

Definition updateDailyPnl (now : Z) (s : t) : t :=
  if now - dailyPnlResetTime s >=? dayMs
  then mk (config s) Num.zero now (tradesLog s)
  else s.

Definition getDailyPnl (now : Z) (s : t) : number * t :=
  let s' := updateDailyPnl now s in
  (dailyPnl s', s').

(** [arr.slice(-n)] *)
Definition sliceLast {A : Type} (n : nat) (l : list A) : list A :=
  skipn (length l - n) l.

(** [recordTrade(pnl)]: [now] is the clock read by [updateDailyPnl],
    [stamp] the one read for the log entry. *)
Definition recordTrade (now stamp : Z) (p : number) (s : t) : t :=
  let s1 := updateDailyPnl now s in
  let log := tradesLog s1 ++ [mkTradeEntry stamp p] in
  mk (config s1) (dailyPnl s1 + p)%num (dailyPnlResetTime s1)
     (if (1000 <? length log)%nat then sliceLast 1000 log else log).

Definition deny (r : DenyReason) : RiskCheckResult :=
  mkRiskCheckResult false (Some r) None.

(** [currentPositions.find(p => p.coin === params.coin)] *)
Definition findPosition (c : string) (ps : list Position) : option Position :=
  find (fun p => String.eqb (pos_coin p) c) ps.

(** [currentPositions.reduce((sum, p) => sum + p.unrealizedPnl, 0)] *)
Definition totalUnrealizedPnl (ps : list Position) : number :=
  fold_left (fun sum p => (sum + unrealizedPnl p)%num) ps Num.zero.

(** [if (x) { body }] for an optional number [x]: the body runs when [x]
    is neither [undefined], [0] nor NaN. *)
Definition whenSet {A : Type} (x : option number) (body : number -> A)
    (otherwise : A) : A :=
  match x with
  | Some v => if Num.truthy v then body v else otherwise
  | None => otherwise
  end.

Definition checkOpenPosition (now : Z) (params : OpenPositionParams)
    (currentPositions : list Position) (accountBalance : number) (s : t)
  : RiskCheckResult * t :=
  let cfg := config s in
  (* Check leverage *)
  match whenSet (leverage params)
          (fun l => if (l >? maxLeverage cfg)%num
                    then Some (LeverageExceedsMaximum l (maxLeverage cfg))
                    else None) None
  with Some r => (deny r, s) | None =>
  (* Check position size *)
  let positionSizeUsd := Num.orElse (sizeUsd params) Num.zero in
  if (positionSizeUsd >? maxPositionSizeUsd cfg)%num
  then (deny (PositionSizeExceedsMaximum positionSizeUsd
                (maxPositionSizeUsd cfg)), s)
  else
  (* Check max open positions *)
  match whenSet (maxOpenPositions cfg)
          (fun m =>
             let effectivePositionCount :=
               match findPosition (coin params) currentPositions with
               | Some _ => length currentPositions
               | None => (length currentPositions + 1)%nat
               end in
             if (Num.ofNat effectivePositionCount >? m)%num
             then Some (AtMaximumOpenPositions m) else None) None
  with Some r => (deny r, s) | None =>
  (* Check daily loss limit *)
  let '(denied, w1, s1) :=
    whenSet (maxDailyLoss cfg)
      (fun m =>
         let s1 := updateDailyPnl now s in
         if (Num.abs (dailyPnl s1) >=? m)%num
         then (Some (DailyLossLimitReached (Num.abs (dailyPnl s1)) m), [], s1)
         else
           let potentialLoss := (positionSizeUsd * dec 1 10)%num in
           if (Num.abs (dailyPnl s1) + potentialLoss >=? m)%num
           then (None, [CloseToDailyLossLimit (Num.abs (dailyPnl s1)) m], s1)
           else (None, [], s1))
      (None, [], s) in
  match denied with Some r => (deny r, s1) | None =>
  (* Check drawdown *)
  let '(denied, w2) :=
    whenSet (maxDrawdownPercent cfg)
      (fun m =>
         let drawdownPercent :=
           (Num.abs (totalUnrealizedPnl currentPositions) / accountBalance
            * Num.ofZ 100)%num in
         if (drawdownPercent >=? m)%num
         then (Some (DrawdownExceedsMaximum drawdownPercent m), w1)
         else if (drawdownPercent >=? m * dec 8 10)%num
         then (None, w1 ++ [CloseToDrawdownLimit drawdownPercent m])
         else (None, w1))
      (None, w1) in
  match denied with Some r => (deny r, s1) | None =>
  (* Check stop-loss requirement *)
  if match requireStopLoss cfg with Some b => b | None => false end
     && negb (Num.given (stopLossPrice params))
     && negb (Num.given (stopLossPercent params))
  then (deny StopLossRequired, s1)
  else
  (* Check account balance *)
  let marginRequired :=
    (positionSizeUsd / Num.orElse (leverage params) Num.one)%num in
  if (marginRequired >? accountBalance * dec 9 10)%num
  then (deny (InsufficientMargin marginRequired accountBalance), s1)
  else
  let w3 :=
    if (marginRequired >? accountBalance * dec 7 10)%num
    then w2 ++ [HighMarginUsage
                  (marginRequired / accountBalance * Num.ofZ 100)%num]
    else w2 in
  (mkRiskCheckResult true None
     (match w3 with [] => None | _ => Some w3 end), s1)
  end end end end.

(** Whether [checkOpenPosition] gets as far as [updateDailyPnl], the one
    place where it reads the clock: the three checks before the daily-loss
    limit pass, and that limit is set. *)
Definition readsClock (params : OpenPositionParams)
    (currentPositions : list Position) (s : t) : bool :=
  let cfg := config s in
  match whenSet (leverage params)
          (fun l => if (l >? maxLeverage cfg)%num then Some tt else None) None
  with Some _ => false | None =>
  if (Num.orElse (sizeUsd params) Num.zero >? maxPositionSizeUsd cfg)%num
  then false
  else
  match whenSet (maxOpenPositions cfg)
          (fun m =>
             let effectivePositionCount :=
               match findPosition (coin params) currentPositions with
               | Some _ => length currentPositions
               | None => (length currentPositions + 1)%nat
               end in
             if (Num.ofNat effectivePositionCount >? m)%num
             then Some tt else None) None
  with Some _ => false | None => Num.given (maxDailyLoss cfg)
  end end.

(** [{ ...this.#config, ...config }] *)
Definition mergeConfig (c : RiskConfig) (p : PartialRiskConfig) : RiskConfig :=
  let over {A} (new : option A) (old : A) : A :=
    match new with Some v => v | None => old end in
  let overOpt {A} (new old : option A) : option A :=
    match new with Some v => Some v | None => old end in
  mkRiskConfig
    (over (p_maxLeverage p) (maxLeverage c))
    (over (p_maxPositionSizeUsd p) (maxPositionSizeUsd c))
    (overOpt (p_maxDailyLoss p) (maxDailyLoss c))
    (overOpt (p_maxDrawdownPercent p) (maxDrawdownPercent c))
    (overOpt (p_requireStopLoss p) (requireStopLoss c))
    (overOpt (p_maxOpenPositions p) (maxOpenPositions c)).

(** [updateConfig]: the assignment to [#config] happens only when
    [validateConfig] returns; a throw leaves the object as it was. *)
Definition updateConfig (p : PartialRiskConfig) (s : t) : option ConfigError * t :=
  match validateConfig (mergeConfig (config s) p) with
  | inl e => (Some e, s)
  | inr c => (None, mk c (dailyPnl s) (dailyPnlResetTime s) (tradesLog s))
  end.

Definition getConfig (s : t) : RiskConfig := config s.

(** [arr.filter] whose callback reads the clock once per element:
    [clock i] is the reading taken for the element of index [i]. *)
Fixpoint filterRecent (clock : nat -> Z) (i : nat) (l : list TradeEntry)
  : list TradeEntry :=
  match l with
  | [] => []
  | e :: l' =>
      if clock i - timestamp e <? dayMs
      then e :: filterRecent clock (S i) l'
      else filterRecent clock (S i) l'
  end.

Definition getStats (now : Z) (clock : nat -> Z) (s : t) : RiskStats * t :=
  let s' := updateDailyPnl now s in
  let dailyTrades := filterRecent clock 0 (tradesLog s') in
  let totalPnl :=
    fold_left (fun sum e => (sum + pnl e)%num) dailyTrades Num.zero in
  let winningTrades :=
    length (filter (fun e => (pnl e >? Num.zero)%num) dailyTrades) in
  let n := length dailyTrades in
  (mkRiskStats (dailyPnl s') n
     (if (0 <? n)%nat then (totalPnl / Num.ofNat n)%num else Num.zero)
     (if (0 <? n)%nat
      then (Num.ofNat winningTrades / Num.ofNat n * Num.ofZ 100)%num
      else Num.zero),
   s').

End RiskManager.

(** ** Strings and numerals *)

Module Str.

Local Open Scope string_scope.

Definition map (f : ascii -> ascii) : string -> string :=
  fix go (s : string) : string :=
    match s with
    | EmptyString => EmptyString
    | String c s' => String (f c) (go s')
    end.

Definition upperChar (c : ascii) : ascii :=
  let n := nat_of_ascii c in
  if ((97 <=? n) && (n <=? 122))%nat then ascii_of_nat (n - 32) else c.

Definition lowerChar (c : ascii) : ascii :=
  let n := nat_of_ascii c in
  if ((65 <=? n) && (n <=? 90))%nat then ascii_of_nat (n + 32) else c.

(** [toUpperCase] and [toLowerCase], on the ASCII letters. *)
Definition toUpperCase : string -> string := map upperChar.
Definition toLowerCase : string -> string := map lowerChar.

(** ["0".repeat(n)] *)
Fixpoint zeros (n : nat) : string :=
  match n with
  | O => ""
  | S n' => String "0" (zeros n')
  end.

(** The decimal digits of a natural number, ["0"] for zero. *)
Definition ofN (n : N) : string := NilEmpty.string_of_uint (N.to_uint n).
Definition ofNat (n : nat) : string := ofN (N.of_nat n).

Fixpoint rev_append (s acc : string) : string :=
  match s with
  | EmptyString => acc
  | String c s' => rev_append s' (String c acc)
  end.
Definition rev (s : string) : string := rev_append s "".

Fixpoint dropZeros (s : string) : string :=
  match s with
  | String c s' => if Ascii.eqb c "0" then dropZeros s' else s
  | EmptyString => s
  end.

(** [s.replace(/\.?0+$/, '')].  The pattern matches a run of zeros that
    ends the string, with the dot before the run when there is one; the
    match is removed.  A string that does not end in a zero is returned
    as it is. *)
Definition stripTrailingZeros (s : string) : string :=
  match rev s with
  | String c r =>
      if Ascii.eqb c "0" then
        match dropZeros r with
        | String d r' => if Ascii.eqb d "." then rev r' else rev (String d r')
        | EmptyString => EmptyString
        end
      else s
  | EmptyString => s
  end.

(** [parts.join(sep)] *)
Fixpoint join (sep : string) (parts : list string) : string :=
  match parts with
  | [] => ""
  | [x] => x
  | x :: rest => x ++ sep ++ join sep rest
  end.

Definition digitValue (c : ascii) : option N :=
  let n := nat_of_ascii c in
  if ((48 <=? n) && (n <=? 57))%nat then Some (N.of_nat (n - 48)) else None.

(** The value of a non-empty string of digits, given the value [acc] of
    the digits read so far. *)
Fixpoint readDigits (s : string) (acc : N) : option N :=
  match s with
  | EmptyString => Some acc
  | String c s' =>
      match digitValue c with
      | Some d => readDigits s' (10 * acc + d)
      | None => None
      end
  end.

(** Splits at the first dot. *)
Fixpoint splitDot (s : string) : string * option string :=
  match s with
  | EmptyString => (EmptyString, None)
  | String c s' =>
      if Ascii.eqb c "." then (EmptyString, Some s')
      else let '(a, b) := splitDot s' in (String c a, b)
  end.

(** The number an unsigned numeral [ddd] or [ddd.ddd] denotes. *)
Definition readUnsigned (s : string) : option Q :=
  match splitDot s with
  | (EmptyString, _) => None
  | (a, None) =>
      match readDigits a 0 with
      | Some n => Some (inject_Z (Z.of_N n))
      | None => None
      end
  | (a, Some b) =>
      match b, readDigits a 0, readDigits b 0 with
      | String _ _, Some n, Some m =>
          Some (inject_Z (Z.of_N n)
                + inject_Z (Z.of_N m) / inject_Z (10 ^ Z.of_nat (String.length b)))%Q
      | _, _, _ => None
      end
  end.

(** The number a numeral with an optional minus sign denotes. *)
Definition readDecimal (s : string) : option Q :=
  match s with
  | String c s' =>
      if Ascii.eqb c "-" then
        match readUnsigned s' with
        | Some q => Some (- q)%Q
        | None => None
        end
      else readUnsigned s
  | EmptyString => None
  end.

End Str.

Module Numeral.

Local Open Scope string_scope.

Definition pow10 (k : nat) : Q := inject_Z (10 ^ Z.of_nat k).

(** The integer nearest to [q], the larger one of two. *)
Definition roundHalfUp (q : Q) : Z := Qfloor (q + (1 # 2)).

(** [q] rounded to [f] decimals, as a number of units of [10^-f]. *)
Definition fixedUnits (q : Q) (f : nat) : Z := roundHalfUp (q * pow10 f).

(** The digits of [n] with a dot before the last [f] of them, padded with
    zeros on the left so that a digit stands before the dot. *)
Definition fixedDigits (n : N) (f : nat) : string :=
  let m := Str.ofN n in
  if (f =? 0)%nat then m
  else
    let k := String.length m in
    let m := if (k <=? f)%nat then Str.zeros (f + 1 - k) ++ m else m in
    let k := String.length m in
    substring 0 (k - f) m ++ "." ++ substring (k - f) f m.

(** Removes the zeros that end the digits of [m], counting them in [e]. *)
Fixpoint stripZeros (fuel : nat) (m : N) (e : Z) : N * Z :=
  match fuel with
  | O => (m, e)
  | S fuel' =>
      if ((m mod 10 =? 0) && negb (m =? 0))%N
      then stripZeros fuel' (m / 10)%N (e + 1)
      else (m, e)
  end.

(** [Number::toString] of the positive value [m * 10^e]: positional
    notation when the integer part has one to 21 digits or at most six
    zeros follow the dot, exponent notation otherwise. *)
Definition decimalToString (m : N) (e : Z) : string :=
  if (m =? 0)%N then "0"
  else
    let '(s, e') := stripZeros (String.length (Str.ofN m)) m e in
    let digits := Str.ofN s in
    let k := String.length digits in
    let n := Z.of_nat k + e' in
    if ((Z.of_nat k <=? n) && (n <=? 21))%Z
    then digits ++ Str.zeros (Z.to_nat (n - Z.of_nat k))
    else if ((0 <? n) && (n <=? 21))%Z
    then substring 0 (Z.to_nat n) digits ++ "."
         ++ substring (Z.to_nat n) (k - Z.to_nat n) digits
    else if ((-6 <? n) && (n <=? 0))%Z
    then "0." ++ Str.zeros (Z.to_nat (- n)) ++ digits
    else
      let ex := n - 1 in
      let sgn := if (ex <? 0)%Z then "-" else "+" in
      let mant :=
        if (k =? 1)%nat then digits
        else substring 0 1 digits ++ "." ++ substring 1 (k - 1) digits in
      mant ++ "e" ++ sgn ++ Str.ofN (Z.to_N (Z.abs ex)).

(** [x.toFixed(f)].  From [10^21] on the source's engine prints
    [Number::toString] of the double; every double that large is an
    integer, whose digits the model prints in exponent notation. *)
Definition toFixed (x : number) (f : nat) : string :=
  match x with
  | NaN => "NaN"
  | PosInf => "Infinity"
  | NegInf => "-Infinity"
  | Fin q =>
      let s := if Num.Qlt_bool q 0 then "-" else "" in
      let a := Qabs q in
      if Qle_bool (pow10 21) a
      then s ++ decimalToString (Z.to_N (Qfloor a)) 0
      else s ++ fixedDigits (Z.to_N (fixedUnits a f)) f
  end.

(** The number of decimal digits of [n >= 1], found by dividing by ten;
    [fuel] bounds the divisions. *)
Fixpoint countDigits (fuel : nat) (n : Z) : Z :=
  match fuel with
  | O => 1
  | S fuel' => if (n <? 10)%Z then 1 else (1 + countDigits fuel' (n / 10))%Z
  end.

Definition numDigits (n : Z) : Z := countDigits (Z.to_nat (Z.log2 n)) n.

(** The decimal exponent of a positive rational: the [e] with
    [10^e <= q < 10^(e+1)]. *)
Definition exponent10 (q : Q) : Z :=
  let k := numDigits (Zpos (Qden q)) in
  let m := Qfloor (q * Qpower 10 k) in
  (numDigits m - 1 - k)%Z.

(** The mantissa [n] and the exponent [e] that [toPrecision(p)] chooses
    for a positive [q]: [10^(p-1) <= n < 10^p] and [n * 10^(e-p+1)] is
    the value nearest to [q], the larger one of two. *)
Definition precisionDigits (q : Q) (p : nat) : Z * Z :=
  let e := exponent10 q in
  let n := roundHalfUp (q * Qpower 10 (Z.of_nat p - 1 - e)) in
  if (n =? 10 ^ Z.of_nat p)%Z then (10 ^ (Z.of_nat p - 1), e + 1) else (n, e).

(** The value of [n * 10^(e-p+1)]. *)
Definition precisionValue (p : nat) (ne : Z * Z) : Q :=
  (inject_Z (fst ne) * Qpower 10 (snd ne - Z.of_nat p + 1))%Q.

(** [parseFloat(x.toPrecision(p))]: the number that the numeral of
    [toPrecision] denotes; the numeral itself is not built. *)
Definition toPrecisionValue (x : number) (p : nat) : number :=
  match x with
  | Fin q =>
      if Qeq_bool q 0 then Fin 0
      else
        let v := precisionValue p (precisionDigits (Qabs q) p) in
        Fin (if Num.Qlt_bool q 0 then - v else v)
  | _ => x
  end.

(** [parseFloat(x.toPrecision(p)).toString()]: [Number::toString] of a
    value of at most [p] significant digits prints those digits. *)
Definition toPrecisionString (x : number) (p : nat) : string :=
  match x with
  | NaN => "NaN"
  | PosInf => "Infinity"
  | NegInf => "-Infinity"
  | Fin q =>
      if Qeq_bool q 0 then "0"
      else
        let '(n, e) := precisionDigits (Qabs q) p in
        (if Num.Qlt_bool q 0 then "-" else "")
        ++ decimalToString (Z.to_N n) (e - Z.of_nat p + 1)
  end.

End Numeral.

(** ** Values of type [unknown]: what the exchange client hands back *)

#[local] Set Warnings "-register-all".
Inductive value : Type :=
| VUndefined
| VNull
| VBool (b : bool)
| VNumber (n : number)
| VString (s : string)
| VArray (items : list value)
| VObject (fields : list (string * value)).

Module Value.

Fixpoint lookup (key : string) (fields : list (string * value)) : option value :=
  match fields with
  | [] => None
  | (k, v) :: rest => if String.eqb k key then Some v else lookup key rest
  end.

(** [typeof v === 'object' && v !== null] *)
Definition isObject (v : value) : bool :=
  match v with
  | VArray _ | VObject _ => true
  | _ => false
  end.

(** [v?.key], and [v.key] on a [v] that is neither [null] nor
    [undefined], for a key that is not an array index. *)
Definition get (v : value) (key : string) : value :=
  match v with
  | VObject fields =>
      match lookup key fields with
      | Some x => x
      | None => VUndefined
      end
  | _ => VUndefined
  end.

(** [key in v], for an object [v] and a key of its own. *)
Definition has (key : string) (v : value) : bool :=
  match v with
  | VObject fields =>
      match lookup key fields with
      | Some _ => true
      | None => false
      end
  | _ => false
  end.

(** ToBoolean *)
Definition truthy (v : value) : bool :=
  match v with
  | VUndefined | VNull => false
  | VBool b => b
  | VNumber n => Num.truthy n
  | VString s => negb (String.eqb s "")
  | VArray _ | VObject _ => true
  end.

(** [Number(v)].  A string converts when it is a plain decimal numeral;
    the conversion of arrays and objects through their string form is
    not modelled and gives NaN. *)
Definition toNumber (v : value) : number :=
  match v with
  | VUndefined => NaN
  | VNull => Num.zero
  | VBool b => if b then Num.one else Num.zero
  | VNumber n => n
  | VString s =>
      if String.eqb s "" then Num.zero
      else match Str.readDecimal s with
           | Some q => Fin q
           | None => NaN
           end
  | VArray _ | VObject _ => NaN
  end.

End Value.

(** ** The exchange client ([@nktkas/hyperliquid]) *)

(** Numeric fields arrive as strings and are read with [parseFloat]; the
    model carries the number read, with the default the source puts in
    place of a missing field. *)
Record AssetPosition : Type := mkAssetPosition {
  ap_coin : string;
  szi : number;
  entryPx : number;
  ap_unrealizedPnl : number;
  ap_leverage : number;
  liquidationPx : number
}.

Record ClearinghouseData : Type := mkClearinghouseData {
  assetPositions : list AssetPosition;
  marginSummary_accountValue : number;
  crossMarginSummary_accountValue : number;
  marginSummary_totalMarginUsed : number;
  withdrawable : number
}.

Record PerpAsset : Type := mkPerpAsset {
  pa_name : string;
  pa_szDecimals : nat
}.

Record SpotToken : Type := mkSpotToken {
  tok_index : Z;
  tok_name : string;
  tok_szDecimals : nat
}.

Record SpotPair : Type := mkSpotPair {
  pair_index : Z;
  pair_name : string;
  pair_base : Z          (* [pair.tokens[0]] *)
}.

Record SpotMetaData : Type := mkSpotMetaData {
  tokens : list SpotToken;
  spotUniverse : list SpotPair
}.

Record Level : Type := mkLevel { px : number; sz : number }.

(** [book.levels[0]] and [book.levels[1]] *)
Record Book : Type := mkBook { bids : list Level; asks : list Level }.

Inductive Tif : Type := Ioc | Gtc.
Inductive Tpsl : Type := sl | tp.

Inductive OrderKind : Type :=
| Limit (tif : Tif)
| Trigger (triggerPx : string) (isMarket : bool) (tpsl : Tpsl).

Module Order.
Record t : Type := mk {
  a : Z;            (* asset index *)
  b : bool;         (* is buy *)
  p : string;       (* price *)
  s : string;       (* size *)
  r : bool;         (* reduce only *)
  kind : OrderKind  (* [t] in the source *)
}.
End Order.

Inductive Grouping : Type := na | positionTpsl.

Record OrderRequest : Type := mkOrderRequest {
  orders : list Order.t;
  grouping : Grouping
}.

(** The requests the toolkit sends. *)
Inductive Request : Type :=
| ClearinghouseState (user : string)
| AllMids
| Meta
| SpotMeta
| L2Book (coin : string) (nSigFigs : nat)
| UpdateLeverage (asset : Z) (isCross : bool) (lev : number)
| PlaceOrder (req : OrderRequest).

Inductive ConsoleLine : Type :=
| WarnSpotStops        (* Stop-loss/take-profit not supported for spot orders *)
| WarnSpotLeverage     (* Leverage not supported for spot orders *)
| WarnRisk (ws : list Warning)
| LogOrderPlaced (orderId : number) (status : string)
| ErrorInOpenPosition (msg : string).

(** What a run of the toolkit does that can be seen from outside, in the
    order it happens. *)
Inductive Event : Type :=
| Sent (rq : Request)
| RiskChecked (params : OpenPositionParams) (positions : list Position)
    (balance : number)
| Console (line : ConsoleLine).

(** A promise settles with a value or rejects; [Rejected msg] carries
    [error.message], or [String(error)] for a thrown non-error. *)
Inductive Reply (A : Type) : Type :=
| Resolved (x : A)
| Rejected (msg : string).
Arguments Resolved {A} x.
Arguments Rejected {A} msg.

Record Exchange : Type := mkExchange {
  ex_clearinghouseState : list Event -> string -> Reply ClearinghouseData;
  ex_allMids : list Event -> Reply (list (string * number));
  ex_meta : list Event -> Reply (list PerpAsset);
  ex_spotMeta : list Event -> Reply SpotMetaData;
  ex_l2Book : list Event -> string -> nat -> Reply (option Book);
  ex_updateLeverage : list Event -> Z -> bool -> number -> Reply unit;
  ex_order : list Event -> OrderRequest -> Reply value
}.

(** ** Results of the actions *)

(** The [error] text of a failed action: the two message templates of
    [openPosition], or the message of a caught exception. *)
Inductive ActionError : Type :=
| RiskCheckFailed (why : option DenyReason)  (* Risk check failed: ... *)
| OrderFailed (err : value)                  (* Order failed: ... *)
| Message (msg : string).

Record ActionResult (A : Type) : Type := mkActionResult {
  success : bool;
  data : option A;
  error : option ActionError;
  at_time : Z            (* [timestamp] *)
}.
Arguments mkActionResult {A}.
Arguments success {A}.
Arguments data {A}.
Arguments error {A}.
Arguments at_time {A}.

Record PerpInfo : Type := mkPerpInfo {
  perp_index : Z;
  perp_szDecimals : nat
}.

Record SpotInfo : Type := mkSpotInfo {
  spot_index : Z;
  spot_pairName : string;
  spot_szDecimals : nat
}.

Record AssetIndex : Type := mkAssetIndex {
  index : Z;
  pairName : string;
  szDecimals : nat
}.

(** A JavaScript object used as a map from strings, keys in insertion
    order. *)
Module Dict.

Definition t (A : Type) : Type := list (string * A).

Fixpoint get {A : Type} (key : string) (d : t A) : option A :=
  match d with
  | [] => None
  | (k, v) :: rest => if String.eqb k key then Some v else get key rest
  end.

(** [d[key] = v]: a key already there keeps its place. *)
Fixpoint set {A : Type} (key : string) (v : A) (d : t A) : t A :=
  match d with
  | [] => [(key, v)]
  | (k, x) :: rest =>
      if String.eqb k key then (k, v) :: rest else (k, x) :: set key v rest
  end.

Definition keys {A : Type} (d : t A) : list string := map fst d.

End Dict.

(** ** The toolkit ([src/toolkit/hyperliquid-toolkit.ts]) *)

Record HyperliquidToolkitConfig : Type := mkHyperliquidToolkitConfig {
  wallet : string;                      (* the wallet's address *)
  riskConfig : option RiskConfig;
  defaultSlippagePercent : option number
}.

(** The private fields of [HyperliquidAgentToolkit] that the trading
    actions read or write. *)
Record Toolkit : Type := mkToolkit {
  address : string;
  riskManager : option RiskManager.t;
  defaultSlippage : number;
  assetMap : option (Dict.t PerpInfo);
  spotAssetMap : option (Dict.t SpotInfo)
}.

Record Balance : Type := mkBalance {
  accountValue : number;
  availableBalance : number;
  marginUsed : number;
  bal_withdrawable : number
}.

Inductive Rounding : Type := Down | Up.

(** The surroundings of a run: the exchange, and the clock, whose [i]-th
    reading is [clock i]. *)
Record Env : Type := mkEnv {
  exchange : Exchange;
  clock : nat -> Z
}.

Record World : Type := mkWorld {
  toolkit : Toolkit;
  history : list Event;
  ticks : nat
}.

Inductive Outcome (A : Type) : Type :=
| Returned (x : A)
| Threw (msg : string).
Arguments Returned {A} x.
Arguments Threw {A} msg.

(** An asynchronous method: it reads the surroundings, changes the world,
    and returns or throws. *)
Definition M (A : Type) : Type := Env -> World -> Outcome A * World.

Definition ret {A : Type} (x : A) : M A := fun _ w => (Returned x, w).

Definition bind {A B : Type} (m : M A) (k : A -> M B) : M B :=
  fun env w =>
    match m env w with
    | (Returned x, w') => k x env w'
    | (Threw msg, w') => (Threw msg, w')
    end.

Definition throw {A : Type} (msg : string) : M A := fun _ w => (Threw msg, w).

(** [try { body } catch (error) { handler }] *)
Definition tryCatch {A : Type} (body : M A) (handler : string -> M A) : M A :=
  fun env w =>
    match body env w with
    | (Returned x, w') => (Returned x, w')
    | (Threw msg, w') => handler msg env w'
    end.

Definition lift {A : Type} (o : Outcome A) : M A := fun _ w => (o, w).

Declare Scope monad_scope.
Delimit Scope monad_scope with monad.
Notation "x <- m ;; k" := (bind m (fun x => k))
  (at level 61, m at next level, right associativity) : monad_scope.
Notation "' pat <- m ;; k" := (bind m (fun x => match x with pat => k end))
  (at level 61, pat pattern, m at next level, right associativity) : monad_scope.
Notation "m ;; k" := (bind m (fun _ => k))
  (at level 61, right associativity) : monad_scope.
Local Open Scope monad_scope.

(** [Date.now()] *)
Definition dateNow : M Z :=
  fun env w =>
    (Returned (clock env (ticks w)),
     mkWorld (toolkit w) (history w) (S (ticks w))).

Definition emit (e : Event) : M unit :=
  fun _ w => (Returned tt, mkWorld (toolkit w) (history w ++ [e]) (ticks w)).

Definition getToolkit : M Toolkit := fun _ w => (Returned (toolkit w), w).

Definition setToolkit (tk : Toolkit) : M unit :=
  fun _ w => (Returned tt, mkWorld tk (history w) (ticks w)).

(** A request to the exchange: it is recorded, and answered from what
    happened before it. *)
Definition request {A : Type} (rq : Request)
    (answer : Exchange -> list Event -> Reply A) : M A :=
  fun env w =>
    let w' := mkWorld (toolkit w) (history w ++ [Sent rq]) (ticks w) in
    match answer (exchange env) (history w) with
    | Resolved x => (Returned x, w')
    | Rejected msg => (Threw msg, w')
    end.

Module InfoClient.
Definition clearinghouseState (user : string) : M ClearinghouseData :=
  request (ClearinghouseState user) (fun ex h => ex_clearinghouseState ex h user).
Definition allMids : M (list (string * number)) :=
  request AllMids ex_allMids.
Definition meta : M (list PerpAsset) :=
  request Meta ex_meta.
Definition spotMeta : M SpotMetaData :=
  request SpotMeta ex_spotMeta.
Definition l2Book (coin : string) (nSigFigs : nat) : M (option Book) :=
  request (L2Book coin nSigFigs) (fun ex h => ex_l2Book ex h coin nSigFigs).
End InfoClient.

Module ExchangeClient.
Definition updateLeverage (asset : Z) (isCross : bool) (lev : number) : M unit :=
  request (UpdateLeverage asset isCross lev)
    (fun ex h => ex_updateLeverage ex h asset isCross lev).
Definition order (req : OrderRequest) : M value :=
  request (PlaceOrder req) (fun ex h => ex_order ex h req).
End ExchangeClient.

Definition succeed {A : Type} (x : A) : M (ActionResult A) :=
  t <- dateNow ;;
  ret (mkActionResult true (Some x) None t).

Definition fail {A : Type} (e : ActionError) : M (ActionResult A) :=
  t <- dateNow ;;
  ret (mkActionResult false None (Some e) t).

(** [new HyperliquidAgentToolkit(config)] at clock reading [now]. *)
Definition newToolkit (now : Z) (cfg : HyperliquidToolkitConfig)
  : ConfigError + Toolkit :=
  let slippage := Num.orElse (defaultSlippagePercent cfg) Num.one in
  match riskConfig cfg with
  | Some rc =>
      match RiskManager.create now rc with
      | inl e => inl e
      | inr rm => inr (mkToolkit (wallet cfg) (Some rm) slippage None None)
      end
  | None => inr (mkToolkit (wallet cfg) None slippage None None)
  end.

(** [parseFloat(mids[coin] || '0')] *)
Definition midOf (mids : list (string * number)) (c : string) : number :=
  match Dict.get c mids with
  | Some v => v
  | None => Num.zero
  end.

Definition toPosition (mids : list (string * number)) (ap : AssetPosition)
  : Position :=
  let size := szi ap in
  let entryPrice := entryPx ap in
  let currentPrice := midOf mids (ap_coin ap) in
  let upnl := ap_unrealizedPnl ap in
  mkPosition (ap_coin ap)
    (if (size >? Num.zero)%num then Long else Short)
    (Num.abs size) entryPrice currentPrice (ap_leverage ap) upnl
    (if (entryPrice >? Num.zero)%num
     then (upnl / (Num.abs size * entryPrice) * Num.ofZ 100)%num
     else Num.zero)
    (if Num.truthy (liquidationPx ap) then Some (liquidationPx ap) else None).

Definition getPositions : M (ActionResult (list Position)) :=
  tryCatch
    (tk <- getToolkit ;;
     state <- InfoClient.clearinghouseState (address tk) ;;
     mids <- InfoClient.allMids ;;
     let positions :=
       map (toPosition mids)
         (filter (fun ap => negb (szi ap =? Num.zero)%num)
            (assetPositions state)) in
     succeed positions)
    (fun msg => fail (Message msg)).

Definition getBalance : M (ActionResult Balance) :=
  tryCatch
    (tk <- getToolkit ;;
     state <- InfoClient.clearinghouseState (address tk) ;;
     succeed (mkBalance (marginSummary_accountValue state)
                (crossMarginSummary_accountValue state)
                (marginSummary_totalMarginUsed state)
                (withdrawable state)))
    (fun msg => fail (Message msg)).

(** [new Map(tokens.map(token => [token.index, token])).get(i)]: of two
    tokens with one index the later one is kept. *)
Definition tokenByIndex (toks : list SpotToken) (i : Z) : option SpotToken :=
  find (fun t => tok_index t =? i) (rev toks).

Definition addSpotPair (toks : list SpotToken) (m : Dict.t SpotInfo)
    (pair : SpotPair) : Dict.t SpotInfo :=
  match tokenByIndex toks (pair_base pair) with
  | None => m
  | Some baseToken =>
      let spotInfo :=
        mkSpotInfo (pair_index pair) (pair_name pair) (tok_szDecimals baseToken) in
      let tokenName := Str.toUpperCase (tok_name baseToken) in
      let m1 :=
        match Dict.get tokenName m with
        | Some _ => m
        | None => Dict.set tokenName spotInfo m
        end in
      Dict.set (Str.toUpperCase (pair_name pair)) spotInfo m1
  end.

Definition buildSpotAssetMap (sm : SpotMetaData) : Dict.t SpotInfo :=
  fold_left (addSpotPair (tokens sm)) (spotUniverse sm) [].

(** [meta.universe.forEach((asset, index) => ...)], from index [i] on. *)
Fixpoint buildAssetMap (i : Z) (universe : list PerpAsset) (m : Dict.t PerpInfo)
  : Dict.t PerpInfo :=
  match universe with
  | [] => m
  | asset :: rest =>
      buildAssetMap (i + 1) rest
        (Dict.set (pa_name asset) (mkPerpInfo i (pa_szDecimals asset)) m)
  end.

Definition getAssetIndex (coin : string) (market : string) : M AssetIndex :=
  if String.eqb market "spot" then
    tk <- getToolkit ;;
    m <- match spotAssetMap tk with
         | Some m => ret m
         | None =>
             spotMeta <- InfoClient.spotMeta ;;
             let m := buildSpotAssetMap spotMeta in
             setToolkit (mkToolkit (address tk) (riskManager tk)
                           (defaultSlippage tk) (assetMap tk) (Some m)) ;;
             ret m
         end ;;
    let normalized := Str.toUpperCase coin in
    match Dict.get normalized m with
    | None =>
        let available := Str.join ", " (firstn 20 (Dict.keys m)) in
        throw ("Unknown spot asset: " ++ coin ++ ". Available tokens: "
               ++ available ++ "...")%string
    | Some spotInfo =>
        ret (mkAssetIndex (10000 + spot_index spotInfo)
               (spot_pairName spotInfo) (spot_szDecimals spotInfo))
    end
  else if String.eqb market "perp" then
    tk <- getToolkit ;;
    m <- match assetMap tk with
         | Some m => ret m
         | None =>
             universe <- InfoClient.meta ;;
             let m := buildAssetMap 0 universe [] in
             setToolkit (mkToolkit (address tk) (riskManager tk)
                           (defaultSlippage tk) (Some m) (spotAssetMap tk)) ;;
             ret m
         end ;;
    match Dict.get (Str.toUpperCase coin) m with
    | None => throw ("Unknown perp asset: " ++ coin)%string
    | Some perpInfo =>
        ret (mkAssetIndex (perp_index perpInfo) coin (perp_szDecimals perpInfo))
    end
  else throw ("Invalid market type: " ++ market)%string.

(** [10 ** decimals]: the double nearest to the power, which is the power
    itself up to [10 ** 22] and [Infinity] past [10 ** 308]. *)
Definition tenToThe (decimals : nat) : number :=
  Num.round64 (inject_Z (10 ^ Z.of_nat decimals)).

(** [roundedRaw] of [formatSize]: the size at [decimals] decimals. *)
Definition roundedRaw (size : number) (decimals : nat) (rounding : Rounding)
  : number :=
  let factor := tenToThe decimals in
  match rounding with
  | Up => (Num.ceil (size * factor) / factor)%num
  | Down => (Num.floor (size * factor) / factor)%num
  end.

Definition formatSize (size : number) (decimals : nat) (rounding : Rounding)
  : Outcome string :=
  if negb (Num.isFinite size) || (size <=? Num.zero)%num
  then Threw "Order size must be greater than zero"
  else
    if (roundedRaw size decimals rounding <=? Num.zero)%num
    then Threw ("Order size too small for asset precision ("
                ++ Str.ofNat decimals ++ " decimals)")%string
    else if (100 <? decimals)%nat
    then Threw "toFixed() digits argument must be between 0 and 100"
    else Returned (Str.stripTrailingZeros
                     (Numeral.toFixed (roundedRaw size decimals rounding)
                        decimals)).

Definition getBookTopLevels (coin : string) : M (number * number) :=
  book <- InfoClient.l2Book coin 5 ;;
  match book with
  | None => throw ("No order book available for " ++ coin)%string
  | Some bk =>
      let bestBid := match bids bk with l :: _ => px l | [] => Num.zero end in
      let bestAsk := match asks bk with l :: _ => px l | [] => Num.zero end in
      if negb (Num.truthy bestBid) || negb (Num.truthy bestAsk)
      then throw ("No liquidity available for " ++ coin)%string
      else ret (bestBid, bestAsk)
  end.

Definition getMidPriceFromTop (bookTop : option (number * number)) : number :=
  match bookTop with
  | None => Num.zero
  | Some (bestBid, bestAsk) => ((bestBid + bestAsk) / Num.ofZ 2)%num
  end.

Definition extractFirstOrderStatus (orderResult : value) : Outcome value :=
  let statuses :=
    Value.get (Value.get (Value.get orderResult "response") "data") "statuses" in
  match statuses with
  | VArray (first :: _) => Returned first
  | _ => Threw "Order response is missing statuses"
  end.

Definition isErrorStatus (status : value) : bool :=
  Value.isObject status && Value.has "error" status.

Definition isRestingStatus (status : value) : bool :=
  if negb (Value.isObject status) then false
  else Value.has "resting" status.

Definition extractOrderId (status : value) : number :=
  if Value.isObject status then
    let resting := Value.get status "resting" in
    let filled := Value.get status "filled" in
    if Value.truthy resting && Value.isObject resting && Value.has "oid" resting
    then Value.toNumber (Value.get resting "oid")
    else if Value.truthy filled && Value.isObject filled && Value.has "oid" filled
    then Value.toNumber (Value.get filled "oid")
    else Num.zero
  else Num.zero.

(** [this.#riskManager.checkOpenPosition(...)] on the toolkit's risk
    manager [rm].  The clock is read when the check gets as far as
    [updateDailyPnl]; when it does not, the reading handed on is not
    used. *)
Definition riskManager_checkOpenPosition (rm : RiskManager.t)
    (params : OpenPositionParams) (positions : list Position)
    (balance : number) : M RiskCheckResult :=
  emit (RiskChecked params positions balance) ;;
  now <- (if RiskManager.readsClock params positions rm
          then dateNow else ret 0) ;;
  let '(result, rm') :=
    RiskManager.checkOpenPosition now params positions balance rm in
  tk <- getToolkit ;;
  setToolkit (mkToolkit (address tk) (Some rm') (defaultSlippage tk)
                (assetMap tk) (spotAssetMap tk)) ;;
  ret result.

(** [this.#riskManager.recordTrade(pnl)] *)
Definition riskManager_recordTrade (rm : RiskManager.t) (p : number) : M unit :=
  now <- dateNow ;;
  stamp <- dateNow ;;
  tk <- getToolkit ;;
  setToolkit (mkToolkit (address tk)
                (Some (RiskManager.recordTrade now stamp p rm))
                (defaultSlippage tk) (assetMap tk) (spotAssetMap tk)).

(** [(params.market || 'perp').toLowerCase()] *)
Definition marketOf (params : OpenPositionParams) : string :=
  Str.toLowerCase
    match market params with
    | Some m => if String.eqb m "" then "perp" else m
    | None => "perp"
    end.

(** [openPosition], lines 254-263: the warnings for spot orders. *)
Definition warnSpot (params : OpenPositionParams) (mkt : string) : M unit :=
  if String.eqb mkt "spot" then
    (if Num.given (stopLossPercent params) || Num.given (stopLossPrice params)
        || Num.given (takeProfitPercent params)
        || Num.given (takeProfitPrice params)
     then emit (Console WarnSpotStops) else ret tt) ;;
    (if match leverage params with
        | Some l => Num.truthy l && negb (l =? Num.one)%num
        | None => false
        end
     then emit (Console WarnSpotLeverage) else ret tt)
  else ret tt.

(** [openPosition], lines 265-293: the risk checks.  [Some failure] is the
    early return of the denial.  The two fetches of [Promise.all] are
    independent of each other and run here one after the other. *)
Definition riskChecks (params : OpenPositionParams) (mkt : string)
  : M (option (ActionResult number)) :=
  tk <- getToolkit ;;
  match riskManager tk with
  | Some rm =>
      if String.eqb mkt "perp" then
        positionsResult <- getPositions ;;
        balanceResult <- getBalance ;;
        if negb (success positionsResult) || negb (success balanceResult)
        then throw "Failed to fetch account data for risk checks"
        else
          match data positionsResult, data balanceResult with
          | Some positions, Some balance =>
              riskCheck <- riskManager_checkOpenPosition rm params positions
                             (availableBalance balance) ;;
              if negb (allowed riskCheck)
              then
                failure <- fail (RiskCheckFailed (reason riskCheck)) ;;
                ret (Some failure)
              else
                match warnings riskCheck with
                | Some ws => emit (Console (WarnRisk ws))
                | None => ret tt
                end ;;
                ret None
          | _, _ =>
              (* a successful result always has its data *)
              throw "Cannot read properties of undefined"
          end
      else ret None
  | None => ret None
  end.

Definition limitOrder (tif : Tif) (assetIndex : Z) (isBuy : bool)
    (price size : string) (reduceOnly : bool) : OrderRequest :=
  mkOrderRequest [Order.mk assetIndex isBuy price size reduceOnly (Limit tif)] na.

Definition triggerOrder (kind : Tpsl) (assetIndex : Z) (isBuy : bool)
    (price size : string) : OrderRequest :=
  mkOrderRequest
    [Order.mk assetIndex isBuy price size true (Trigger price true kind)]
    positionTpsl.

(** [currentPrice * (1 - percent / 100)] or [... (1 + percent / 100)];
    [percent] is [undefined] when the caller left it out. *)
Definition offsetPrice (currentPrice : number) (percent : option number)
    (up : bool) : number :=
  let pc := match percent with Some v => v | None => NaN end in
  if up then (currentPrice * (Num.one + pc / Num.ofZ 100))%num
  else (currentPrice * (Num.one - pc / Num.ofZ 100))%num.

(** The price of a market order: the far side of the book moved by the
    slippage, at five significant digits. *)
Definition slippagePrice (isBuy : bool) (bestBid bestAsk : number)
    (slippagePct : option number) (defaultPct : number) : number :=
  let slippage := (Num.orElse slippagePct defaultPct / Num.ofZ 100)%num in
  if isBuy then (bestAsk * (Num.one + slippage))%num
  else (bestBid * (Num.one - slippage))%num.

(** [normalizedSide === 'long' || normalizedSide === 'buy'] *)
Definition isBuyOrder (params : OpenPositionParams) : bool :=
  let normalizedSide := Str.toLowerCase (side params) in
  String.eqb normalizedSide "long" || String.eqb normalizedSide "buy".

(** [params.orderType === 'limit' && !!params.limitPrice] *)
Definition isLimitOrder (params : OpenPositionParams) : bool :=
  match orderType params with
  | Some ty => String.eqb ty "limit" && Num.given (limitPrice params)
  | None => false
  end.

(** [params.limitPrice!] *)
Definition limitPriceOf (params : OpenPositionParams) : number :=
  match limitPrice params with Some v => v | None => NaN end.

(** [openPosition], lines 311-451: the size, the leverage, the entry order
    and its stop-loss and take-profit legs, for the asset [ai] and the top
    of the book [bookTop] read for it, if one was. *)
Definition submitOrders (params : OpenPositionParams)
    (mkt normalizedCoin : string) (ai : AssetIndex)
    (bookTop : option (number * number)) : M (ActionResult number) :=
  let assetIndex := index ai in
  let isBuy := isBuyOrder params in
  let lev := Num.orElse (leverage params) Num.one in
  let isSpot := String.eqb mkt "spot" in
  let isLimit := isLimitOrder params in
  (* Calculate order size *)
  orderSize <-
    (if Num.given (sizeUsd params) then
       let price :=
         if isLimit then limitPriceOf params
         else getMidPriceFromTop bookTop in
       if (price =? Num.zero)%num
       then throw ("No price available for " ++ coin params)%string
       else lift (formatSize
                    (Num.orElse (sizeUsd params) Num.zero / price)%num
                    (szDecimals ai) Up)
     else if Num.given (sizeCoin params) then
       lift (formatSize (Num.orElse (sizeCoin params) Num.zero)
               (szDecimals ai) Down)
     else throw "Either sizeUsd or sizeCoin must be specified") ;;
  (* Set leverage (perps only) *)
  (if negb isSpot
   then ExchangeClient.updateLeverage assetIndex true lev
   else ret tt) ;;
  (* Get price for the order *)
  '(orderPrice, tif) <-
    (if isLimit then
       ret (Numeral.toFixed (limitPriceOf params) 5, Gtc)
     else
       (* Market order - use top-of-book and slippage buffer *)
       '(bestBid, bestAsk) <-
         match bookTop with
         | Some top => ret top
         | None => getBookTopLevels (pairName ai)
         end ;;
       tk <- getToolkit ;;
       let rawPrice :=
         slippagePrice isBuy bestBid bestAsk (slippagePercent params)
           (defaultSlippage tk) in
       ret (Numeral.toPrecisionString rawPrice 5, Ioc)) ;;
  orderResult <-
    ExchangeClient.order
      (limitOrder tif assetIndex isBuy orderPrice orderSize false) ;;
  status <- lift (extractFirstOrderStatus orderResult) ;;
  if isErrorStatus status
  then fail (OrderFailed (Value.get status "error"))
  else
    let orderId := extractOrderId status in
    let statusType :=
      (if isRestingStatus status then "resting" else "filled")%string in
    emit (Console (LogOrderPlaced orderId statusType)) ;;
    (* Stop-loss and take-profit only for perps *)
    if isSpot then succeed orderId
    else
      (* Place stop-loss if specified (perps only) *)
      (if Num.given (stopLossPrice params) || Num.given (stopLossPercent params)
       then
         mids <- InfoClient.allMids ;;
         let currentPrice := midOf mids normalizedCoin in
         let stopPrice :=
           Num.orElse (stopLossPrice params)
             (offsetPrice currentPrice (stopLossPercent params) (negb isBuy)) in
         _ <- ExchangeClient.order
                (triggerOrder sl assetIndex (negb isBuy)
                   (Numeral.toFixed stopPrice 5) orderSize) ;;
         ret tt
       else ret tt) ;;
      (* Place take-profit if specified *)
      (if Num.given (takeProfitPrice params)
          || Num.given (takeProfitPercent params)
       then
         mids <- InfoClient.allMids ;;
         let currentPrice := midOf mids normalizedCoin in
         let tpPrice :=
           Num.orElse (takeProfitPrice params)
             (offsetPrice currentPrice (takeProfitPercent params) isBuy) in
         _ <- ExchangeClient.order
                (triggerOrder tp assetIndex (negb isBuy)
                   (Numeral.toFixed tpPrice 5) orderSize) ;;
         ret tt
       else ret tt) ;;
      succeed orderId.

(** [openPosition], lines 295-451: the asset, the book, and the orders. *)
Definition placeOrders (params : OpenPositionParams) (mkt normalizedCoin : string)
  : M (ActionResult number) :=
  (* Get asset index (spot = 10000+, perp = regular) *)
  ai <- getAssetIndex normalizedCoin mkt ;;
  bookTop <- (if negb (isLimitOrder params) || Num.given (sizeUsd params)
              then top <- getBookTopLevels (pairName ai) ;; ret (Some top)
              else ret None) ;;
  submitOrders params mkt normalizedCoin ai bookTop.

Definition openPosition (params : OpenPositionParams) : M (ActionResult number) :=
  tryCatch
    (let mkt := marketOf params in
     let normalizedCoin := Str.toUpperCase (coin params) in
     warnSpot params mkt ;;
     denied <- riskChecks params mkt ;;
     match denied with
     | Some failure => ret failure
     | None => placeOrders params mkt normalizedCoin
     end)
    (fun msg =>
       emit (Console (ErrorInOpenPosition msg)) ;;
       fail (Message msg)).

(** [closePosition], lines 487-517: the reduce-only order for [position],
    priced off the top of the book read for it, and what follows. *)
Definition submitClose (params : ClosePositionParams) (position : Position)
    (ai : AssetIndex) (closeSize : string) (top : number * number)
  : M (ActionResult number) :=
  let '(bestBid, bestAsk) := top in
  let closePercent := Num.orElse (c_percent params) (Num.ofZ 100) in
  (* Opposite side of current position *)
  let isBuy := match pos_side position with Short => true | Long => false end in
  tk <- getToolkit ;;
  let orderPrice :=
    slippagePrice isBuy bestBid bestAsk (c_slippagePercent params)
      (defaultSlippage tk) in
  result <-
    ExchangeClient.order
      (limitOrder Ioc (index ai) isBuy
         (Numeral.toPrecisionString orderPrice 5) closeSize true) ;;
  (* Record trade for risk manager *)
  tk <- getToolkit ;;
  match riskManager tk with
  | Some rm =>
      if (closePercent =? Num.ofZ 100)%num
      then riskManager_recordTrade rm (unrealizedPnl position)
      else ret tt
  | None => ret tt
  end ;;
  status <- lift (extractFirstOrderStatus result) ;;
  let orderId := extractOrderId status in
  succeed orderId.

Definition closePosition (params : ClosePositionParams) : M (ActionResult number) :=
  tryCatch
    (let normalizedCoin := Str.toUpperCase (c_coin params) in
     positionsResult <- getPositions ;;
     if negb (success positionsResult)
     then throw "Failed to fetch positions"
     else
       match
         find (fun p => String.eqb (Str.toUpperCase (pos_coin p)) normalizedCoin)
           (match data positionsResult with Some ps => ps | None => [] end)
       with
       | None => throw ("No open position found for " ++ normalizedCoin)%string
       | Some position =>
           ai <- getAssetIndex normalizedCoin "perp" ;;
           let closePercent := Num.orElse (c_percent params) (Num.ofZ 100) in
           closeSize <-
             lift (formatSize
                     (pos_size position * closePercent / Num.ofZ 100)%num
                     (szDecimals ai) Down) ;;
           (* Get market price with slippage *)
           top <- getBookTopLevels normalizedCoin ;;
           submitClose params position ai closeSize top
       end)
    (fun msg => fail (Message msg)).

(** * Vocabulary of the properties *)

(** ** The pre-trade checks and their order *)

Inductive Check : Type :=
| CheckLeverage
| CheckNotional
| CheckOpenPositions
| CheckDailyLoss
| CheckDrawdown
| CheckStopLoss
| CheckMargin.

(** The order in which the specification lists the checks. *)
Definition precedence : list Check :=
  [CheckLeverage; CheckNotional; CheckOpenPositions; CheckDailyLoss;
   CheckDrawdown; CheckStopLoss; CheckMargin].

(** The check a denial reason belongs to. *)
Definition checkOf (r : DenyReason) : Check :=
  match r with
  | LeverageExceedsMaximum _ _ => CheckLeverage
  | PositionSizeExceedsMaximum _ _ => CheckNotional
  | AtMaximumOpenPositions _ => CheckOpenPositions
  | DailyLossLimitReached _ _ => CheckDailyLoss
  | DrawdownExceedsMaximum _ _ => CheckDrawdown
  | StopLossRequired => CheckStopLoss
  | InsufficientMargin _ _ => CheckMargin
  end.

(** Whether an intent violates one check, taken on its own: the condition
    of the check's [if] in [checkOpenPosition], read against the manager
    as the call at [now] finds it. *)
Definition violates (now : Z) (params : OpenPositionParams)
    (positions : list Position) (balance : number) (s : RiskManager.t)
    (c : Check) : bool :=
  let cfg := RiskManager.config s in
  let positionSizeUsd := Num.orElse (sizeUsd params) Num.zero in
  match c with
  | CheckLeverage =>
      Num.given (leverage params)
      && (Num.orElse (leverage params) Num.zero >? maxLeverage cfg)%num
  | CheckNotional =>
      (positionSizeUsd >? maxPositionSizeUsd cfg)%num
  | CheckOpenPositions =>
      Num.given (maxOpenPositions cfg)
      && (Num.ofNat
            (match RiskManager.findPosition (coin params) positions with
             | Some _ => length positions
             | None => length positions + 1
             end)
          >? Num.orElse (maxOpenPositions cfg) Num.zero)%num
  | CheckDailyLoss =>
      Num.given (maxDailyLoss cfg)
      && (Num.abs (RiskManager.dailyPnl (RiskManager.updateDailyPnl now s))
          >=? Num.orElse (maxDailyLoss cfg) Num.zero)%num
  | CheckDrawdown =>
      Num.given (maxDrawdownPercent cfg)
      && (Num.abs (RiskManager.totalUnrealizedPnl positions) / balance
          * Num.ofZ 100
          >=? Num.orElse (maxDrawdownPercent cfg) Num.zero)%num
  | CheckStopLoss =>
      match requireStopLoss cfg with Some b => b | None => false end
      && negb (Num.given (stopLossPrice params))
      && negb (Num.given (stopLossPercent params))
  | CheckMargin =>
      (positionSizeUsd / Num.orElse (leverage params) Num.one
       >? balance * dec 9 10)%num
  end.

(** The call gets as far as the daily-loss limit: the three checks before
    it pass and the limit is set. *)
Definition consultsDailyLoss (now : Z) (params : OpenPositionParams)
    (positions : list Position) (balance : number) (s : RiskManager.t) : bool :=
  negb (violates now params positions balance s CheckLeverage)
  && negb (violates now params positions balance s CheckNotional)
  && negb (violates now params positions balance s CheckOpenPositions)
  && Num.given (maxDailyLoss (RiskManager.config s)).

(** ** Runs of [recordTrade] *)

(** One call [recordTrade(pnl)], with the two readings of the clock it
    takes. *)
Record TradeCall : Type := mkTradeCall {
  call_now : Z;
  call_stamp : Z;
  call_pnl : number
}.

Definition entryOf (c : TradeCall) : TradeEntry :=
  mkTradeEntry (call_stamp c) (call_pnl c).

Definition recordTrades (calls : list TradeCall) (s : RiskManager.t)
  : RiskManager.t :=
  fold_left
    (fun s c => RiskManager.recordTrade (call_now c) (call_stamp c) (call_pnl c) s)
    calls s.

(** ** The limits the specification states for a [RiskConfig] *)

Definition positive (x : number) : bool := (Num.zero <? x)%num.

Definition optionally (ok : number -> bool) (x : option number) : bool :=
  match x with
  | Some v => ok v
  | None => true
  end.

(** [maxLeverage] in (0,50], [maxPositionSizeUsd > 0], optional
    [maxDailyLoss > 0], optional [maxDrawdownPercent] in (0,100], optional
    [maxOpenPositions > 0]. *)
Definition withinLimits (c : RiskConfig) : bool :=
  positive (maxLeverage c) && (maxLeverage c <=? Num.ofZ 50)%num
  && positive (maxPositionSizeUsd c)
  && optionally positive (maxDailyLoss c)
  && optionally (fun v => positive v && (v <=? Num.ofZ 100)%num)
       (maxDrawdownPercent c)
  && optionally positive (maxOpenPositions c).

(** ** Sample inputs *)

Definition sampleConfig : RiskConfig :=
  mkRiskConfig (Fin 10) (Fin 1000) (Some (Fin 500)) None None None.

Definition sampleManager : RiskManager.t :=
  RiskManager.mk sampleConfig Num.zero 0 [].

(** A manager whose log holds 1000 entries. *)
Definition fullManager : RiskManager.t :=
  RiskManager.mk sampleConfig Num.zero 0
    (map (fun i => mkTradeEntry (Z.of_nat i) (Num.ofNat i)) (seq 0 1000)).

(** Twenty-fold leverage on a 2000 USD position: over both limits of
    [sampleConfig]. *)
Definition overBothLimits : OpenPositionParams :=
  mkOpenPositionParams "BTC" "long" None (Some (Fin 2000)) None
    (Some (Fin 20)) None None None None None None None.

(** [{ maxDailyLoss: 0 }] *)
Definition zeroDailyLoss : PartialRiskConfig :=
  mkPartialRiskConfig None None (Some (Fin 0)) None None None.

(** ** Numerals *)


(** -1 for a negative value, 1 otherwise. *)
Definition signOf (q : Q) : Q := if Num.Qlt_bool q 0 then - (1) else 1.

(** [q] has at most [f] decimals. *)
Definition hasDecimals (q : Q) (f : nat) : Prop :=
  exists z : Z, (q * Numeral.pow10 f == inject_Z z)%Q.


(** ** Runs of the toolkit *)

Definition tick (w : World) : World :=
  mkWorld (toolkit w) (history w) (S (ticks w)).

Definition record (e : Event) (w : World) : World :=
  mkWorld (toolkit w) (history w ++ [e]) (ticks w).

Definition withToolkit (tk : Toolkit) (w : World) : World :=
  mkWorld tk (history w) (ticks w).

(** [keeps env I m R]: run from a world where [I] holds, [m] ends in a
    world where [I] holds, and what it returns satisfies [R]. *)
Definition keeps (env : Env) (I : World -> Prop) {A : Type} (m : M A)
    (R : A -> Prop) : Prop :=
  forall w, I w ->
    I (snd (m env w))
    /\ match fst (m env w) with
       | Returned x => R x
       | Threw _ => True
       end.


(** What a run added to the history. *)
Definition added (w w' : World) (evs : list Event) : Prop :=
  history w' = history w ++ evs.

(** Requests other than orders. *)
Definition isQuery (rq : Request) : Prop :=
  match rq with
  | PlaceOrder _ => False
  | _ => True
  end.

(** Anything but a call of [checkOpenPosition]. *)
Definition notRiskCheck (e : Event) : Prop :=
  match e with
  | RiskChecked _ _ _ => False
  | _ => True
  end.

(** [bestBid] and [bestAsk] are the first levels of a book the exchange
    returned, and neither is zero or NaN. *)
Definition topOfBook (env : Env) (bestBid bestAsk : number) : Prop :=
  (exists h c bk,
     ex_l2Book (exchange env) h c 5 = Resolved (Some bk)
     /\ bestBid = match bids bk with l :: _ => px l | [] => Num.zero end
     /\ bestAsk = match asks bk with l :: _ => px l | [] => Num.zero end)
  /\ Num.truthy bestBid = true /\ Num.truthy bestAsk = true.

(** The price of a market order for a toolkit whose default slippage is
    [dflt]: the slippage price off the top of a book, at five significant
    digits. *)
Definition marketPrice (env : Env) (dflt : number) (isBuy : bool)
    (slippagePct : option number) (price : string) : Prop :=
  exists bestBid bestAsk,
    topOfBook env bestBid bestAsk
    /\ price = Numeral.toPrecisionString
                 (slippagePrice isBuy bestBid bestAsk slippagePct dflt) 5.

(** The price and the time in force of the entry order of [openPosition]:
    the limit price at five decimals, good till cancelled; or the market
    price, immediate or cancel. *)
Definition entryPrice (env : Env) (dflt : number) (params : OpenPositionParams)
    (price : string) (tif : Tif) : Prop :=
  (isLimitOrder params = true
   /\ price = Numeral.toFixed (limitPriceOf params) 5 /\ tif = Gtc)
  \/ (isLimitOrder params = false /\ tif = Ioc
      /\ marketPrice env dflt (isBuyOrder params) (slippagePercent params) price).

(** What [openPosition] returns once the exchange has answered the entry
    order with a list of statuses: a failure with the error of the first
    status when that has one, a success otherwise. *)
Definition entryOutcome (env : Env) (r : ActionResult number) : Prop :=
  exists h req x st,
    ex_order (exchange env) h req = Resolved x
    /\ extractFirstOrderStatus x = Returned st
    /\ if isErrorStatus st
       then success r = false
            /\ error r = Some (OrderFailed (Value.get st "error"))
       else success r = true /\ error r = None.

(** The three ways [openPosition] ends: a denial by the risk manager, which
    only a perp order meets; the outcome of the entry order; a caught
    exception. *)
Definition openOutcome (env : Env) (params : OpenPositionParams)
    (r : ActionResult number) : Prop :=
  (marketOf params = "perp"%string /\ success r = false
   /\ exists why, error r = Some (RiskCheckFailed why))
  \/ entryOutcome env r
  \/ (success r = false /\ exists msg, error r = Some (Message msg)).

(** The two ways [closePosition] ends: a success with the order id read off
    the first status of the answer to its order, whatever that status is;
    a caught exception. *)
Definition closeOutcome (env : Env) (r : ActionResult number) : Prop :=
  (exists h req x st,
     ex_order (exchange env) h req = Resolved x
     /\ extractFirstOrderStatus x = Returned st
     /\ success r = true /\ data r = Some (extractOrderId st) /\ error r = None)
  \/ (success r = false /\ exists msg, error r = Some (Message msg)).

(** The orders among the events. *)
Definition ordersIn (evs : list Event) : list OrderRequest :=
  flat_map (fun e => match e with Sent (PlaceOrder req) => [req] | _ => [] end) evs.

(** ** A sample exchange *)

Local Open Scope string_scope.

(** The response of the exchange to an order, with one status. *)
Definition orderResponse (status : value) : value :=
  VObject
    [("status", VString "ok");
     ("response",
      VObject
        [("type", VString "order");
         ("data", VObject [("statuses", VArray [status])])])].

Definition filledStatus : value :=
  VObject
    [("filled",
      VObject
        [("totalSz", VString "1"); ("avgPx", VString "101");
         ("oid", VNumber (Fin 77))])].

Definition errorStatus : value :=
  VObject [("error", VString "Reduce only order would increase position")].

(** An account long 2 BTC, a book of 100 bid and 100.6 asked, perps BTC
    (sizes to five decimals) and DOGE (whole sizes), the spot pair
    PURR/USDC; every order is answered with [status]. *)
Definition sampleExchange (status : value) : Exchange :=
  mkExchange
    (fun _ _ =>
       Resolved
         (mkClearinghouseData
            [mkAssetPosition "BTC" (Fin 2) (Fin 100) (Fin 5) (Fin 3) (Fin 0)]
            (Fin 1000) (Fin 1000) (Fin 0) (Fin 1000)))
    (fun _ => Resolved [("BTC", Fin 100); ("DOGE", Fin 100)])
    (fun _ => Resolved [mkPerpAsset "BTC" 5; mkPerpAsset "DOGE" 0])
    (fun _ =>
       Resolved
         (mkSpotMetaData [mkSpotToken 0 "USDC" 8; mkSpotToken 1 "PURR" 0]
            [mkSpotPair 0 "PURR/USDC" 1]))
    (fun _ _ _ =>
       Resolved
         (Some (mkBook [mkLevel (Fin 100) (Fin 1)]
                  [mkLevel (dec 1006 10) (Fin 1)])))
    (fun _ _ _ _ => Resolved tt)
    (fun _ _ => Resolved (orderResponse status)).

Definition sampleEnv (status : value) : Env :=
  mkEnv (sampleExchange status) (fun i => 1000 + Z.of_nat i).

(** A toolkit with [sampleManager] as its risk manager and the default
    slippage of 1 percent. *)
Definition sampleWorld : World :=
  mkWorld (mkToolkit "0xabc" (Some sampleManager) (Fin 1) None None) [] 0.

(** Buy 100 USD of BTC at the market. *)
Definition marketBuy : OpenPositionParams :=
  mkOpenPositionParams "BTC" "long" None (Some (Fin 100)) None
    (Some (Fin 2)) None None None None None None None.

(** Buy 1 BTC at the limit of 0.123456789. *)
Definition limitBuy : OpenPositionParams :=
  mkOpenPositionParams "BTC" "long" None None (Some (Fin 1))
    (Some (Fin 2)) None None None None None (Some "limit")
    (Some (Fin (123456789 # 1000000000))).

(** Buy 100 USD of PURR on the spot market. *)
Definition spotBuy : OpenPositionParams :=
  mkOpenPositionParams "PURR" "buy" (Some "spot") (Some (Fin 100)) None
    None None None None None None None None.

(** Close the whole BTC position. *)
Definition closeAll : ClosePositionParams :=
  mkClosePositionParams "BTC" None None.

(** The prices of the orders among the events. *)
Definition pricesIn (evs : list Event) : list string :=
  flat_map (fun req => map Order.p (orders req)) (ordersIn evs).

Local Close Scope string_scope.

(** The invariant of a run from [w0]: what it added to the history
    satisfies [E], and the toolkit it holds satisfies [G]. *)
Definition since (w0 : World) (E : Event -> Prop) (G : Toolkit -> Prop)
    (w : World) : Prop :=
  (exists evs, added w0 w evs /\ Forall E evs) /\ G (toolkit w).

(** The toolkit's default slippage is [d]. *)
Definition slippageIs (d : number) (tk : Toolkit) : Prop :=
  defaultSlippage tk = d.

(** The toolkit keeps the risk manager and the default slippage it had in
    [w0]. *)
Definition sameRiskManager (w0 : World) (tk : Toolkit) : Prop :=
  riskManager tk = riskManager (toolkit w0)
  /\ defaultSlippage tk = defaultSlippage (toolkit w0).


(** An order that is not part of a stop-loss or take-profit pair is the
    entry order of [openPosition] for [params], at its price. *)
Definition entryEvent (env : Env) (dflt : number) (params : OpenPositionParams)
    (e : Event) : Prop :=
  match e with
  | Sent (PlaceOrder req) =>
      grouping req = na ->
      exists a size price tif,
        req = limitOrder tif a (isBuyOrder params) price size false
        /\ entryPrice env dflt params price tif
  | _ => True
  end.





(** An order that is not part of a stop-loss or take-profit pair is a
    good-till-cancelled order at the limit price printed with five
    decimals. *)
Definition limitEntry (params : OpenPositionParams) (e : Event) : Prop :=
  match e with
  | Sent (PlaceOrder req) =>
      grouping req = na ->
      exists a size,
        req = limitOrder Gtc a (isBuyOrder params)
                (Numeral.toFixed (limitPriceOf params) 5) size false
  | _ => True
  end.


(** * Further definitions *)

(** ** [RiskManager.calculatePositionRisk] *)

(** A [Position] with its optional keys [stopLoss] and [takeProfit], which
    the positions built by the toolkit never carry. *)
Record PositionWithStops : Type := mkPositionWithStops {
  position_of : Position;
  stopLoss : option number;
  takeProfit : option number
}.

Record PositionRisk : Type := mkPositionRisk {
  riskAmount : number;
  riskPercent : number;
  rewardRatio : option number
}.

Definition calculatePositionRisk (position : PositionWithStops) : PositionRisk :=
  let p := position_of position in
  let positionValue := Num.abs (pos_size p * pos_currentPrice p)%num in
  let riskAmount :=
    RiskManager.whenSet (stopLoss position)
      (fun stop =>
         let stopDistance := Num.abs (pos_currentPrice p - stop)%num in
         (Num.abs (pos_size p) * stopDistance)%num)
      Num.zero in
  let rewardAmount :=
    RiskManager.whenSet (takeProfit position)
      (fun target =>
         let profitDistance := Num.abs (target - pos_currentPrice p)%num in
         (Num.abs (pos_size p) * profitDistance)%num)
      Num.zero in
  let riskPercent := (riskAmount / positionValue * Num.ofZ 100)%num in
  let rewardRatio :=
    if (riskAmount >? Num.zero)%num && (rewardAmount >? Num.zero)%num
    then Some (rewardAmount / riskAmount)%num
    else None in
  mkPositionRisk riskAmount riskPercent rewardRatio.

(** ** Events and positions *)

(** What an [openPosition] for the spot market may do: fetch the spot
    metadata, read a book, send its entry order, write to the console. *)
Definition spotEvent (params : OpenPositionParams) (e : Event) : Prop :=
  match e with
  | Sent SpotMeta => True
  | Sent (L2Book _ nSigFigs) => nSigFigs = 5%nat
  | Sent (PlaceOrder req) =>
      exists tif a price size,
        req = limitOrder tif a (isBuyOrder params) price size false
  | Console _ => True
  | _ => False
  end.

(** How [openPosition] sets the leverage and what orders it sends: cross
    margin at the leverage asked for, 1 when none is; the entry order; or a
    reduce-only trigger order on the other side. *)
Definition openEvent (params : OpenPositionParams) (e : Event) : Prop :=
  match e with
  | Sent (UpdateLeverage _ isCross lev) =>
      isCross = true /\ lev = Num.orElse (leverage params) Num.one
  | Sent (PlaceOrder req) =>
      (exists tif a price size,
         req = limitOrder tif a (isBuyOrder params) price size false)
      \/ (exists kind a price size,
            req = triggerOrder kind a (negb (isBuyOrder params)) price size)
  | _ => True
  end.

(** Anything but an order. *)
Definition notOrder (e : Event) : Prop :=
  match e with
  | Sent (PlaceOrder _) => False
  | _ => True
  end.


(** The positions [getPositions] makes of a clearinghouse state. *)
Definition positionsOf (mids : list (string * number))
    (state : ClearinghouseData) : list Position :=
  map (toPosition mids)
    (filter (fun ap => negb (szi ap =? Num.zero)%num) (assetPositions state)).

(** The share of a position that [closePosition] closes, in percent. *)
Definition closePercentOf (params : ClosePositionParams) : number :=
  Num.orElse (c_percent params) (Num.ofZ 100).

(** A read of the account: the clearinghouse state or the mids. *)
Definition accountQuery (e : Event) : Prop :=
  match e with
  | Sent (ClearinghouseState _) | Sent AllMids => True
  | _ => False
  end.

(** The risk manager of the toolkit is the one it had in [w0]. *)
Definition keepsRiskManager (w0 : World) (tk : Toolkit) : Prop :=
  riskManager tk = riskManager (toolkit w0).

(** A string of decimal digits. *)
Fixpoint onlyDigits (s : string) : bool :=
  match s with
  | EmptyString => true
  | String c s' =>
      match Str.digitValue c with
      | Some _ => onlyDigits s'
      | None => false
      end
  end.

(** ** [getOrderBook] *)

(** ToIntegerOrInfinity of a finite number: truncation towards zero. *)
Definition truncate (q : Q) : Z :=
  if Num.Qlt_bool q 0 then Qceiling q else Qfloor q.

(** [list.slice(0, end)]: [end] is made an integer; a negative one counts
    from the end of the list; the result stops where the list does. *)
Definition sliceTo {A : Type} (end_ : number) (l : list A) : list A :=
  match end_ with
  | NaN | NegInf => []
  | PosInf => l
  | Fin q =>
      let k := truncate q in
      if k <? 0
      then firstn (Z.to_nat (Z.max (Z.of_nat (length l) + k) 0)) l
      else firstn (Z.to_nat k) l
  end.

(** [[parseFloat(level.px), parseFloat(level.sz)]] *)
Definition levelPair (level : Level) : number * number :=
  (px level, sz level).

Record OrderBookData : Type := mkOrderBookData {
  ob_bids : list (number * number);
  ob_asks : list (number * number)
}.

Definition getOrderBook (coin : string) (depth : option number)
  : M (ActionResult OrderBookData) :=
  tryCatch
    (book <- InfoClient.l2Book coin 5 ;;
     match book with
     | None => throw ("No order book available for " ++ coin)%string
     | Some bk =>
         let depth := Num.orElse depth (Num.ofZ 10) in
         succeed (mkOrderBookData
                    (map levelPair (sliceTo depth (bids bk)))
                    (map levelPair (sliceTo depth (asks bk))))
     end)
    (fun msg => fail (Message msg)).

(** The read of the book of [coin] that the toolkit makes. *)
Definition bookQuery (coin : string) (e : Event) : Prop :=
  e = Sent (L2Book coin 5).
(** * Properties *)

(** ** [RiskManager.checkOpenPosition] *)

Lemma orElse_given (x : option number) (d : number) :
  Num.given x = true -> exists v, x = Some v /\ Num.truthy v = true /\ Num.orElse x d = v.
Proof.
  destruct x as [v|]; simpl; [|discriminate].
  intros H. exists v. unfold Num.or. rewrite H. auto.
Qed.

Lemma whenSet_given {A : Type} (x : option number) (body : number -> A) (o : A) :
  RiskManager.whenSet x body o =
  if Num.given x then body (Num.orElse x Num.zero) else o.
Proof.
  destruct x as [v|]; simpl; [|reflexivity].
  unfold Num.or. destruct (Num.truthy v); reflexivity.
Qed.

Lemma if_and {A : Type} (a b : bool) (x y : A) :
  (if a then (if b then x else y) else y) = if a && b then x else y.
Proof. destruct a, b; reflexivity. Qed.

(** C1. [checkOpenPosition] denies an intent exactly when it violates one
    of the checks, and then with the reason of the first check violated in
    the order leverage, notional size, open-position count, daily loss,
    drawdown, stop-loss mandate, margin; the result carries that one
    reason.  An intent that violates both the leverage and the notional
    limit is denied for its leverage. *)
Theorem checkOpenPosition_first_violation
    (now : Z) (params : OpenPositionParams) (positions : list Position)
    (balance : number) (s : RiskManager.t) :
  let result := fst (RiskManager.checkOpenPosition now params positions balance s) in
  match find (violates now params positions balance s) precedence with
  | Some c =>
      allowed result = false /\
      exists r, reason result = Some r /\ checkOf r = c
  | None => allowed result = true /\ reason result = None
  end
  /\ (violates now params positions balance s CheckLeverage = true ->
      violates now params positions balance s CheckNotional = true ->
      exists l m, reason result = Some (LeverageExceedsMaximum l m)).
Proof.
  unfold RiskManager.checkOpenPosition, precedence, violates.
  rewrite !whenSet_given.
  cbn [find].
  rewrite !if_and.
  set (v1 := Num.given (leverage params) && _).
  set (v2 := (_ >? maxPositionSizeUsd _)%num).
  set (v3 := Num.given (maxOpenPositions _) && _).
  destruct v1; [cbn; split; eauto|].
  destruct v2; [cbn; split; [eauto|discriminate]|].
  destruct v3; [cbn; split; [eauto|discriminate]|].
  destruct (Num.given (maxDailyLoss (RiskManager.config s))); cbn [andb].
  1: destruct (Num.abs (RiskManager.dailyPnl (RiskManager.updateDailyPnl now s)) >=? _)%num;
       [cbn; split; [eauto|discriminate]|].
  1: destruct (_ + _ >=? _)%num.
  all: cbn beta iota; rewrite whenSet_given.
  all: destruct (Num.given (maxDrawdownPercent (RiskManager.config s))); cbn [andb].
  all: try (destruct (_ * Num.ofZ 100 >=? Num.orElse _ _)%num;
            [cbn; split; [eauto|discriminate]|]).
  all: try destruct (_ * Num.ofZ 100 >=? _ * dec 8 10)%num.
  all: cbn beta iota.
  all: destruct (_ && negb (Num.given (stopLossPercent params)));
         [cbn; split; [eauto|discriminate]|].
  all: destruct (_ >? balance * dec 9 10)%num; [cbn; split; [eauto|discriminate]|].
  all: cbn; split; [auto|discriminate].
Qed.

Lemma checkOpenPosition_first_violation_witness :
  exists l m,
    reason (fst (RiskManager.checkOpenPosition 0 overBothLimits [] (Fin 100000)
                   sampleManager))
    = Some (LeverageExceedsMaximum l m).
Proof.
  apply (proj2 (checkOpenPosition_first_violation 0 overBothLimits []
                  (Fin 100000) sampleManager)); reflexivity.
Defined.

(** ** The trade history *)

Lemma updateDailyPnl_tradesLog now s :
  RiskManager.tradesLog (RiskManager.updateDailyPnl now s) = RiskManager.tradesLog s.
Proof. unfold RiskManager.updateDailyPnl. destruct (_ >=? _); reflexivity. Qed.

Lemma sliceLast_length {A} (n : nat) (l : list A) :
  length (RiskManager.sliceLast n l) = Nat.min n (length l).
Proof. unfold RiskManager.sliceLast. rewrite length_skipn. lia. Qed.

Lemma sliceLast_short {A} (n : nat) (l : list A) :
  (length l <= n)%nat -> RiskManager.sliceLast n l = l.
Proof.
  intros H. unfold RiskManager.sliceLast.
  replace (length l - n)%nat with O by lia. reflexivity.
Qed.

Lemma recordTrade_tradesLog now stamp p s :
  RiskManager.tradesLog (RiskManager.recordTrade now stamp p s) =
  RiskManager.sliceLast 1000 (RiskManager.tradesLog s ++ [mkTradeEntry stamp p]).
Proof.
  unfold RiskManager.recordTrade. cbn [RiskManager.tradesLog].
  rewrite updateDailyPnl_tradesLog.
  destruct (Nat.ltb_spec 1000
              (length (RiskManager.tradesLog s ++ [mkTradeEntry stamp p]))).
  - reflexivity.
  - symmetry. now apply sliceLast_short.
Qed.

Lemma sliceLast_drop_front {A} (n : nat) (a b r : list A) :
  length b = n ->
  RiskManager.sliceLast n ((a ++ b) ++ r) = RiskManager.sliceLast n (b ++ r).
Proof.
  intros Hb. unfold RiskManager.sliceLast.
  rewrite <- app_assoc, !length_app, Hb.
  rewrite skipn_app, skipn_all2 by lia.
  cbn [app]. f_equal. lia.
Qed.

Lemma sliceLast_app_sliceLast {A} (n : nat) (l r : list A) :
  RiskManager.sliceLast n (RiskManager.sliceLast n l ++ r)
  = RiskManager.sliceLast n (l ++ r).
Proof.
  destruct (Nat.le_gt_cases (length l) n) as [H|H].
  - now rewrite (sliceLast_short n l).
  - rewrite <- (firstn_skipn (length l - n) l) at 2.
    rewrite sliceLast_drop_front; [reflexivity|].
    rewrite length_skipn. lia.
Qed.

Lemma recordTrade_bounded now stamp p s :
  (length (RiskManager.tradesLog (RiskManager.recordTrade now stamp p s))
   <= 1000)%nat.
Proof. rewrite recordTrade_tradesLog, sliceLast_length. lia. Qed.

(** A run of [recordTrade] leaves the last 1000 of the entries there were
    and the entries it added. *)
Lemma recordTrades_tradesLog calls : forall s,
  (length (RiskManager.tradesLog s) <= 1000)%nat ->
  RiskManager.tradesLog (recordTrades calls s) =
  RiskManager.sliceLast 1000 (RiskManager.tradesLog s ++ map entryOf calls).
Proof.
  induction calls as [|c calls IH]; intros s Hs; cbn [recordTrades fold_left map].
  - rewrite app_nil_r. symmetry. now apply sliceLast_short.
  - fold (recordTrades calls
            (RiskManager.recordTrade (call_now c) (call_stamp c) (call_pnl c) s)).
    rewrite IH by apply recordTrade_bounded.
    rewrite recordTrade_tradesLog, sliceLast_app_sliceLast, <- app_assoc.
    reflexivity.
Qed.

(** C7. After [recordTrade] the history holds at most 1000 entries; from a
    history of exactly 1000 entries one more call drops the oldest entry
    and appends the new one, the others keeping their order; and after
    1001 calls on an empty history the entry recorded first is gone: the
    history is that of the 1000 later calls. *)
Theorem tradesLog_keeps_last_1000 :
  (forall now stamp p s,
     (length (RiskManager.tradesLog (RiskManager.recordTrade now stamp p s))
      <= 1000)%nat)
  /\ (forall now stamp p s,
        length (RiskManager.tradesLog s) = 1000%nat ->
        RiskManager.tradesLog (RiskManager.recordTrade now stamp p s) =
        tl (RiskManager.tradesLog s) ++ [mkTradeEntry stamp p])
  /\ (forall calls s,
        RiskManager.tradesLog s = [] ->
        length calls = 1001%nat ->
        RiskManager.tradesLog (recordTrades calls s) = map entryOf (tl calls)).
Proof.
  split; [exact recordTrade_bounded|split].
  - intros now stamp p s H.
    rewrite recordTrade_tradesLog. unfold RiskManager.sliceLast.
    rewrite length_app, H. cbn [length].
    destruct (RiskManager.tradesLog s) as [|e l]; [discriminate|].
    reflexivity.
  - intros calls s Hs Hn.
    rewrite recordTrades_tradesLog by (rewrite Hs; cbn; lia).
    rewrite Hs. cbn [app]. unfold RiskManager.sliceLast.
    rewrite length_map, Hn.
    destruct calls as [|c calls]; [discriminate|].
    reflexivity.
Qed.

Lemma tradesLog_keeps_last_1000_witness :
  RiskManager.tradesLog (RiskManager.recordTrade 5 6 (Fin 7) fullManager) =
  tl (RiskManager.tradesLog fullManager) ++ [mkTradeEntry 6 (Fin 7)].
Proof.
  apply (proj1 (proj2 tradesLog_keeps_last_1000)).
  reflexivity.
Defined.

(** ** The daily window *)

Lemma updateDailyPnl_rollover now s :
  RiskManager.dayMs <= now - RiskManager.dailyPnlResetTime s ->
  RiskManager.updateDailyPnl now s =
  RiskManager.mk (RiskManager.config s) (Fin 0) now (RiskManager.tradesLog s).
Proof.
  intros H. unfold RiskManager.updateDailyPnl.
  destruct (Z.geb_spec (now - RiskManager.dailyPnlResetTime s) RiskManager.dayMs);
    [reflexivity|lia].
Qed.

Lemma updateDailyPnl_within now s :
  now - RiskManager.dailyPnlResetTime s < RiskManager.dayMs ->
  RiskManager.updateDailyPnl now s = s.
Proof.
  intros H. unfold RiskManager.updateDailyPnl.
  destruct (Z.geb_spec (now - RiskManager.dailyPnlResetTime s) RiskManager.dayMs);
    [lia|reflexivity].
Qed.

(** A [checkOpenPosition] that gets as far as the daily-loss limit leaves
    the manager as [updateDailyPnl] does. *)
Lemma checkOpenPosition_window now params positions balance s :
  consultsDailyLoss now params positions balance s = true ->
  snd (RiskManager.checkOpenPosition now params positions balance s) =
  RiskManager.updateDailyPnl now s.
Proof.
  unfold consultsDailyLoss, violates, RiskManager.checkOpenPosition.
  rewrite !whenSet_given, !if_and.
  intros H.
  apply andb_prop in H as [H H4]. apply andb_prop in H as [H H3].
  apply andb_prop in H as [H1 H2].
  apply negb_true_iff in H1, H2, H3.
  rewrite H1, H2, H3, H4.
  destruct (Num.abs _ >=? _)%num; [reflexivity|].
  destruct (_ + _ >=? _)%num.
  all: cbn beta iota; rewrite whenSet_given.
  all: destruct (Num.given (maxDrawdownPercent _)).
  all: try (destruct (_ * Num.ofZ 100 >=? Num.orElse _ _)%num; [reflexivity|]).
  all: try destruct (_ * Num.ofZ 100 >=? _ * dec 8 10)%num.
  all: cbn beta iota.
  all: destruct (_ && negb (Num.given (stopLossPercent params))); [reflexivity|].
  all: destruct (_ >? balance * dec 9 10)%num; reflexivity.
Qed.

(** Trades recorded within the window add up, in the order they come. *)
Lemma recordTrades_within calls : forall s,
  Forall (fun c => call_now c - RiskManager.dailyPnlResetTime s < RiskManager.dayMs)
    calls ->
  RiskManager.dailyPnl (recordTrades calls s) =
    fold_left Num.add (map call_pnl calls) (RiskManager.dailyPnl s)
  /\ RiskManager.dailyPnlResetTime (recordTrades calls s) =
     RiskManager.dailyPnlResetTime s.
Proof.
  induction calls as [|c calls IH]; intros s H; cbn [recordTrades fold_left map].
  - auto.
  - inversion H as [|? ? Hc Hrest]; subst.
    fold (recordTrades calls
            (RiskManager.recordTrade (call_now c) (call_stamp c) (call_pnl c) s)).
    assert (E : RiskManager.recordTrade (call_now c) (call_stamp c) (call_pnl c) s =
                RiskManager.mk (RiskManager.config s)
                  (RiskManager.dailyPnl s + call_pnl c)%num
                  (RiskManager.dailyPnlResetTime s)
                  (RiskManager.tradesLog
                     (RiskManager.recordTrade (call_now c) (call_stamp c)
                        (call_pnl c) s))).
    { unfold RiskManager.recordTrade. rewrite updateDailyPnl_within by assumption.
      reflexivity. }
    destruct (IH (RiskManager.recordTrade (call_now c) (call_stamp c) (call_pnl c) s))
      as [IH1 IH2].
    { rewrite E. cbn [RiskManager.dailyPnlResetTime]. exact Hrest. }
    rewrite IH1, IH2. rewrite E at 1 2.
    cbn [RiskManager.dailyPnl RiskManager.dailyPnlResetTime].
    auto.
Qed.

(** C8. [getDailyPnl], [getStats], [recordTrade] and a [checkOpenPosition]
    that consults the daily-loss limit all begin with [updateDailyPnl].
    Called at least 24 hours (86400000 ms) after the window started, it
    sets the daily PnL to zero and starts the window at the time of the
    call ([recordTrade] then adds its own pnl to the zero); called earlier
    it changes nothing.  While the calls stay within 24 hours of the
    window's start, [getDailyPnl] returns what the window held plus the pnl
    of every trade recorded since, added one after the other in doubles:
    after a rollover their running sum, which for ten trades of -0.1 is
    -0.9999999999999999. *)
Theorem dailyPnl_window (s : RiskManager.t) (now : Z) :
  let s' := RiskManager.updateDailyPnl now s in
  (RiskManager.getDailyPnl now s = (RiskManager.dailyPnl s', s')
   /\ (forall clock,
         snd (RiskManager.getStats now clock s) = s'
         /\ st_dailyPnl (fst (RiskManager.getStats now clock s))
            = RiskManager.dailyPnl s')
   /\ (forall stamp p,
         RiskManager.dailyPnl (RiskManager.recordTrade now stamp p s)
         = (RiskManager.dailyPnl s' + p)%num
         /\ RiskManager.dailyPnlResetTime (RiskManager.recordTrade now stamp p s)
            = RiskManager.dailyPnlResetTime s')
   /\ (forall params positions balance,
         consultsDailyLoss now params positions balance s = true ->
         snd (RiskManager.checkOpenPosition now params positions balance s) = s'))
  /\ (86400000 <= now - RiskManager.dailyPnlResetTime s ->
      RiskManager.dailyPnl s' = Fin 0 /\ RiskManager.dailyPnlResetTime s' = now)
  /\ (now - RiskManager.dailyPnlResetTime s < 86400000 -> s' = s)
  /\ (forall calls later,
        Forall (fun c => call_now c - RiskManager.dailyPnlResetTime s'
                         < 86400000) calls ->
        later - RiskManager.dailyPnlResetTime s' < 86400000 ->
        fst (RiskManager.getDailyPnl later (recordTrades calls s'))
        = fold_left Num.add (map call_pnl calls) (RiskManager.dailyPnl s'))
  /\ fst (RiskManager.getDailyPnl 2000
            (recordTrades (repeat (mkTradeCall 1000 1000 (dec (-1) 10)) 10)
               sampleManager))
     = Fin (-9007199254740991 # 9007199254740992).
Proof.
  intros s'. change 86400000 with RiskManager.dayMs.
  split; [|split; [|split; [|split]]].
  - repeat split. intros. now apply checkOpenPosition_window.
  - intros H. subst s'. rewrite updateDailyPnl_rollover by assumption.
    split; reflexivity.
  - now apply updateDailyPnl_within.
  - intros calls later Hcalls Hlater.
    destruct (recordTrades_within calls s' Hcalls) as [E1 E2].
    unfold RiskManager.getDailyPnl. cbn [fst].
    rewrite updateDailyPnl_within by (rewrite E2; assumption).
    exact E1.
  - vm_compute. reflexivity.
Qed.

(** A manager that recorded 5 in a window started at 0: at 86400000 the
    window rolls over and the daily PnL reads zero; a millisecond earlier
    nothing changes. *)
Lemma dailyPnl_window_witness :
  let s := recordTrades [mkTradeCall 1000 1000 (Fin 5)] sampleManager in
  RiskManager.dailyPnl s = Fin 5
  /\ RiskManager.dailyPnlResetTime s = 0
  /\ RiskManager.dailyPnl (RiskManager.updateDailyPnl 86400000 s) = Fin 0
  /\ RiskManager.dailyPnlResetTime (RiskManager.updateDailyPnl 86400000 s)
     = 86400000
  /\ RiskManager.updateDailyPnl 86399999 s = s.
Proof.
  intros s. split; [reflexivity|]. split; [reflexivity|].
  split; [|split].
  - apply (proj1 (proj2 (dailyPnl_window s 86400000))). vm_compute. discriminate.
  - apply (proj1 (proj2 (dailyPnl_window s 86400000))). vm_compute. discriminate.
  - apply (proj1 (proj2 (proj2 (dailyPnl_window s 86399999)))). reflexivity.
Defined.

(** ** Reconfiguration *)

Lemma validateConfig_returns c c' :
  RiskManager.validateConfig c = inr c' -> c' = c.
Proof.
  unfold RiskManager.validateConfig.
  repeat match goal with
         | |- context [if ?b then inl _ else _] => destruct b
         end; congruence.
Qed.

(** [updateConfig] either rejects the merged config and leaves the manager
    as it was, or stores the merged config. *)
Lemma updateConfig_atomic p s :
  match RiskManager.validateConfig (RiskManager.mergeConfig (RiskManager.config s) p) with
  | inl e => RiskManager.updateConfig p s = (Some e, s)
  | inr _ =>
      RiskManager.updateConfig p s =
      (None, RiskManager.mk (RiskManager.mergeConfig (RiskManager.config s) p)
               (RiskManager.dailyPnl s) (RiskManager.dailyPnlResetTime s)
               (RiskManager.tradesLog s))
  end.
Proof.
  unfold RiskManager.updateConfig.
  destruct (RiskManager.validateConfig _) as [e|c] eqn:E; [reflexivity|].
  apply validateConfig_returns in E. now subst.
Qed.

Lemma positive_not_le_zero x : positive x = true -> (x <=? Num.zero)%num = false.
Proof.
  unfold positive. destruct x; simpl; try discriminate; auto.
  unfold Num.Qlt_bool. now rewrite negb_true_iff.
Qed.

Lemma le_not_gt x y : (x <=? y)%num = true -> (x >? y)%num = false.
Proof.
  unfold Num.gt. destruct x, y; simpl; try discriminate; auto.
  unfold Num.Qlt_bool. intros ->. reflexivity.
Qed.

(** A config within the stated limits is accepted. *)
Lemma withinLimits_accepted c :
  withinLimits c = true -> RiskManager.validateConfig c = inr c.
Proof.
  unfold withinLimits, RiskManager.validateConfig. intros H.
  apply andb_prop in H as [H Hop]. apply andb_prop in H as [H Hdd].
  apply andb_prop in H as [H Hdl]. apply andb_prop in H as [H Hsz].
  apply andb_prop in H as [Hlv Hlv'].
  rewrite (positive_not_le_zero _ Hlv), (le_not_gt _ _ Hlv').
  rewrite (positive_not_le_zero _ Hsz). cbn [orb].
  destruct (maxDailyLoss c) as [v|]; cbn [optionally] in *.
  1: rewrite (positive_not_le_zero _ Hdl), andb_false_r.
  all: destruct (maxDrawdownPercent c) as [v'|]; cbn [optionally] in *.
  all: try (apply andb_prop in Hdd; destruct Hdd as [Hdd Hdd'];
            rewrite (positive_not_le_zero _ Hdd), (le_not_gt _ _ Hdd');
            cbn [orb]; rewrite andb_false_r).
  all: destruct (maxOpenPositions c) as [v''|]; cbn [optionally] in *.
  all: try rewrite (positive_not_le_zero _ Hop), andb_false_r.
  all: reflexivity.
Qed.

(** C9, as the code runs.  [updateConfig] validates the merged config and
    either rejects it, leaving the manager as it was, or stores it; a config
    within the stated limits is accepted.  But a limit of zero is not
    rejected.  [updateConfig({ maxDailyLoss: 0 })]: the merged config is
    outside the stated limits (a daily-loss limit must be positive), yet it
    replaces the stored config, and from then on no intent is denied for the
    daily loss, whatever the loss of the day. *)
Theorem updateConfig_accepts_zero_limit :
  (forall p s,
     match RiskManager.validateConfig
             (RiskManager.mergeConfig (RiskManager.config s) p) with
     | inl e => RiskManager.updateConfig p s = (Some e, s)
     | inr _ =>
         RiskManager.updateConfig p s =
         (None,
          RiskManager.mk (RiskManager.mergeConfig (RiskManager.config s) p)
            (RiskManager.dailyPnl s) (RiskManager.dailyPnlResetTime s)
            (RiskManager.tradesLog s))
     end)
  /\ (forall c, withinLimits c = true -> RiskManager.validateConfig c = inr c)
  /\ withinLimits
       (RiskManager.mergeConfig (RiskManager.config sampleManager) zeroDailyLoss)
     = false
  /\ RiskManager.updateConfig zeroDailyLoss sampleManager
     = (None,
        RiskManager.mk
          (mkRiskConfig (Fin 10) (Fin 1000) (Some (Fin 0)) None None None)
          Num.zero 0 [])
  /\ (forall now params positions balance loss t log,
        violates now params positions balance
          (RiskManager.mk
             (mkRiskConfig (Fin 10) (Fin 1000) (Some (Fin 0)) None None None)
             loss t log)
          CheckDailyLoss = false).
Proof.
  split; [exact updateConfig_atomic|].
  split; [exact withinLimits_accepted|].
  repeat split.
Qed.

(** ** The clock of the risk check *)

(** A check that does not get as far as the daily-loss limit does not
    depend on the time. *)
Lemma checkOpenPosition_without_clock now now' params positions balance s :
  RiskManager.readsClock params positions s = false ->
  RiskManager.checkOpenPosition now params positions balance s
  = RiskManager.checkOpenPosition now' params positions balance s.
Proof.
  unfold RiskManager.readsClock, RiskManager.checkOpenPosition.
  rewrite !whenSet_given, !if_and.
  destruct (Num.given (leverage params) && _); [reflexivity|].
  destruct (_ >? maxPositionSizeUsd _)%num; [reflexivity|].
  destruct (Num.given (maxOpenPositions _) && _); [reflexivity|].
  intros ->. reflexivity.
Qed.

(** The clock is read exactly when the daily-loss limit is consulted. *)
Lemma readsClock_consultsDailyLoss now params positions balance s :
  RiskManager.readsClock params positions s
  = consultsDailyLoss now params positions balance s.
Proof.
  unfold RiskManager.readsClock, consultsDailyLoss, violates.
  rewrite !whenSet_given, !if_and.
  destruct (Num.given (leverage params) && _); [reflexivity|].
  destruct (_ >? maxPositionSizeUsd _)%num; [reflexivity|].
  destruct (Num.given (maxOpenPositions _) && _); reflexivity.
Qed.

(** ** Numerals *)

(** *** Significant digits *)



Local Open Scope Q_scope.





Lemma roundHalfUp_spec y :
  y - (1#2) < inject_Z (Numeral.roundHalfUp y) /\ inject_Z (Numeral.roundHalfUp y) <= y + (1#2).
Proof.
  unfold Numeral.roundHalfUp.
  pose proof (Qfloor_le (y + (1#2))).
  pose proof (Qlt_floor (y + (1#2))) as H1.
  rewrite inject_Z_plus in H1. change (inject_Z 1) with 1 in H1.
  split; lra.
Qed.



Local Close Scope Q_scope.

(** *** Reading digits back *)

Lemma readDigits_uint (d : Decimal.uint) : forall l,
  Str.readDigits (NilEmpty.string_of_uint d) (Unsigned.of_lu l)
  = Some (Unsigned.of_lu (Decimal.revapp d l)).
Proof.
  induction d; intros l; cbn [NilEmpty.string_of_uint Str.readDigits Decimal.revapp];
    [reflexivity|..].
  all: cbn [Str.digitValue]. 
  all: match goal with
       | |- context [Str.digitValue ?c] =>
           let v := eval vm_compute in (Str.digitValue c) in
           change (Str.digitValue c) with v
       end.
  all: cbv beta iota.
  all: rewrite <- IHd; f_equal; cbn [Unsigned.of_lu]; lia.
Qed.

Lemma readDigits_ofN (n : N) : Str.readDigits (Str.ofN n) 0 = Some n.
Proof.
  unfold Str.ofN.
  change 0%N with (Unsigned.of_lu Decimal.Nil).
  rewrite readDigits_uint.
  change (Decimal.revapp (N.to_uint n) Decimal.Nil) with (Decimal.rev (N.to_uint n)).
  rewrite <- Unsigned.of_uint_alt.
  f_equal. apply DecimalN.Unsigned.of_to.
Qed.

Lemma readDigits_app (a b : string) : forall acc,
  Str.readDigits (a ++ b) acc =
  match Str.readDigits a acc with
  | Some x => Str.readDigits b x
  | None => None
  end.
Proof.
  induction a as [|c a IH]; intros acc; cbn [String.append Str.readDigits].
  - reflexivity.
  - destruct (Str.digitValue c); [apply IH|reflexivity].
Qed.

Lemma readDigits_acc (s : string) : forall acc,
  Str.readDigits s acc =
  match Str.readDigits s 0 with
  | Some v => Some (acc * 10 ^ N.of_nat (String.length s) + v)%N
  | None => None
  end.
Proof.
  induction s as [|c s IH]; intros acc; cbn [Str.readDigits String.length].
  - f_equal. cbn. lia.
  - destruct (Str.digitValue c) as [d|]; [|reflexivity].
    rewrite (IH (10 * acc + d)%N), (IH (10 * 0 + d)%N).
    destruct (Str.readDigits s 0) as [v|]; [|reflexivity].
    f_equal. rewrite Nat2N.inj_succ, N.pow_succ_r'. lia.
Qed.

Lemma readDigits_zeros (k : nat) (s : string) :
  Str.readDigits (Str.zeros k ++ s) 0 = Str.readDigits s 0.
Proof.
  induction k as [|k IH]; cbn [Str.zeros String.append Str.readDigits].
  - reflexivity.
  - exact IH.
Qed.

Lemma length_zeros k : String.length (Str.zeros k) = k.
Proof. induction k; cbn; congruence. Qed.

Lemma length_append (a b : string) :
  String.length (a ++ b) = (String.length a + String.length b)%nat.
Proof. induction a; cbn; congruence. Qed.

Lemma substring_all (s : string) : substring 0 (String.length s) s = s.
Proof. induction s as [|c s IH]; cbn; [reflexivity|now rewrite IH]. Qed.

Lemma substring_split (s : string) : forall n m,
  (n + m = String.length s)%nat ->
  (substring 0 n s ++ substring n m s)%string = s.
Proof.
  induction s as [|c s IH]; intros n m H; cbn in H.
  - assert (n = O) by lia. assert (m = O) by lia. subst. reflexivity.
  - destruct n as [|n].
    + cbn [plus] in H. subst m. cbn [substring String.append].
      now rewrite substring_all.
    + cbn [substring String.append]. f_equal. apply IH. lia.
Qed.

Lemma length_substring (s : string) : forall n m,
  (n + m <= String.length s)%nat -> String.length (substring n m s) = m.
Proof.
  induction s as [|c s IH]; intros n m H; cbn in H.
  - assert (n = O) by lia. assert (m = O) by lia. subst. reflexivity.
  - destruct n as [|n].
    + destruct m as [|m]; [reflexivity|]. cbn. f_equal. apply IH. lia.
    + cbn [substring]. apply IH. lia.
Qed.

Lemma digitValue_not_dot c d : Str.digitValue c = Some d -> Ascii.eqb c "." = false.
Proof.
  intros H. destruct (Ascii.eqb_spec c "."); [|reflexivity].
  subst. discriminate.
Qed.

Lemma digitValue_not_minus c d : Str.digitValue c = Some d -> Ascii.eqb c "-" = false.
Proof.
  intros H. destruct (Ascii.eqb_spec c "-"); [|reflexivity].
  subst. discriminate.
Qed.

Lemma splitDot_digits (a : string) : forall acc v rest,
  Str.readDigits a acc = Some v ->
  Str.splitDot (a ++ String "." rest) = (a, Some rest).
Proof.
  induction a as [|c a IH]; intros acc v rest H; cbn [String.append Str.splitDot].
  - reflexivity.
  - cbn [Str.readDigits] in H.
    destruct (Str.digitValue c) as [d|] eqn:D; [|discriminate].
    rewrite (digitValue_not_dot _ _ D), (IH _ _ _ H). reflexivity.
Qed.

Lemma splitDot_digits_only (a : string) : forall acc v,
  Str.readDigits a acc = Some v -> Str.splitDot a = (a, None).
Proof.
  induction a as [|c a IH]; intros acc v H; cbn [Str.splitDot].
  - reflexivity.
  - cbn [Str.readDigits] in H.
    destruct (Str.digitValue c) as [d|] eqn:D; [|discriminate].
    rewrite (digitValue_not_dot _ _ D), (IH _ _ H). reflexivity.
Qed.

Lemma ofN_nonempty n : Str.ofN n <> EmptyString.
Proof.
  unfold Str.ofN. destruct n as [|p]; [discriminate|].
  cbn [N.to_uint]. pose proof (Unsigned.to_uint_nonnil p) as H.
  destruct (Pos.to_uint p); [congruence|discriminate..].
Qed.

Lemma nonempty_of_length (s : string) :
  (1 <= String.length s)%nat -> exists c s', s = String c s'.
Proof. destruct s; cbn; [lia|eauto]. Qed.

Lemma pow10_pos f : (0 < Numeral.pow10 f)%Q.
Proof.
  unfold Numeral.pow10. change 0%Q with (inject_Z 0). rewrite <- Zlt_Qlt.
  apply Z.pow_pos_nonneg; lia.
Qed.

(** The numeral of [fixedDigits] denotes [n / 10^f]. *)
Lemma fixedDigits_read (n : N) (f : nat) :
  exists v, Str.readUnsigned (Numeral.fixedDigits n f) = Some v
            /\ (v == inject_Z (Z.of_N n) / Numeral.pow10 f)%Q.
Proof.
  unfold Numeral.fixedDigits.
  destruct (Nat.eqb_spec f 0) as [->|Hf].
  - unfold Str.readUnsigned.
    rewrite (splitDot_digits_only _ _ _ (readDigits_ofN n)).
    destruct (Str.ofN n) eqn:E; [now apply ofN_nonempty in E|].
    rewrite <- E, readDigits_ofN.
    eexists; split; [reflexivity|].
    unfold Numeral.pow10. cbn. field.
  - set (m := if (String.length (Str.ofN n) <=? f)%nat
              then (Str.zeros (f + 1 - String.length (Str.ofN n)) ++ Str.ofN n)%string
              else Str.ofN n).
    assert (Hm : Str.readDigits m 0 = Some n).
    { subst m. destruct (_ <=? _)%nat; [rewrite readDigits_zeros|]; apply readDigits_ofN. }
    assert (Hk : (f + 1 <= String.length m)%nat).
    { subst m. destruct (Nat.leb_spec (String.length (Str.ofN n)) f).
      - rewrite length_append, length_zeros. lia.
      - lia. }
    set (k := String.length m) in *.
    set (a := substring 0 (k - f) m).
    set (b := substring (k - f) f m).
    assert (Hab : (a ++ b)%string = m) by (apply substring_split; lia).
    assert (Hb : String.length b = f) by (apply length_substring; lia).
    assert (Ha : (1 <= String.length a)%nat).
    { subst a. rewrite length_substring; lia. }
    rewrite <- Hab, readDigits_app in Hm.
    destruct (Str.readDigits a 0) as [na|] eqn:Ra; [|discriminate].
    rewrite readDigits_acc in Hm.
    destruct (Str.readDigits b 0) as [nb|] eqn:Rb; [|discriminate].
    injection Hm as Hn.
    unfold Str.readUnsigned.
    change ("." ++ b)%string with (String "." b).
    rewrite (splitDot_digits _ _ _ _ Ra).
    clearbody a b.
    destruct a as [|c a']; [cbn in Ha; lia|].
    destruct b as [|c' b']; [cbn in Hb; lia|].
    rewrite Ra, Rb.
    eexists; split; [reflexivity|].
    rewrite Hb, <- Hn. unfold Numeral.pow10.
    rewrite N2Z.inj_add, N2Z.inj_mul, N2Z.inj_pow, nat_N_Z.
    rewrite inject_Z_plus, inject_Z_mult.
    pose proof (pow10_pos f) as P. unfold Numeral.pow10 in P.
    change (Z.of_N 10) with 10%Z.
    rewrite ?Hb.
    set (t := inject_Z (10 ^ Z.of_nat f)) in *. clearbody t.
    field. lra.
Qed.

Lemma readUnsigned_minus s' : Str.readUnsigned (String "-" s') = None.
Proof.
  unfold Str.readUnsigned. cbn [Str.splitDot].
  change (Ascii.eqb "-" ".") with false. cbv iota.
  destruct (Str.splitDot s') as [a [b|]]; cbn; [|reflexivity].
  destruct b; reflexivity.
Qed.

Lemma readDecimal_unsigned s v :
  Str.readUnsigned s = Some v -> Str.readDecimal s = Some v.
Proof.
  intros H. destruct s as [|c s']; [discriminate|].
  unfold Str.readDecimal.
  destruct (Ascii.eqb_spec c "-") as [->|]; [|exact H].
  now rewrite readUnsigned_minus in H.
Qed.

Lemma fixedUnits_nonneg a f : (0 <= a)%Q -> 0 <= Numeral.fixedUnits a f.
Proof.
  intros Ha. unfold Numeral.fixedUnits, Numeral.roundHalfUp.
  change 0 with (Qfloor 0). apply Qfloor_resp_le.
  pose proof (pow10_pos f).
  assert (0 <= a * Numeral.pow10 f)%Q by (apply Qmult_le_0_compat; lra).
  lra.
Qed.

Lemma Qlt_bool_iff a b : Num.Qlt_bool a b = true <-> (a < b)%Q.
Proof.
  unfold Num.Qlt_bool. rewrite negb_true_iff.
  split.
  - intros H. apply Qnot_le_lt. intros L. apply Qle_bool_iff in L. congruence.
  - intros H. destruct (Qle_bool b a) eqn:E; [|reflexivity].
    apply Qle_bool_iff in E. lra.
Qed.

Lemma Qle_bool_false a b : (b < a)%Q -> Qle_bool a b = false.
Proof.
  intros H. destruct (Qle_bool a b) eqn:E; [|reflexivity].
  apply Qle_bool_iff in E. lra.
Qed.

(** Below [10^21], the numeral of [toFixed] denotes the value rounded to
    [f] decimals. *)
Lemma toFixed_denotes q f :
  (Qabs q < Numeral.pow10 21)%Q ->
  exists v, Str.readDecimal (Numeral.toFixed (Fin q) f) = Some v
            /\ (v == signOf q * (inject_Z (Numeral.fixedUnits (Qabs q) f)
                                 / Numeral.pow10 f))%Q.
Proof.
  intros Hq. unfold Numeral.toFixed, signOf.
  rewrite (Qle_bool_false _ _ Hq).
  destruct (fixedDigits_read (Z.to_N (Numeral.fixedUnits (Qabs q) f)) f)
    as [v [Hv Ev]].
  rewrite Z2N.id in Ev by (apply fixedUnits_nonneg, Qabs_nonneg).
  destruct (Num.Qlt_bool q 0).
  - exists (- v)%Q. split.
    + change ("-" ++ ?s)%string with (String "-" s).
      unfold Str.readDecimal. change (Ascii.eqb "-" "-") with true. cbv iota.
      now rewrite Hv.
    + rewrite Ev. ring.
  - exists v. split.
    + apply readDecimal_unsigned. exact Hv.
    + rewrite Ev. ring.
Qed.

(** [q] has at most [f] decimals. *)
Lemma roundHalfUp_Z z : Numeral.roundHalfUp (inject_Z z) = z.
Proof.
  unfold Numeral.roundHalfUp.
  pose proof (Qfloor_le (inject_Z z + (1#2))) as H1.
  pose proof (Qlt_floor (inject_Z z + (1#2))) as H2.
  rewrite inject_Z_plus in H2. change (inject_Z 1) with 1%Q in H2.
  set (k := Qfloor (inject_Z z + (1#2))) in *. clearbody k.
  assert (A : (inject_Z k < inject_Z (z + 1))%Q).
  { rewrite inject_Z_plus. change (inject_Z 1) with 1%Q. lra. }
  assert (B : (inject_Z (z - 1) < inject_Z k)%Q).
  { unfold Z.sub. rewrite inject_Z_plus, inject_Z_opp. change (inject_Z 1) with 1%Q. lra. }
  rewrite <- Zlt_Qlt in A, B. lia.
Qed.

Lemma Qfloor_wd a b : (a == b)%Q -> Qfloor a = Qfloor b.
Proof. intros H. now rewrite H. Qed.

Lemma roundHalfUp_wd a b : (a == b)%Q -> Numeral.roundHalfUp a = Numeral.roundHalfUp b.
Proof. intros H. unfold Numeral.roundHalfUp. now rewrite H. Qed.

Lemma fixed_close_nonneg a f :
  (0 <= a)%Q ->
  let w := (inject_Z (Numeral.fixedUnits a f) / Numeral.pow10 f)%Q in
  (Qabs (w - a) <= (1#2) / Numeral.pow10 f)%Q
  /\ ((w == a)%Q <-> hasDecimals a f).
Proof.
  intros Ha w. subst w. unfold hasDecimals, Numeral.fixedUnits, Qdiv.
  pose proof (pow10_pos f) as Pt.
  set (t := Numeral.pow10 f) in *. clearbody t.
  assert (Pi : (0 < / t)%Q) by now apply Qinv_lt_0_compat.
  assert (ti : (t * / t == 1)%Q) by (apply Qmult_inv_r; lra).
  destruct (roundHalfUp_spec (a * t)) as [Lo Hi].
  set (n := Numeral.roundHalfUp (a * t)) in *.
  assert (Ea : (a == a * t * / t)%Q) by (rewrite <- Qmult_assoc, ti; ring).
  assert (L1 : ((a * t - (1#2)) * / t < inject_Z n * / t)%Q)
    by (apply Qmult_lt_compat_r; lra).
  assert (L2 : (inject_Z n * / t <= (a * t + (1#2)) * / t)%Q)
    by (apply Qmult_le_compat_r; lra).
  split.
  - apply Qabs_Qle_condition. clearbody n. split; lra.
  - split.
    + intros E. exists n.
      assert (E' : (inject_Z n * / t * t == a * t)%Q) by now rewrite E.
      rewrite <- E'. rewrite <- Qmult_assoc, (Qmult_comm (/ t)), ti. ring.
    + intros [z Hz].
      assert (n = z) by (subst n; rewrite (roundHalfUp_wd _ _ Hz); apply roundHalfUp_Z).
      subst z. rewrite <- Hz. rewrite <- Qmult_assoc, ti. ring.
Qed.

Lemma hasDecimals_wd a b f : (a == b)%Q -> hasDecimals a f <-> hasDecimals b f.
Proof.
  intros E. unfold hasDecimals.
  split; intros [z H]; exists z; [rewrite <- E|rewrite E]; exact H.
Qed.

Lemma hasDecimals_opp q f : hasDecimals (- q) f <-> hasDecimals q f.
Proof.
  unfold hasDecimals. split; intros [z H]; exists (- z)%Z;
    rewrite inject_Z_opp, <- H; ring.
Qed.

(** Rounding to [f] decimals moves a value by at most half a unit of
    [10^-f], and leaves it as it is exactly when it has at most [f]
    decimals. *)
Lemma fixed_value_close q f :
  let v := (signOf q * (inject_Z (Numeral.fixedUnits (Qabs q) f)
                        / Numeral.pow10 f))%Q in
  (Qabs (v - q) <= (1#2) / Numeral.pow10 f)%Q
  /\ ((v == q)%Q <-> hasDecimals q f).
Proof.
  intros v. subst v.
  destruct (fixed_close_nonneg (Qabs q) f (Qabs_nonneg q)) as [C X].
  set (w := (inject_Z (Numeral.fixedUnits (Qabs q) f) / Numeral.pow10 f)%Q) in *.
  clearbody w. unfold signOf.
  destruct (Num.Qlt_bool q 0) eqn:S.
  - apply Qlt_bool_iff in S.
    assert (Ea : (Qabs q == - q)%Q) by (apply Qabs_neg; lra).
    split.
    + assert (E : (- (1) * w - q == - (w - Qabs q))%Q) by (rewrite Ea; ring).
      rewrite E, Qabs_opp. exact C.
    + rewrite <- hasDecimals_opp, <- (hasDecimals_wd _ _ f Ea), <- X.
      split; intros H.
      * rewrite Ea, <- H. ring.
      * rewrite H, Ea. ring.
  - assert (S' : (0 <= q)%Q).
    { destruct (Qlt_le_dec q 0) as [L|L]; [|exact L].
      apply Qlt_bool_iff in L. congruence. }
    assert (Ea : (Qabs q == q)%Q) by (apply Qabs_pos; lra).
    split.
    + assert (E : (1 * w - q == w - Qabs q)%Q) by (rewrite Ea; ring).
      rewrite E. exact C.
    + rewrite <- (hasDecimals_wd _ _ f Ea), <- X.
      split; intros H.
      * rewrite Ea, <- H. ring.
      * rewrite H, Ea. ring.
Qed.

(** ** Rounding to binary64 *)

Local Open Scope Q_scope.

Lemma pow2_pos (e : Z) : 0 < Qpower 2 e.
Proof. apply Qpower_0_lt. reflexivity. Qed.

Lemma pow2_plus (a b : Z) : Qpower 2 (a + b) == Qpower 2 a * Qpower 2 b.
Proof. apply Qpower_plus. discriminate. Qed.

Lemma pow2_minus (a b : Z) : Qpower 2 (a - b) == Qpower 2 a / Qpower 2 b.
Proof.
  unfold Z.sub. rewrite pow2_plus, Qpower_opp. reflexivity.
Qed.

Lemma pow2_inject (a : Z) : (0 <= a)%Z -> Qpower 2 a == inject_Z (2 ^ a).
Proof. intros H. now rewrite (Zpower_Qpower 2 a H). Qed.

Lemma pow2_le (a b : Z) : (a <= b)%Z -> Qpower 2 a <= Qpower 2 b.
Proof.
  intros H. replace b with (a + (b - a))%Z by lia.
  rewrite pow2_plus, (pow2_inject (b - a)) by lia.
  pose proof (pow2_pos a) as Pa.
  assert (1 <= inject_Z (2 ^ (b - a))).
  { change 1 with (inject_Z 1). rewrite <- Zle_Qle.
    assert (0 < 2 ^ (b - a))%Z by (apply Z.pow_pos_nonneg; lia). lia. }
  nra.
Qed.

(** [exponentOf q] is the exponent of the power of two at or below [|q|]. *)
Lemma exponentOf_spec (q : Q) :
  ~ q == 0 ->
  Qpower 2 (Num.exponentOf q) <= Qabs q
  /\ Qabs q < Qpower 2 (Num.exponentOf q + 1).
Proof.
  intros Hq. unfold Num.exponentOf.
  destruct q as [n d]. cbn [Qnum Qden].
  assert (Hn : (0 < Z.abs n)%Z).
  { assert (n <> 0)%Z by (intros ->; apply Hq; reflexivity). lia. }
  set (a := Z.log2 (Z.abs n)). set (b := Z.log2 (Zpos d)).
  destruct (Z.log2_spec (Z.abs n) Hn) as [A1 A2]. fold a in A1, A2.
  destruct (Z.log2_spec (Zpos d) ltac:(lia)) as [B1 B2]. fold b in B1, B2.
  assert (Ha : (0 <= a)%Z) by apply Z.log2_nonneg.
  assert (Hb : (0 <= b)%Z) by apply Z.log2_nonneg.
  assert (Abs : Qabs (n # d) == inject_Z (Z.abs n) / inject_Z (Zpos d)).
  { unfold Qabs. cbn. rewrite (Qmake_Qdiv (Z.abs n) d). reflexivity. }
  assert (Pd : 0 < inject_Z (Zpos d)) by reflexivity.
  pose proof (pow2_pos b) as Pb. pose proof (pow2_pos a) as Pa.
  assert (Qa1 : Qpower 2 a <= inject_Z (Z.abs n))
    by (rewrite pow2_inject by lia; now rewrite <- Zle_Qle).
  assert (Qa2 : inject_Z (Z.abs n) < Qpower 2 (a + 1)).
  { rewrite pow2_inject by lia. rewrite <- Zlt_Qlt.
    now replace (a + 1)%Z with (Z.succ a) by lia. }
  assert (Qb1 : Qpower 2 b <= inject_Z (Zpos d))
    by (rewrite pow2_inject by lia; now rewrite <- Zle_Qle).
  assert (Qb2 : inject_Z (Zpos d) < Qpower 2 (b + 1)).
  { rewrite pow2_inject by lia. rewrite <- Zlt_Qlt.
    now replace (b + 1)%Z with (Z.succ b) by lia. }
  destruct (Qle_bool (Qpower 2 (a - b)) (Qabs (n # d))) eqn:C.
  - apply Qle_bool_iff in C. split; [exact C|].
    rewrite Abs. apply Qlt_shift_div_r; [exact Pd|].
    replace (a - b + 1)%Z with ((a + 1) - b)%Z by lia.
    rewrite pow2_minus.
    assert (E : Qpower 2 (a + 1) / Qpower 2 b * inject_Z (Zpos d)
                == Qpower 2 (a + 1) * (inject_Z (Zpos d) / Qpower 2 b))
      by (field; lra).
    rewrite E.
    assert (1 <= inject_Z (Zpos d) / Qpower 2 b).
    { apply Qle_shift_div_l; [exact Pb|]. lra. }
    pose proof (pow2_pos (a + 1)). nra.
  - assert (C' : Qabs (n # d) < Qpower 2 (a - b)).
    { apply Qnot_le_lt. intros H. apply Qle_bool_iff in H. congruence. }
    replace (a - b - 1 + 1)%Z with (a - b)%Z by lia.
    split; [|exact C'].
    rewrite Abs. apply Qle_shift_div_l; [exact Pd|].
    replace (a - b - 1)%Z with (a - (b + 1))%Z by lia.
    rewrite pow2_minus.
    assert (E : Qpower 2 a / Qpower 2 (b + 1) * inject_Z (Zpos d)
                == Qpower 2 a * (inject_Z (Zpos d) / Qpower 2 (b + 1)))
      by (field; pose proof (pow2_pos (b + 1)); lra).
    rewrite E.
    assert (inject_Z (Zpos d) / Qpower 2 (b + 1) <= 1).
    { apply Qle_shift_div_r; [apply pow2_pos|]. lra. }
    nra.
Qed.

Lemma roundEven_Z (x : Q) (z : Z) : x == inject_Z z -> Num.roundEven x = z.
Proof.
  intros E. unfold Num.roundEven.
  assert (F : Qfloor x = z) by (rewrite (Qfloor_wd _ _ E); apply Qfloor_Z).
  rewrite F.
  destruct (Qcompare_spec (x - inject_Z z) (1 # 2)) as [H|H|H];
    [exfalso|reflexivity|exfalso]; rewrite E in H; revert H;
    (assert (Z0 : inject_Z z - inject_Z z == 0) by ring); rewrite Z0;
    [intros H; discriminate H|intros H; discriminate H].
Qed.

Lemma roundEven_near (x : Q) :
  inject_Z (Num.roundEven x) - (1 # 2) <= x
  /\ x <= inject_Z (Num.roundEven x) + (1 # 2).
Proof.
  unfold Num.roundEven.
  pose proof (Qfloor_le x) as Lo. pose proof (Qlt_floor x) as Hi.
  rewrite inject_Z_plus in Hi. change (inject_Z 1) with 1 in Hi.
  destruct (Qcompare_spec (x - inject_Z (Qfloor x)) (1 # 2)) as [H|H|H].
  - destruct (Z.even (Qfloor x)).
    + split; lra.
    + rewrite inject_Z_plus. change (inject_Z 1) with 1. split; lra.
  - split; lra.
  - rewrite inject_Z_plus. change (inject_Z 1) with 1. split; lra.
Qed.

Lemma roundEven_mono (x y : Q) : x <= y -> (Num.roundEven x <= Num.roundEven y)%Z.
Proof.
  intros H.
  assert (F : (Qfloor x <= Qfloor y)%Z) by now apply Qfloor_resp_le.
  pose proof (Qfloor_le x) as Lx. pose proof (Qlt_floor x) as Hx.
  pose proof (Qfloor_le y) as Ly. pose proof (Qlt_floor y) as Hy.
  rewrite inject_Z_plus in Hx, Hy. change (inject_Z 1) with 1 in Hx, Hy.
  unfold Num.roundEven.
  destruct (Z.eq_dec (Qfloor x) (Qfloor y)) as [E|N].
  - rewrite <- E in *.
    destruct (Qcompare_spec (x - inject_Z (Qfloor x)) (1 # 2)) as [A|A|A];
      destruct (Qcompare_spec (y - inject_Z (Qfloor x)) (1 # 2)) as [B|B|B];
      try destruct (Z.even (Qfloor x)); try lia; exfalso; lra.
  - assert (Qfloor x + 1 <= Qfloor y)%Z by lia.
    destruct (Qcompare (x - inject_Z (Qfloor x)) (1 # 2));
      destruct (Qcompare (y - inject_Z (Qfloor y)) (1 # 2));
      try destruct (Z.even (Qfloor x)); try destruct (Z.even (Qfloor y)); lia.
Qed.

Lemma roundEven_le_Z (x : Q) (z : Z) : x <= inject_Z z -> (Num.roundEven x <= z)%Z.
Proof.
  intros H. rewrite <- (roundEven_Z (inject_Z z) z) by reflexivity.
  now apply roundEven_mono.
Qed.

Lemma roundEven_ge_Z (x : Q) (z : Z) : inject_Z z <= x -> (z <= Num.roundEven x)%Z.
Proof.
  intros H. rewrite <- (roundEven_Z (inject_Z z) z) at 1 by reflexivity.
  now apply roundEven_mono.
Qed.

(** What [round64] makes of a [q] other than 0. *)
Lemma round64_unfold (q : Q) :
  ~ q == 0 ->
  Num.round64 q
  = let r := inject_Z (Num.roundEven (q / Qpower 2 (Num.ulpExponent q)))
             * Qpower 2 (Num.ulpExponent q) in
    if Qle_bool (Qpower 2 1024) (Qabs r) then Num.inf_of_sign (Num.Qsign q)
    else Fin (Qred r).
Proof.
  intros H. unfold Num.round64.
  destruct (Qeq_bool q 0) eqn:E; [|reflexivity].
  apply Qeq_bool_eq in E. contradiction.
Qed.

Lemma round64_zero (q : Q) : q == 0 -> Num.round64 q = Fin 0.
Proof.
  intros H. unfold Num.round64.
  apply Qeq_eq_bool in H. now rewrite H.
Qed.

Lemma Qsign_pos (q : Q) : 0 < q -> Num.inf_of_sign (Num.Qsign q) = PosInf.
Proof.
  intros H. destruct q as [[|n|n] d]; [discriminate H|reflexivity|discriminate H].
Qed.

Lemma Qsign_neg (q : Q) : q < 0 -> Num.inf_of_sign (Num.Qsign q) = NegInf.
Proof.
  intros H. destruct q as [[|n|n] d]; [discriminate H|discriminate H|reflexivity].
Qed.

(** The spacing of the doubles below [2^53] is at most 1. *)
Lemma ulpExponent_small (q : Q) :
  ~ q == 0 -> Qabs q < Qpower 2 53 -> (Num.ulpExponent q <= 0)%Z.
Proof.
  intros Hq H. unfold Num.ulpExponent.
  destruct (exponentOf_spec q Hq) as [Lo _].
  assert (Num.exponentOf q < 53)%Z.
  { apply Z.lt_nge. intros C. apply pow2_le in C. lra. }
  lia.
Qed.

Lemma ulpExponent_exponent (q : Q) :
  (Num.ulpExponent q <= Num.exponentOf q)%Z \/ (Num.exponentOf q < -1074)%Z.
Proof. unfold Num.ulpExponent. lia. Qed.

(** The rounded value of a positive [q], before the test for overflow:
    not negative, and on the side of [q] of every multiple of the spacing
    around [q]. *)
Lemma rounded_bounds (q : Q) :
  0 < q ->
  let u := Num.ulpExponent q in
  let r := inject_Z (Num.roundEven (q / Qpower 2 u)) * Qpower 2 u in
  0 <= r
  /\ (forall z, q <= inject_Z z * Qpower 2 u -> r <= inject_Z z * Qpower 2 u)
  /\ (forall z, inject_Z z * Qpower 2 u <= q -> inject_Z z * Qpower 2 u <= r).
Proof.
  intros Hq u r. pose proof (pow2_pos u) as Pu.
  assert (D : forall z, inject_Z z * Qpower 2 u <= q
                        -> inject_Z z <= q / Qpower 2 u).
  { intros z H. apply Qle_shift_div_l; assumption. }
  assert (U : forall z, q <= inject_Z z * Qpower 2 u
                        -> q / Qpower 2 u <= inject_Z z).
  { intros z H. apply Qle_shift_div_r; assumption. }
  split; [|split].
  - assert (M0 : (0 <= Num.roundEven (q / Qpower 2 u))%Z).
    { apply roundEven_ge_Z, D. change (inject_Z 0) with 0. lra. }
    apply Qmult_le_0_compat; [|lra].
    change 0 with (inject_Z 0). now rewrite <- Zle_Qle.
  - intros z H. apply Qmult_le_compat_r; [|lra].
    rewrite <- Zle_Qle. now apply roundEven_le_Z, U.
  - intros z H. apply Qmult_le_compat_r; [|lra].
    rewrite <- Zle_Qle. now apply roundEven_ge_Z, D.
Qed.

(** The double nearest to a [q] that is not negative is not negative. *)
Lemma round64_nonneg (q : Q) :
  0 <= q -> (Num.round64 q <? Num.zero)%num = false.
Proof.
  intros H. destruct (Qeq_dec q 0) as [Z|N].
  - now rewrite round64_zero.
  - assert (Hq : 0 < q) by (apply Qle_lteq in H; destruct H as [H|H];
                            [exact H|exfalso; apply N; now symmetry]).
    rewrite round64_unfold by exact N. cbv zeta.
    destruct (rounded_bounds q Hq) as [R0 _]. cbv zeta in R0.
    destruct (Qle_bool _ _); [now rewrite Qsign_pos|].
    unfold Num.lt, Num.zero, Num.Qlt_bool. apply negb_false_iff, Qle_bool_iff.
    now rewrite Qred_correct.
Qed.

(** Rounding keeps a positive [q] at or below a whole number under [2^53]
    that it is at or below. *)
Lemma round64_le_int (q : Q) (n : Z) :
  (n < 2 ^ 53)%Z -> q <= inject_Z n -> 0 <= inject_Z n ->
  (Num.round64 q <=? Num.ofZ n)%num = true.
Proof.
  intros Hn H Hn0. unfold Num.ofZ.
  assert (B : inject_Z n < Qpower 2 53).
  { rewrite pow2_inject by lia. now rewrite <- Zlt_Qlt. }
  destruct (Qlt_le_dec 0 q) as [Hq|Hq].
  - assert (N : ~ q == 0) by lra.
    rewrite round64_unfold by exact N. cbv zeta.
    destruct (rounded_bounds q Hq) as [R0 [Rle _]]. cbv zeta in R0, Rle.
    set (u := Num.ulpExponent q) in *.
    assert (Hu : (u <= 0)%Z).
    { apply ulpExponent_small; [exact N|]. rewrite Qabs_pos by lra. lra. }
    assert (Mul : inject_Z n == inject_Z (n * 2 ^ (- u)) * Qpower 2 u).
    { rewrite inject_Z_mult, <- pow2_inject by lia.
      rewrite <- Qmult_assoc, <- pow2_plus.
      replace (- u + u)%Z with 0%Z by lia. change (Qpower 2 0) with 1. ring. }
    specialize (Rle (n * 2 ^ (- u))%Z). rewrite <- Mul in Rle.
    specialize (Rle H).
    set (r := inject_Z (Num.roundEven (q / Qpower 2 u)) * Qpower 2 u) in *.
    assert (O : Qle_bool (Qpower 2 1024) (Qabs r) = false).
    { apply Qle_bool_false. rewrite Qabs_pos by exact R0.
      assert (Qpower 2 53 <= Qpower 2 1024) by (apply pow2_le; lia). lra. }
    rewrite O. unfold Num.le. apply Qle_bool_iff. now rewrite Qred_correct.
  - destruct (Qeq_dec q 0) as [Z|N].
    + rewrite round64_zero by exact Z. unfold Num.le. now apply Qle_bool_iff.
    + assert (Hq' : q < 0).
      { apply Qle_lteq in Hq. destruct Hq as [Hq|Hq]; [exact Hq|contradiction]. }
      rewrite round64_unfold by exact N. cbv zeta.
      set (r := inject_Z _ * _).
      assert (R : r <= 0).
      { subst r. pose proof (pow2_pos (Num.ulpExponent q)) as Pu.
        assert (M : (Num.roundEven (q / Qpower 2 (Num.ulpExponent q)) <= 0)%Z).
        { apply roundEven_le_Z. change (inject_Z 0) with 0.
          apply Qle_shift_div_r; [exact Pu|]. lra. }
        rewrite Zle_Qle in M. change (inject_Z 0) with 0 in M. nra. }
      destruct (Qle_bool _ _); [now rewrite Qsign_neg|].
      unfold Num.le. apply Qle_bool_iff. rewrite Qred_correct. lra.
Qed.

(** Rounding keeps a [q] at or above a whole number, from 0 to [2^53],
    that it is at or above. *)
Lemma round64_ge_int (q : Q) (n : Z) :
  (0 <= n < 2 ^ 53)%Z -> inject_Z n <= q ->
  (Num.ofZ n <=? Num.round64 q)%num = true.
Proof.
  intros [Hn0 Hn] H. unfold Num.ofZ.
  assert (N0 : 0 <= inject_Z n)
    by (change 0 with (inject_Z 0); now rewrite <- Zle_Qle).
  destruct (Qeq_dec q 0) as [Z|N].
  - rewrite round64_zero by exact Z. unfold Num.le. apply Qle_bool_iff. lra.
  - assert (Hq : 0 < q).
    { assert (0 <= q) by lra. apply Qle_lteq in H0.
      destruct H0 as [H0|H0]; [exact H0|exfalso; apply N; now symmetry]. }
    rewrite round64_unfold by exact N. cbv zeta.
    destruct (rounded_bounds q Hq) as [R0 [_ Rge]]. cbv zeta in R0, Rge.
    set (u := Num.ulpExponent q) in *.
    set (r := inject_Z (Num.roundEven (q / Qpower 2 u)) * Qpower 2 u) in *.
    assert (G : inject_Z n <= r).
    { destruct (Qlt_le_dec q (Qpower 2 53)) as [S|S].
      - assert (Hu : (u <= 0)%Z).
        { apply ulpExponent_small; [exact N|]. now rewrite Qabs_pos by lra. }
        assert (Mul : inject_Z n == inject_Z (n * 2 ^ (- u)) * Qpower 2 u).
        { rewrite inject_Z_mult, <- pow2_inject by lia.
          rewrite <- Qmult_assoc, <- pow2_plus.
          replace (- u + u)%Z with 0%Z by lia. change (Qpower 2 0) with 1. ring. }
        rewrite Mul. apply Rge. now rewrite <- Mul.
      - destruct (exponentOf_spec q N) as [Lo Hi].
        rewrite Qabs_pos in Lo, Hi by lra.
        assert (E53 : (53 <= Num.exponentOf q)%Z).
        { apply Z.le_ngt. intros C.
          assert (Num.exponentOf q + 1 <= 53)%Z by lia.
          apply pow2_le in H0. lra. }
        assert (Hu : u = (Num.exponentOf q - 52)%Z) by (subst u; unfold Num.ulpExponent; lia).
        assert (Mul : Qpower 2 (Num.exponentOf q)
                      == inject_Z (2 ^ 52) * Qpower 2 u).
        { rewrite <- pow2_inject by lia. rewrite <- pow2_plus, Hu.
          now replace (52 + (Num.exponentOf q - 52))%Z with (Num.exponentOf q) by lia. }
        specialize (Rge (2 ^ 52)%Z). rewrite <- Mul in Rge. specialize (Rge Lo).
        assert (inject_Z n < Qpower 2 53).
        { rewrite pow2_inject by lia. now rewrite <- Zlt_Qlt. }
        assert (Qpower 2 53 <= Qpower 2 (Num.exponentOf q)) by now apply pow2_le.
        lra. }
    destruct (Qle_bool _ _); [now rewrite Qsign_pos|].
    unfold Num.le. apply Qle_bool_iff. now rewrite Qred_correct.
Qed.

(** A whole number under [2^53] in absolute value is a double. *)
Lemma round64_int (q : Q) (n : Z) :
  (Z.abs n < 2 ^ 53)%Z -> q == inject_Z n -> Num.round64 q = Num.ofZ n.
Proof.
  intros Hn E. unfold Num.ofZ.
  destruct (Z.eq_dec n 0) as [->|N0]; [now apply round64_zero|].
  assert (N : ~ q == 0).
  { rewrite E. intros C. apply N0. unfold Qeq in C. cbn in C. lia. }
  rewrite round64_unfold by exact N. cbv zeta.
  set (u := Num.ulpExponent q).
  assert (A : Qabs q == inject_Z (Z.abs n)).
  { rewrite E. unfold Qabs, inject_Z. reflexivity. }
  assert (Hu : (u <= 0)%Z).
  { apply ulpExponent_small; [exact N|]. rewrite A.
    rewrite pow2_inject by lia. now rewrite <- Zlt_Qlt. }
  pose proof (pow2_pos u) as Pu.
  assert (M : Num.roundEven (q / Qpower 2 u) = (n * 2 ^ (- u))%Z).
  { apply roundEven_Z. rewrite E, inject_Z_mult, <- pow2_inject by lia.
    replace (- u)%Z with (0 - u)%Z by lia. rewrite pow2_minus.
    change (Qpower 2 0) with 1. field. lra. }
  rewrite M.
  assert (R : inject_Z (n * 2 ^ (- u)) * Qpower 2 u == inject_Z n).
  { rewrite inject_Z_mult, <- pow2_inject by lia.
    rewrite <- Qmult_assoc, <- pow2_plus.
    replace (- u + u)%Z with 0%Z by lia. change (Qpower 2 0) with 1. ring. }
  rewrite (Qle_bool_false (Qpower 2 1024)).
  2:{ rewrite R. assert (Q : Qabs (inject_Z n) == inject_Z (Z.abs n)) by reflexivity.
      rewrite Q.
      assert (inject_Z (Z.abs n) < Qpower 2 53).
      { rewrite pow2_inject by lia. now rewrite <- Zlt_Qlt. }
      assert (Qpower 2 53 <= Qpower 2 1024) by (apply pow2_le; lia). lra. }
  f_equal. rewrite (Qred_complete _ _ R).
  apply Qcanon.Qred_identity. cbn. apply Z.gcd_1_r.
Qed.

Local Close Scope Q_scope.

Local Open Scope Q_scope.

(** The doubles reach down to [2^-1074]: what is at least that much is
    not rounded to 0. *)
Lemma round64_pos (q : Q) :
  Qpower 2 (-1074) <= q -> (Num.round64 q <=? Num.zero)%num = false.
Proof.
  intros H. pose proof (pow2_pos (-1074)) as P0.
  assert (Hq : 0 < q) by lra. assert (N : ~ q == 0) by lra.
  rewrite round64_unfold by exact N. cbv zeta.
  destruct (rounded_bounds q Hq) as [_ [_ Rge]]. cbv zeta in Rge.
  set (u := Num.ulpExponent q) in *. pose proof (pow2_pos u) as Pu.
  assert (U : Qpower 2 u <= q).
  { subst u. unfold Num.ulpExponent.
    destruct (Z.max_spec (Num.exponentOf q - 52) (-1074)) as [[_ ->]|[_ ->]];
      [exact H|].
    destruct (exponentOf_spec q N) as [Lo _]. rewrite Qabs_pos in Lo by lra.
    assert (Qpower 2 (Num.exponentOf q - 52) <= Qpower 2 (Num.exponentOf q))
      by (apply pow2_le; lia).
    lra. }
  specialize (Rge 1%Z). change (inject_Z 1) with 1 in Rge.
  rewrite Qmult_1_l in Rge. specialize (Rge U).
  destruct (Qle_bool _ _); [now rewrite Qsign_pos|].
  unfold Num.le, Num.zero. apply Qle_bool_false. rewrite Qred_correct. lra.
Qed.

(** What is at most the largest double under 1 is rounded to a double
    under 1. *)
Lemma round64_below_one (q : Q) :
  0 <= q -> q <= 1 - Qpower 2 (-53) ->
  exists x, Num.round64 q = Fin x /\ 0 <= x /\ x < 1.
Proof.
  intros H0 H. pose proof (pow2_pos (-53)) as P53.
  destruct (Qeq_dec q 0) as [Z|N].
  { exists 0. rewrite round64_zero by exact Z. repeat split; lra. }
  assert (Hq : 0 < q).
  { apply Qle_lteq in H0. destruct H0 as [H0|H0];
      [exact H0|exfalso; apply N; now symmetry]. }
  rewrite round64_unfold by exact N. cbv zeta.
  destruct (rounded_bounds q Hq) as [R0 [Rle _]]. cbv zeta in R0, Rle.
  set (u := Num.ulpExponent q) in *. pose proof (pow2_pos u) as Pu.
  assert (Hu : (u <= -53)%Z).
  { destruct (exponentOf_spec q N) as [Lo _]. rewrite Qabs_pos in Lo by lra.
    assert (Num.exponentOf q < 0)%Z.
    { apply Z.lt_nge. intros C. apply pow2_le in C.
      change (Qpower 2 0) with 1 in C. lra. }
    subst u. unfold Num.ulpExponent. lia. }
  assert (Mul : 1 - Qpower 2 (-53)
                == inject_Z ((2 ^ 53 - 1) * 2 ^ (-53 - u)) * Qpower 2 u).
  { rewrite inject_Z_mult, <- (pow2_inject (-53 - u)) by lia.
    rewrite <- Qmult_assoc, <- pow2_plus.
    replace (-53 - u + u)%Z with (-53)%Z by lia.
    unfold Z.sub at 1. rewrite inject_Z_plus, <- (pow2_inject 53) by lia.
    assert (E : Qpower 2 53 * Qpower 2 (-53) == 1) by reflexivity.
    change (inject_Z (- (1))) with (- (1)). 
    assert (E2 : (Qpower 2 53 + - (1)) * Qpower 2 (-53)
                 == Qpower 2 53 * Qpower 2 (-53) - Qpower 2 (-53)) by ring.
    rewrite E2, E. reflexivity. }
  specialize (Rle ((2 ^ 53 - 1) * 2 ^ (-53 - u))%Z). rewrite <- Mul in Rle.
  specialize (Rle H).
  set (r := inject_Z (Num.roundEven (q / Qpower 2 u)) * Qpower 2 u) in *.
  rewrite (Qle_bool_false (Qpower 2 1024)).
  2:{ rewrite Qabs_pos by exact R0.
      assert (1 <= Qpower 2 1024) by (change 1 with (Qpower 2 0); apply pow2_le; lia).
      lra. }
  exists (Qred r). split; [reflexivity|]. rewrite Qred_correct. split; lra.
Qed.

Local Close Scope Q_scope.

(** [10 ** decimals] is the power itself up to 15 decimals. *)
Lemma tenToThe_exact (decimals : nat) :
  (decimals <= 15)%nat -> tenToThe decimals = Num.ofZ (10 ^ Z.of_nat decimals).
Proof.
  intros H. unfold tenToThe. apply round64_int; [|reflexivity].
  assert (0 < 10 ^ Z.of_nat decimals)%Z by (apply Z.pow_pos_nonneg; lia).
  assert (10 ^ Z.of_nat decimals <= 10 ^ 15)%Z by (apply Z.pow_le_mono_r; lia).
  assert (10 ^ 15 < 2 ^ 53)%Z by reflexivity.
  lia.
Qed.

(** ** The toolkit *)

Section Keeps.

Variable env : Env.
Variable I : World -> Prop.
(** The events that may happen and the toolkits that may be stored. *)
Variable E : Event -> Prop.
Variable G : Toolkit -> Prop.
(** The default slippage of the toolkit. *)
Variable dflt : number.

Hypothesis I_tick : forall w, I w -> I (tick w).
Hypothesis I_record : forall e w, E e -> I w -> I (record e w).
Hypothesis I_store : forall tk w, G tk -> I w -> I (withToolkit tk w).
Hypothesis I_toolkit : forall w, I w -> G (toolkit w).
Hypothesis G_slippage : forall tk, G tk -> defaultSlippage tk = dflt.

Lemma keeps_ret {A} (x : A) (R : A -> Prop) : R x -> keeps env I (ret x) R.
Proof. intros H w Hw. cbn. auto. Qed.

Lemma keeps_throw {A} (msg : string) (R : A -> Prop) :
  keeps env I (throw msg) R.
Proof. intros w Hw. cbn. auto. Qed.

Lemma keeps_lift {A} (o : Outcome A) (R : A -> Prop) :
  (forall x, o = Returned x -> R x) -> keeps env I (lift o) R.
Proof. intros H w Hw. cbn. split; [assumption|]. destruct o; auto. Qed.

Lemma keeps_bind {A B} (m : M A) (k : A -> M B) (R : A -> Prop) (S : B -> Prop) :
  keeps env I m R -> (forall x, R x -> keeps env I (k x) S) ->
  keeps env I (bind m k) S.
Proof.
  intros Hm Hk w Hw. unfold bind.
  destruct (Hm w Hw) as [H1 H2].
  destruct (m env w) as [[x|msg] w']; cbn in *.
  - exact (Hk x H2 w' H1).
  - auto.
Qed.

Lemma keeps_tryCatch {A} (body : M A) (handler : string -> M A) (R : A -> Prop) :
  keeps env I body R -> (forall msg, keeps env I (handler msg) R) ->
  keeps env I (tryCatch body handler) R.
Proof.
  intros Hb Hh w Hw. unfold tryCatch.
  destruct (Hb w Hw) as [H1 H2].
  destruct (body env w) as [[x|msg] w']; cbn in *.
  - auto.
  - exact (Hh msg w' H1).
Qed.

Lemma keeps_weaken {A} (m : M A) (R S : A -> Prop) :
  keeps env I m R -> (forall x, R x -> S x) -> keeps env I m S.
Proof.
  intros Hm HS w Hw. destruct (Hm w Hw) as [H1 H2]. split; [assumption|].
  destruct (fst (m env w)); auto.
Qed.

Lemma keeps_dateNow : keeps env I dateNow (fun _ => True).
Proof. intros w Hw. cbn. split; [now apply I_tick|exact Logic.I]. Qed.

Lemma keeps_emit (e : Event) : E e -> keeps env I (emit e) (fun _ => True).
Proof. intros He w Hw. cbn. split; [now apply I_record|exact Logic.I]. Qed.

Lemma keeps_getToolkit : keeps env I getToolkit G.
Proof. intros w Hw. cbn. auto. Qed.

Lemma keeps_setToolkit (tk : Toolkit) :
  G tk -> keeps env I (setToolkit tk) (fun _ => True).
Proof. intros Htk w Hw. cbn. split; [now apply I_store|exact Logic.I]. Qed.

Lemma keeps_request {A} (rq : Request)
    (answer : Exchange -> list Event -> Reply A) :
  E (Sent rq) ->
  keeps env I (request rq answer)
    (fun x => exists h, answer (exchange env) h = Resolved x).
Proof.
  intros He w Hw. unfold request.
  destruct (answer (exchange env) (history w)) eqn:Ans; cbn.
  - split; [now apply (I_record (Sent rq))|eauto].
  - split; [now apply (I_record (Sent rq))|exact Logic.I].
Qed.

Lemma keeps_succeed {A} (x : A) :
  keeps env I (succeed x) (fun r => success r = true /\ error r = None).
Proof.
  unfold succeed. eapply keeps_bind; [apply keeps_dateNow|].
  intros t _. apply keeps_ret. auto.
Qed.

Lemma keeps_succeed_data {A} (x : A) :
  keeps env I (succeed x)
    (fun r => success r = true /\ data r = Some x /\ error r = None).
Proof.
  unfold succeed. eapply keeps_bind; [apply keeps_dateNow|].
  intros t _. apply keeps_ret. auto.
Qed.

Lemma keeps_fail {A} (e : ActionError) :
  keeps env I (@fail A e) (fun r => success r = false /\ error r = Some e).
Proof.
  unfold fail. eapply keeps_bind; [apply keeps_dateNow|].
  intros t _. apply keeps_ret. auto.
Qed.

Hypothesis E_query : forall rq, isQuery rq -> E (Sent rq).
Hypothesis E_console : forall l, E (Console l).
Hypothesis G_assetMap : forall tk m,
  G tk -> G (mkToolkit (address tk) (riskManager tk) (defaultSlippage tk)
               (Some m) (spotAssetMap tk)).
Hypothesis G_spotAssetMap : forall tk m,
  G tk -> G (mkToolkit (address tk) (riskManager tk) (defaultSlippage tk)
               (assetMap tk) (Some m)).

Lemma keeps_getPositions : keeps env I getPositions (fun _ => True).
Proof.
  unfold getPositions. apply keeps_tryCatch.
  - eapply keeps_bind; [apply keeps_getToolkit|]. intros tk _.
    eapply keeps_bind; [apply keeps_request, E_query, Logic.I|]. intros st _.
    eapply keeps_bind; [apply keeps_request, E_query, Logic.I|]. intros mids _.
    eapply keeps_weaken; [apply keeps_succeed|]. auto.
  - intros msg. eapply keeps_weaken; [apply keeps_fail|]. auto.
Qed.

Lemma keeps_getBalance : keeps env I getBalance (fun _ => True).
Proof.
  unfold getBalance. apply keeps_tryCatch.
  - eapply keeps_bind; [apply keeps_getToolkit|]. intros tk _.
    eapply keeps_bind; [apply keeps_request, E_query, Logic.I|]. intros st _.
    eapply keeps_weaken; [apply keeps_succeed|]. auto.
  - intros msg. eapply keeps_weaken; [apply keeps_fail|]. auto.
Qed.

Lemma keeps_getAssetIndex coin mkt :
  keeps env I (getAssetIndex coin mkt) (fun _ => True).
Proof.
  unfold getAssetIndex.
  destruct (String.eqb mkt "spot"); [|destruct (String.eqb mkt "perp")].
  - eapply keeps_bind; [apply keeps_getToolkit|]. intros tk Htk.
    eapply keeps_bind with (R := fun _ => True).
    + destruct (spotAssetMap tk).
      * now apply keeps_ret.
      * eapply keeps_bind; [apply keeps_request, E_query, Logic.I|]. intros sm _.
        eapply keeps_bind; [apply keeps_setToolkit, G_spotAssetMap, Htk|].
        intros _ _. now apply keeps_ret.
    + intros m _. destruct (Dict.get _ m); [now apply keeps_ret|apply keeps_throw].
  - eapply keeps_bind; [apply keeps_getToolkit|]. intros tk Htk.
    eapply keeps_bind with (R := fun _ => True).
    + destruct (assetMap tk).
      * now apply keeps_ret.
      * eapply keeps_bind; [apply keeps_request, E_query, Logic.I|]. intros sm _.
        eapply keeps_bind; [apply keeps_setToolkit, G_assetMap, Htk|].
        intros _ _. now apply keeps_ret.
    + intros m _. destruct (Dict.get _ m); [now apply keeps_ret|apply keeps_throw].
  - apply keeps_throw.
Qed.

Lemma keeps_getBookTopLevels coin :
  keeps env I (getBookTopLevels coin)
    (fun top => topOfBook env (fst top) (snd top)).
Proof.
  unfold getBookTopLevels.
  eapply keeps_bind; [apply keeps_request, E_query, Logic.I|].
  intros book [h Hbook].
  destruct book as [bk|]; [|apply keeps_throw].
  destruct (negb (Num.truthy _) || negb (Num.truthy _)) eqn:B; [apply keeps_throw|].
  apply keeps_ret. apply orb_false_elim in B as [B1 B2].
  apply negb_false_iff in B1, B2. cbn [fst snd].
  split; [|auto]. exists h, coin, bk. auto.
Qed.

Section Open.

Variable params : OpenPositionParams.

Hypothesis E_entry : forall a size price tif,
  entryPrice env dflt params price tif ->
  E (Sent (PlaceOrder (limitOrder tif a (isBuyOrder params) price size false))).
Hypothesis E_trigger : forall kind a b price size,
  E (Sent (PlaceOrder (triggerOrder kind a b price size))).

Lemma keeps_placeOrders mkt normalizedCoin :
  keeps env I (placeOrders params mkt normalizedCoin) (entryOutcome env).
Proof.
  unfold placeOrders.
  eapply keeps_bind; [apply keeps_getAssetIndex|]. intros ai _.
  eapply keeps_bind with
    (R := fun bt => forall top, bt = Some top -> topOfBook env (fst top) (snd top)).
  { destruct (negb (isLimitOrder params) || Num.given (sizeUsd params)).
    - eapply keeps_bind; [apply keeps_getBookTopLevels|]. intros top Htop.
      apply keeps_ret. intros ? [= <-]. exact Htop.
    - apply keeps_ret. discriminate. }
  intros bookTop Hbook. unfold submitOrders.
  eapply keeps_bind with (R := fun _ => True).
  { destruct (Num.given (sizeUsd params)).
    - destruct (_ =? Num.zero)%num; [apply keeps_throw|now apply keeps_lift].
    - destruct (Num.given (sizeCoin params)); [now apply keeps_lift|apply keeps_throw]. }
  intros orderSize _.
  eapply keeps_bind with (R := fun _ => True).
  { destruct (negb (String.eqb mkt "spot")); [|now apply keeps_ret].
    eapply keeps_weaken; [apply keeps_request, E_query, Logic.I|]. auto. }
  intros _ _.
  eapply keeps_bind with
    (R := fun pt => entryPrice env dflt params (fst pt) (snd pt)).
  { destruct (isLimitOrder params) eqn:L.
    - apply keeps_ret. left. auto.
    - eapply keeps_bind with
        (R := fun top => topOfBook env (fst top) (snd top)).
      { destruct bookTop as [top|].
        - apply keeps_ret. now apply Hbook.
        - apply keeps_getBookTopLevels. }
      intros [bestBid bestAsk] Htop. cbn [fst snd] in Htop.
      eapply keeps_bind; [apply keeps_getToolkit|]. intros tk Htk.
      apply keeps_ret. right. cbn [fst snd].
      split; [exact L|split; [reflexivity|]].
      exists bestBid, bestAsk. rewrite (G_slippage tk Htk). auto. }
  intros [orderPrice tif] Hprice. cbn [fst snd] in Hprice.
  eapply keeps_bind; [apply keeps_request, E_entry, Hprice|].
  intros orderResult [h Hreply].
  eapply keeps_bind with
    (R := fun st => extractFirstOrderStatus orderResult = Returned st).
  { apply keeps_lift. auto. }
  intros status Hstatus.
  destruct (isErrorStatus status) eqn:Err.
  - eapply keeps_weaken; [apply keeps_fail|].
    intros r Hr. do 4 eexists. split; [exact Hreply|].
    split; [exact Hstatus|]. rewrite Err. exact Hr.
  - assert (Done : forall id,
              keeps env I (succeed id) (entryOutcome env)).
    { intros id. eapply keeps_weaken; [apply keeps_succeed|].
      intros r Hr. do 4 eexists. split; [exact Hreply|].
      split; [exact Hstatus|]. rewrite Err. exact Hr. }
    eapply keeps_bind; [apply keeps_emit, E_console|]. intros _ _.
    destruct (String.eqb mkt "spot"); [apply Done|].
    eapply keeps_bind with (R := fun _ => True).
    { destruct (Num.given (stopLossPrice params) || Num.given (stopLossPercent params));
        [|now apply keeps_ret].
      eapply keeps_bind; [apply keeps_request, E_query, Logic.I|]. intros mids _.
      eapply keeps_bind; [apply keeps_request, E_trigger|]. intros _ _.
      now apply keeps_ret. }
    intros _ _.
    eapply keeps_bind with (R := fun _ => True).
    { destruct (Num.given (takeProfitPrice params) || Num.given (takeProfitPercent params));
        [|now apply keeps_ret].
      eapply keeps_bind; [apply keeps_request, E_query, Logic.I|]. intros mids _.
      eapply keeps_bind; [apply keeps_request, E_trigger|]. intros _ _.
      now apply keeps_ret. }
    intros _ _. apply Done.
Qed.

Lemma keeps_warnSpot mkt : keeps env I (warnSpot params mkt) (fun _ => True).
Proof.
  unfold warnSpot. destruct (String.eqb mkt "spot"); [|now apply keeps_ret].
  eapply keeps_bind with (R := fun _ => True).
  - destruct (_ || _); [apply keeps_emit, E_console|now apply keeps_ret].
  - intros _ _.
    destruct (match leverage params with Some _ => _ | None => _ end);
      [apply keeps_emit, E_console|now apply keeps_ret].
Qed.

Hypothesis E_check : marketOf params = "perp"%string ->
  forall positions balance, E (RiskChecked params positions balance).
Hypothesis G_riskManager : marketOf params = "perp"%string ->
  forall tk rm,
    G tk -> G (mkToolkit (address tk) (Some rm) (defaultSlippage tk)
                 (assetMap tk) (spotAssetMap tk)).

Lemma keeps_riskChecks :
  keeps env I (riskChecks params (marketOf params))
    (fun denied => forall r, denied = Some r ->
       marketOf params = "perp"%string /\ success r = false
       /\ exists why, error r = Some (RiskCheckFailed why)).
Proof.
  unfold riskChecks.
  eapply keeps_bind; [apply keeps_getToolkit|]. intros tk Htk.
  destruct (riskManager tk) as [rm|]; [|apply keeps_ret; discriminate].
  destruct (String.eqb_spec (marketOf params) "perp") as [P|];
    [|apply keeps_ret; discriminate].
  eapply keeps_bind; [apply keeps_getPositions|]. intros positionsResult _.
  eapply keeps_bind; [apply keeps_getBalance|]. intros balanceResult _.
  destruct (_ || _); [apply keeps_throw|].
  destruct (data positionsResult) as [positions|]; [|apply keeps_throw].
  destruct (data balanceResult) as [balance|]; [|apply keeps_throw].
  eapply keeps_bind with (R := fun _ => True).
  { unfold riskManager_checkOpenPosition.
    eapply keeps_bind; [apply keeps_emit, E_check, P|]. intros _ _.
    eapply keeps_bind with (R := fun _ => True);
      [destruct (RiskManager.readsClock _ _ _);
       [apply keeps_dateNow|now apply keeps_ret]|].
    intros now _.
    destruct (RiskManager.checkOpenPosition _ _ _ _ _) as [result rm'].
    eapply keeps_bind; [apply keeps_getToolkit|]. intros tk' Htk'.
    eapply keeps_bind; [apply keeps_setToolkit, G_riskManager; assumption|].
    intros _ _. now apply keeps_ret. }
  intros riskCheck _.
  destruct (negb (allowed riskCheck)).
  - eapply keeps_bind; [apply keeps_fail|]. intros failure [F1 F2].
    apply keeps_ret. intros r [= <-]. eauto.
  - eapply keeps_bind with (R := fun _ => True).
    + destruct (warnings riskCheck);
        [apply keeps_emit, E_console|now apply keeps_ret].
    + intros _ _. apply keeps_ret. discriminate.
Qed.

Lemma keeps_openPosition :
  keeps env I (openPosition params) (openOutcome env params).
Proof.
  unfold openPosition. apply keeps_tryCatch.
  - eapply keeps_bind; [apply keeps_warnSpot|]. intros _ _.
    eapply keeps_bind; [apply keeps_riskChecks|]. intros denied Hdenied.
    destruct denied as [failure|].
    + apply keeps_ret. left. now apply Hdenied.
    + eapply keeps_weaken; [apply keeps_placeOrders|].
      intros r Hr. right. left. exact Hr.
  - intros msg.
    eapply keeps_bind; [apply keeps_emit, E_console|]. intros _ _.
    eapply keeps_weaken; [apply keeps_fail|].
    intros r [F1 F2]. right. right. eauto.
Qed.

End Open.

Section Close.

Variable params : ClosePositionParams.

Hypothesis E_close : forall a isBuy price size,
  marketPrice env dflt isBuy (c_slippagePercent params) price ->
  E (Sent (PlaceOrder (limitOrder Ioc a isBuy price size true))).
Hypothesis G_recordTrade : forall tk rm,
  G tk -> G (mkToolkit (address tk) (Some rm) (defaultSlippage tk)
               (assetMap tk) (spotAssetMap tk)).

Lemma keeps_closePosition :
  keeps env I (closePosition params) (closeOutcome env).
Proof.
  unfold closePosition. apply keeps_tryCatch.
  - eapply keeps_bind; [apply keeps_getPositions|]. intros positionsResult _.
    destruct (negb (success positionsResult)); [apply keeps_throw|].
    destruct (find _ _) as [position|]; [|apply keeps_throw].
    eapply keeps_bind; [apply keeps_getAssetIndex|]. intros ai _.
    eapply keeps_bind with (R := fun _ => True); [now apply keeps_lift|].
    intros closeSize _.
    eapply keeps_bind; [apply keeps_getBookTopLevels|].
    intros [bestBid bestAsk] Htop. cbn [fst snd] in Htop. unfold submitClose.
    eapply keeps_bind; [apply keeps_getToolkit|]. intros tk Htk.
    eapply keeps_bind.
    { apply keeps_request, E_close. exists bestBid, bestAsk.
      rewrite (G_slippage tk Htk). auto. }
    intros result [h Hreply].
    eapply keeps_bind; [apply keeps_getToolkit|]. intros tk' Htk'.
    eapply keeps_bind with (R := fun _ => True).
    { destruct (riskManager tk') as [rm|]; [|now apply keeps_ret].
      destruct (_ =? _)%num; [|now apply keeps_ret].
      unfold riskManager_recordTrade.
      eapply keeps_bind; [apply keeps_dateNow|]. intros now _.
      eapply keeps_bind; [apply keeps_dateNow|]. intros stamp _.
      eapply keeps_bind; [apply keeps_getToolkit|]. intros tk2 Htk2.
      apply keeps_setToolkit, G_recordTrade, Htk2. }
    intros _ _.
    eapply keeps_bind with
      (R := fun st => extractFirstOrderStatus result = Returned st).
    { apply keeps_lift. auto. }
    intros status Hstatus.
    eapply keeps_weaken; [apply keeps_succeed_data|].
    intros r Hr. left. do 4 eexists. split; [exact Hreply|].
    split; [exact Hstatus|]. exact Hr.
  - intros msg. eapply keeps_weaken; [apply keeps_fail|].
    intros r [F1 F2]. right. eauto.
Qed.

End Close.

End Keeps.

(** *** Runs from a given world *)

Lemma since_start w0 E G : G (toolkit w0) -> since w0 E G w0.
Proof.
  intros H. split; [|exact H]. exists []. split; [|constructor].
  unfold added. now rewrite app_nil_r.
Qed.

Lemma since_tick w0 E G w : since w0 E G w -> since w0 E G (tick w).
Proof. intros H. exact H. Qed.

Lemma since_record w0 (E : Event -> Prop) G e w :
  E e -> since w0 E G w -> since w0 E G (record e w).
Proof.
  intros He [[evs [Ha Hf]] Hg]. split; [|exact Hg].
  exists (evs ++ [e]). split.
  - unfold added in *. cbn [record history]. rewrite Ha. now rewrite app_assoc.
  - apply Forall_app. split; [exact Hf|]. now constructor.
Qed.

Lemma since_store w0 E (G : Toolkit -> Prop) tk w :
  G tk -> since w0 E G w -> since w0 E G (withToolkit tk w).
Proof. intros Hg [He _]. split; [exact He|exact Hg]. Qed.

Lemma since_toolkit w0 E G w : since w0 E G w -> G (toolkit w).
Proof. intros [_ H]. exact H. Qed.

(** [openPosition] catches what it throws. *)
Lemma openPosition_returns params env w :
  exists r, fst (openPosition params env w) = Returned r.
Proof.
  unfold openPosition, tryCatch.
  destruct (bind _ _ env w) as [[r|msg] w1]; cbn; eauto.
Qed.

(** So does [closePosition]. *)
Lemma closePosition_returns params env w :
  exists r, fst (closePosition params env w) = Returned r.
Proof.
  unfold closePosition, tryCatch.
  destruct (bind _ _ env w) as [[r|msg] w1]; cbn; eauto.
Qed.

(** However [openPosition] runs, it ends in one of its three ways. *)
Lemma openPosition_outcome params env w :
  exists r, fst (openPosition params env w) = Returned r
            /\ openOutcome env params r.
Proof.
  destruct (openPosition_returns params env w) as [r Hr].
  exists r. split; [exact Hr|].
  pose proof (keeps_openPosition env
                (since w (fun _ => True) (slippageIs (defaultSlippage (toolkit w))))
                (fun _ => True) (slippageIs (defaultSlippage (toolkit w)))
                (defaultSlippage (toolkit w))) as K.
  specialize (K (since_tick _ _ _)).
  specialize (K (fun e w' _ => since_record _ _ _ e w' Logic.I)).
  specialize (K (since_store _ _ _) (since_toolkit _ _ _) (fun _ H => H)).
  specialize (K (fun _ _ => Logic.I) (fun _ => Logic.I)).
  specialize (K (fun _ _ H => H) (fun _ _ H => H) params).
  specialize (K (fun _ _ _ _ _ => Logic.I) (fun _ _ _ _ _ => Logic.I)).
  specialize (K (fun _ _ _ => Logic.I) (fun _ _ _ H => H)).
  destruct (K w (since_start _ _ _ eq_refl)) as [_ K2].
  rewrite Hr in K2. exact K2.
Qed.



(** However [closePosition] runs, it ends in one of its two ways. *)
Lemma closePosition_outcome params env w :
  exists r, fst (closePosition params env w) = Returned r
            /\ closeOutcome env r.
Proof.
  destruct (closePosition_returns params env w) as [r Hr].
  exists r. split; [exact Hr|].
  pose proof (keeps_closePosition env
                (since w (fun _ => True) (slippageIs (defaultSlippage (toolkit w))))
                (fun _ => True) (slippageIs (defaultSlippage (toolkit w)))
                (defaultSlippage (toolkit w))) as K.
  specialize (K (since_tick _ _ _)).
  specialize (K (fun e w' _ => since_record _ _ _ e w' Logic.I)).
  specialize (K (since_store _ _ _) (since_toolkit _ _ _) (fun _ H => H)).
  specialize (K (fun _ _ => Logic.I)).
  specialize (K (fun _ _ H => H) (fun _ _ H => H) params).
  specialize (K (fun _ _ _ _ _ => Logic.I) (fun _ _ H => H)).
  destruct (K w (since_start _ _ _ eq_refl)) as [_ K2].
  rewrite Hr in K2. exact K2.
Qed.



(** ** The events of the trading actions, one request at a time *)

Section Events.

Variable env : Env.
Variable I : World -> Prop.
Variable E : Event -> Prop.
Variable G : Toolkit -> Prop.

Hypothesis I_tick : forall w, I w -> I (tick w).
Hypothesis I_record : forall e w, E e -> I w -> I (record e w).
Hypothesis I_store : forall tk w, G tk -> I w -> I (withToolkit tk w).
Hypothesis I_toolkit : forall w, I w -> G (toolkit w).
Hypothesis G_assetMap : forall tk m,
  G tk -> G (mkToolkit (address tk) (riskManager tk) (defaultSlippage tk)
               (Some m) (spotAssetMap tk)).
Hypothesis G_spotAssetMap : forall tk m,
  G tk -> G (mkToolkit (address tk) (riskManager tk) (defaultSlippage tk)
               (assetMap tk) (Some m)).

Local Ltac step := eapply keeps_bind.
Local Ltac sends := eapply keeps_request; [exact I_record|].
Local Ltac reads := eapply keeps_getToolkit; exact I_toolkit.
Local Ltac done := apply keeps_ret; exact Logic.I.

Lemma sent_getAssetIndex coin mkt :
  (mkt = "perp"%string -> E (Sent Meta)) ->
  (mkt = "spot"%string -> E (Sent SpotMeta)) ->
  keeps env I (getAssetIndex coin mkt) (fun _ => True).
Proof.
  intros Hperp Hspot. unfold getAssetIndex.
  destruct (String.eqb_spec mkt "spot") as [S|_];
    [|destruct (String.eqb_spec mkt "perp") as [P|_]].
  - step; [reads|]. intros tk Htk.
    eapply keeps_bind with (R := fun _ => True);
      [|intros m _; destruct (Dict.get _ m); [done|apply keeps_throw]].
    destruct (spotAssetMap tk); [apply keeps_ret; exact Logic.I|].
    step; [sends; exact (Hspot S)|]. intros sm _.
    step; [eapply keeps_setToolkit; [exact I_store|apply G_spotAssetMap, Htk]|].
    intros _ _. apply keeps_ret. exact Logic.I.
  - step; [reads|]. intros tk Htk.
    eapply keeps_bind with (R := fun _ => True);
      [|intros m _; destruct (Dict.get _ m); [done|apply keeps_throw]].
    destruct (assetMap tk); [apply keeps_ret; exact Logic.I|].
    step; [sends; exact (Hperp P)|]. intros sm _.
    step; [eapply keeps_setToolkit; [exact I_store|apply G_assetMap, Htk]|].
    intros _ _. apply keeps_ret. exact Logic.I.
  - apply keeps_throw.
Qed.

Lemma sent_getBookTopLevels coin :
  E (Sent (L2Book coin 5)) ->
  keeps env I (getBookTopLevels coin) (fun _ => True).
Proof.
  intros H. unfold getBookTopLevels.
  step; [sends; exact H|]. intros book _.
  destruct book as [bk|]; [|apply keeps_throw].
  destruct (_ || _); [apply keeps_throw|done].
Qed.

(** [getPositions] answers with the positions it makes of the clearinghouse
    state and the mids it was sent, or with a failure. *)
Lemma sent_getPositions :
  (forall user, E (Sent (ClearinghouseState user))) ->
  E (Sent AllMids) ->
  keeps env I getPositions
    (fun r =>
       (success r = false /\ data r = None)
       \/ (success r = true
           /\ exists h user state h' mids,
                ex_clearinghouseState (exchange env) h user = Resolved state
                /\ ex_allMids (exchange env) h' = Resolved mids
                /\ data r = Some (positionsOf mids state))).
Proof.
  intros Hstate Hmids. unfold getPositions. apply keeps_tryCatch.
  - step; [reads|]. intros tk _.
    step; [sends; apply Hstate|]. intros state [h Hs].
    step; [sends; exact Hmids|]. intros mids [h' Hm].
    eapply keeps_weaken; [apply keeps_succeed_data, I_tick|].
    intros r [S [D _]]. right. split; [exact S|].
    exists h, (address tk), state, h', mids. auto.
  - intros msg. unfold fail.
    step; [apply keeps_dateNow, I_tick|]. intros t _.
    apply keeps_ret. left. auto.
Qed.

Lemma sent_getBalance :
  (forall user, E (Sent (ClearinghouseState user))) ->
  keeps env I getBalance (fun _ => True).
Proof.
  intros Hstate. unfold getBalance. apply keeps_tryCatch.
  - step; [reads|]. intros tk _.
    step; [sends; apply Hstate|]. intros state _.
    eapply keeps_weaken; [apply keeps_succeed, I_tick|]. auto.
  - intros msg. eapply keeps_weaken; [apply keeps_fail, I_tick|]. auto.
Qed.

Section Opening.

Variable params : OpenPositionParams.

Hypothesis E_meta : marketOf params = "perp"%string -> E (Sent Meta).
Hypothesis E_spotMeta : marketOf params = "spot"%string -> E (Sent SpotMeta).
Hypothesis E_book : forall c, E (Sent (L2Book c 5)).
Hypothesis E_leverage : marketOf params <> "spot"%string ->
  forall a, E (Sent (UpdateLeverage a true (Num.orElse (leverage params) Num.one))).
Hypothesis E_entry : forall tif a price size,
  E (Sent (PlaceOrder (limitOrder tif a (isBuyOrder params) price size false))).
Hypothesis E_mids : marketOf params <> "spot"%string -> E (Sent AllMids).
Hypothesis E_trigger : marketOf params <> "spot"%string ->
  forall kind a price size,
    E (Sent (PlaceOrder (triggerOrder kind a (negb (isBuyOrder params)) price size))).
Hypothesis E_console : forall l, E (Console l).

Lemma sent_placeOrders normalizedCoin :
  keeps env I (placeOrders params (marketOf params) normalizedCoin)
    (fun _ => True).
Proof.
  unfold placeOrders.
  step; [apply sent_getAssetIndex; assumption|]. intros ai _.
  eapply keeps_bind with (R := fun _ => True).
  { destruct (negb (isLimitOrder params) || Num.given (sizeUsd params)); [|done].
    step; [apply sent_getBookTopLevels, E_book|]. intros top _. done. }
  intros bookTop _. unfold submitOrders.
  eapply keeps_bind with (R := fun _ => True).
  { destruct (Num.given (sizeUsd params)).
    - destruct (_ =? Num.zero)%num; [apply keeps_throw|now apply keeps_lift].
    - destruct (Num.given (sizeCoin params)); [now apply keeps_lift|apply keeps_throw]. }
  intros orderSize _.
  destruct (String.eqb_spec (marketOf params) "spot") as [S|S]; cbn [negb].
  - eapply keeps_bind with (R := fun _ => True); [done|]. intros _ _.
    eapply keeps_bind with (R := fun _ => True).
    { destruct (isLimitOrder params); [done|].
      eapply keeps_bind with (R := fun _ => True).
      { destruct bookTop; [done|apply sent_getBookTopLevels, E_book]. }
      intros [bestBid bestAsk] _. step; [reads|]. intros tk _. done. }
    intros [orderPrice tif] _.
    step; [sends; apply E_entry|]. intros orderResult _.
    eapply keeps_bind with (R := fun _ => True); [now apply keeps_lift|]. intros status _.
    destruct (isErrorStatus status).
    + eapply keeps_weaken; [apply keeps_fail, I_tick|]. auto.
    + step; [eapply keeps_emit; [exact I_record|apply E_console]|]. intros _ _.
      eapply keeps_weaken; [apply keeps_succeed, I_tick|]. auto.
  - step; [sends; apply E_leverage, S|]. intros _ _.
    eapply keeps_bind with (R := fun _ => True).
    { destruct (isLimitOrder params); [done|].
      eapply keeps_bind with (R := fun _ => True).
      { destruct bookTop; [done|apply sent_getBookTopLevels, E_book]. }
      intros [bestBid bestAsk] _. step; [reads|]. intros tk _. done. }
    intros [orderPrice tif] _.
    step; [sends; apply E_entry|]. intros orderResult _.
    eapply keeps_bind with (R := fun _ => True); [now apply keeps_lift|]. intros status _.
    destruct (isErrorStatus status).
    + eapply keeps_weaken; [apply keeps_fail, I_tick|]. auto.
    + step; [eapply keeps_emit; [exact I_record|apply E_console]|]. intros _ _.
      eapply keeps_bind with (R := fun _ => True).
      { destruct (_ || _); [|done].
        step; [sends; apply E_mids, S|]. intros mids _.
        step; [sends; apply E_trigger, S|]. intros _ _. done. }
      intros _ _.
      eapply keeps_bind with (R := fun _ => True).
      { destruct (_ || _); [|done].
        step; [sends; apply E_mids, S|]. intros mids _.
        step; [sends; apply E_trigger, S|]. intros _ _. done. }
      intros _ _.
      eapply keeps_weaken; [apply keeps_succeed, I_tick|]. auto.
Qed.

Hypothesis E_state : marketOf params = "perp"%string ->
  forall user, E (Sent (ClearinghouseState user)).
Hypothesis E_riskMids : marketOf params = "perp"%string -> E (Sent AllMids).
Hypothesis E_check : marketOf params = "perp"%string ->
  forall positions balance, E (RiskChecked params positions balance).
Hypothesis G_riskManager : marketOf params = "perp"%string ->
  forall tk rm,
    G tk -> G (mkToolkit (address tk) (Some rm) (defaultSlippage tk)
                 (assetMap tk) (spotAssetMap tk)).

Lemma sent_riskChecks :
  keeps env I (riskChecks params (marketOf params)) (fun _ => True).
Proof.
  unfold riskChecks.
  step; [reads|]. intros tk Htk.
  destruct (riskManager tk) as [rm|]; [|done].
  destruct (String.eqb_spec (marketOf params) "perp") as [P|]; [|done].
  step; [apply sent_getPositions; auto|]. intros positionsResult _.
  step; [apply sent_getBalance; auto|]. intros balanceResult _.
  destruct (_ || _); [apply keeps_throw|].
  destruct (data positionsResult) as [positions|]; [|apply keeps_throw].
  destruct (data balanceResult) as [balance|]; [|apply keeps_throw].
  eapply keeps_bind with (R := fun _ => True).
  { unfold riskManager_checkOpenPosition.
    step; [eapply keeps_emit; [exact I_record|apply E_check, P]|]. intros _ _.
    eapply keeps_bind with (R := fun _ => True);
      [destruct (RiskManager.readsClock _ _ _);
       [apply keeps_dateNow, I_tick|done]|].
    intros now _.
    destruct (RiskManager.checkOpenPosition _ _ _ _ _) as [result rm'].
    step; [reads|]. intros tk' Htk'.
    step; [eapply keeps_setToolkit; [exact I_store|apply G_riskManager; assumption]|].
    intros _ _. done. }
  intros riskCheck _.
  destruct (negb (allowed riskCheck)).
  - step; [apply keeps_fail, I_tick|]. intros failure _. done.
  - eapply keeps_bind with (R := fun _ => True).
    + destruct (warnings riskCheck);
        [eapply keeps_emit; [exact I_record|apply E_console]|done].
    + intros _ _. done.
Qed.

Lemma sent_openPosition :
  keeps env I (openPosition params) (fun _ => True).
Proof.
  unfold openPosition. apply keeps_tryCatch.
  - eapply keeps_bind with (R := fun _ => True).
    { unfold warnSpot. destruct (String.eqb (marketOf params) "spot"); [|done].
      eapply keeps_bind with (R := fun _ => True).
      - destruct (_ || _); [eapply keeps_emit; [exact I_record|apply E_console]|done].
      - intros _ _.
        destruct (match leverage params with Some _ => _ | None => _ end);
          [eapply keeps_emit; [exact I_record|apply E_console]|done]. }
    intros _ _.
    step; [apply sent_riskChecks|]. intros denied _.
    destruct denied; [done|apply sent_placeOrders].
  - intros msg.
    step; [eapply keeps_emit; [exact I_record|apply E_console]|]. intros _ _.
    eapply keeps_weaken; [apply keeps_fail, I_tick|]. auto.
Qed.


End Opening.

Section Closing.

Variable params : ClosePositionParams.

Hypothesis E_state : forall user, E (Sent (ClearinghouseState user)).
Hypothesis E_mids : E (Sent AllMids).
Hypothesis E_meta : E (Sent Meta).
Hypothesis E_book : forall c, E (Sent (L2Book c 5)).

(** What is known of the position [closePosition] finds. *)
Variable found : Position -> Prop.
Hypothesis found_position : forall h user state h' mids position,
  ex_clearinghouseState (exchange env) h user = Resolved state ->
  ex_allMids (exchange env) h' = Resolved mids ->
  find (fun p => String.eqb (Str.toUpperCase (pos_coin p))
                   (Str.toUpperCase (c_coin params)))
    (positionsOf mids state) = Some position ->
  found position.

Hypothesis E_close : forall position a price size,
  found position ->
  E (Sent (PlaceOrder
             (limitOrder Ioc a
                (match pos_side position with Short => true | Long => false end)
                price size true))).
Hypothesis G_recordTrade :
  (closePercentOf params =? Num.ofZ 100)%num = true ->
  forall tk rm position now stamp,
    found position ->
    G tk ->
    G (mkToolkit (address tk)
         (Some (RiskManager.recordTrade now stamp (unrealizedPnl position) rm))
         (defaultSlippage tk) (assetMap tk) (spotAssetMap tk)).

Lemma sent_closePosition :
  keeps env I (closePosition params)
    (fun r => success r = true -> exists position, found position).
Proof.
  unfold closePosition. apply keeps_tryCatch.
  - step; [apply sent_getPositions; assumption|].
    intros positionsResult Hpos.
    destruct (success positionsResult) eqn:S; cbn [negb]; [|apply keeps_throw].
    destruct Hpos as [[F _]|[_ [h [user [state [h' [mids [Hs [Hm Hd]]]]]]]]];
      [congruence|].
    rewrite Hd.
    destruct (find _ _) as [position|] eqn:F; [|apply keeps_throw].
    pose proof (found_position _ _ _ _ _ _ Hs Hm F) as Hfound.
    step; [apply sent_getAssetIndex; [auto|discriminate]|]. intros ai _.
    eapply keeps_bind with (R := fun _ => True); [now apply keeps_lift|].
    intros closeSize _.
    step; [apply sent_getBookTopLevels, E_book|].
    intros [bestBid bestAsk] _. unfold submitClose.
    step; [reads|]. intros tk Htk.
    step; [sends; apply E_close, Hfound|]. intros result _.
    step; [reads|]. intros tk' Htk'.
    eapply keeps_bind with (R := fun _ => True).
    { destruct (riskManager tk') as [rm|]; [|done].
      fold (closePercentOf params).
      destruct (closePercentOf params =? Num.ofZ 100)%num eqn:C; [|done].
      unfold riskManager_recordTrade.
      step; [apply keeps_dateNow, I_tick|]. intros now _.
      step; [apply keeps_dateNow, I_tick|]. intros stamp _.
      step; [reads|]. intros tk2 Htk2.
      eapply keeps_setToolkit; [exact I_store|].
      now apply G_recordTrade. }
    intros _ _.
    eapply keeps_bind with (R := fun _ => True); [now apply keeps_lift|].
    intros status _.
    eapply keeps_weaken; [apply keeps_succeed, I_tick|]. eauto.
  - intros msg. eapply keeps_weaken; [apply keeps_fail, I_tick|].
    intros r [F _]. congruence.
Qed.

End Closing.

(** *** Market orders, after the book was read *)

Section Market.

Variable params : OpenPositionParams.
Variables bid ask dflt : number.

Hypothesis market : isLimitOrder params = false.
Hypothesis G_slippage : forall tk, G tk -> defaultSlippage tk = dflt.
Hypothesis E_leverage : marketOf params <> "spot"%string ->
  forall a, E (Sent (UpdateLeverage a true (Num.orElse (leverage params) Num.one))).
Hypothesis E_market : forall a size,
  E (Sent (PlaceOrder
             (limitOrder Ioc a (isBuyOrder params)
                (Numeral.toPrecisionString
                   (slippagePrice (isBuyOrder params) bid ask
                      (slippagePercent params) dflt) 5)
                size false))).
Hypothesis E_mids : E (Sent AllMids).
Hypothesis E_trigger : forall kind a b price size,
  E (Sent (PlaceOrder (triggerOrder kind a b price size))).
Hypothesis E_console : forall l, E (Console l).


End Market.

Section MarketClose.

Variable params : ClosePositionParams.
Variables bid ask dflt : number.

Hypothesis G_slippage : forall tk, G tk -> defaultSlippage tk = dflt.
Hypothesis E_close : forall a b size,
  E (Sent (PlaceOrder
             (limitOrder Ioc a b
                (Numeral.toPrecisionString
                   (slippagePrice b bid ask (c_slippagePercent params) dflt) 5)
                size true))).
Hypothesis G_riskManager : forall tk rm,
  G tk -> G (mkToolkit (address tk) (Some rm) (defaultSlippage tk)
               (assetMap tk) (spotAssetMap tk)).


End MarketClose.


End Events.

(** *** Where a run ends *)






(** ** The order flow and the risk gate *)

(** C10. An [openPosition] for the spot market never calls
    [checkOpenPosition]: it returns a result that is not a risk denial, no
    call of the risk check is among the events of the run, and the risk
    manager is left as it was, whatever risk config the toolkit was built
    with. *)
Theorem spot_orders_bypass_risk_checks
    (params : OpenPositionParams) (env : Env) (w : World) :
  marketOf params = "spot"%string ->
  exists r evs,
    fst (openPosition params env w) = Returned r
    /\ (forall why, error r <> Some (RiskCheckFailed why))
    /\ added w (snd (openPosition params env w)) evs
    /\ Forall notRiskCheck evs
    /\ riskManager (toolkit (snd (openPosition params env w)))
       = riskManager (toolkit w).
Proof.
  intros Hspot.
  destruct (openPosition_returns params env w) as [r Hr].
  pose proof (keeps_openPosition env
                (since w notRiskCheck (sameRiskManager w))
                notRiskCheck (sameRiskManager w)
                (defaultSlippage (toolkit w))) as K.
  specialize (K (since_tick _ _ _) (fun e w' => since_record _ _ _ e w')).
  specialize (K (since_store _ _ _) (since_toolkit _ _ _) (fun _ H => proj2 H)).
  specialize (K (fun _ _ => Logic.I) (fun _ => Logic.I)).
  specialize (K (fun _ _ H => H) (fun _ _ H => H) params).
  specialize (K (fun _ _ _ _ _ => Logic.I) (fun _ _ _ _ _ => Logic.I)).
  assert (Hperp : marketOf params <> "perp"%string) by (rewrite Hspot; discriminate).
  specialize (K (fun P => False_ind _ (Hperp P)) (fun P => False_ind _ (Hperp P))).
  destruct (K w (since_start _ _ _ (conj eq_refl eq_refl)))
    as [[[evs [Ha Hf]] [Hrm _]] K2].
  rewrite Hr in K2.
  exists r, evs. repeat split; try assumption.
  intros why Hwhy.
  destruct K2 as [[P _]|[[h [req [x [st [_ [_ O]]]]]]|[_ [msg M]]]].
  - exact (Hperp P).
  - destruct (isErrorStatus st); destruct O as [_ O]; congruence.
  - congruence.
Qed.

Lemma spot_orders_bypass_risk_checks_witness :
  exists r evs,
    fst (openPosition spotBuy (sampleEnv filledStatus) sampleWorld) = Returned r
    /\ (forall why, error r <> Some (RiskCheckFailed why))
    /\ added sampleWorld
         (snd (openPosition spotBuy (sampleEnv filledStatus) sampleWorld)) evs
    /\ Forall notRiskCheck evs
    /\ riskManager
         (toolkit (snd (openPosition spotBuy (sampleEnv filledStatus) sampleWorld)))
       = riskManager (toolkit sampleWorld).
Proof.
  apply (spot_orders_bypass_risk_checks spotBuy (sampleEnv filledStatus)
           sampleWorld).
  reflexivity.
Defined.





(** ** The prices of the orders *)

(** Every order [openPosition] sends outside a stop-loss or take-profit pair
    is its entry order, at the entry price. *)
Lemma openPosition_entry_orders params env w :
  exists evs,
    added w (snd (openPosition params env w)) evs
    /\ Forall (entryEvent env (defaultSlippage (toolkit w)) params) evs.
Proof.
  set (d := defaultSlippage (toolkit w)).
  pose proof (keeps_openPosition env
                (since w (entryEvent env d params) (slippageIs d))
                (entryEvent env d params) (slippageIs d) d) as K.
  specialize (K (since_tick _ _ _) (fun e w' => since_record _ _ _ e w')).
  specialize (K (since_store _ _ _) (since_toolkit _ _ _) (fun _ H => H)).
  assert (Q : forall rq, isQuery rq -> entryEvent env d params (Sent rq)).
  { intros rq H. destruct rq; cbn in *; trivial. contradiction. }
  specialize (K Q (fun _ => Logic.I)).
  specialize (K (fun _ _ H => H) (fun _ _ H => H) params).
  assert (En : forall a size price tif,
             entryPrice env d params price tif ->
             entryEvent env d params
               (Sent (PlaceOrder
                        (limitOrder tif a (isBuyOrder params) price size false)))).
  { intros a size price tif H _. exists a, size, price, tif. now split. }
  assert (Tr : forall kind a b price size,
             entryEvent env d params
               (Sent (PlaceOrder (triggerOrder kind a b price size)))).
  { intros kind a b price size H. discriminate H. }
  specialize (K En Tr (fun _ _ _ => Logic.I) (fun _ _ _ H => H)).
  destruct (K w (since_start _ _ _ eq_refl)) as [[H _] _]. exact H.
Qed.

Lemma entryEvent_limit env d params e :
  isLimitOrder params = true ->
  entryEvent env d params e -> limitEntry params e.
Proof.
  intros L H. destruct e as [[]| |]; cbn in *; trivial.
  intros N. destruct (H N) as [a [size [price [tif [Hreq [[_ [-> ->]]|[L' _]]]]]]].
  - exists a, size. exact Hreq.
  - congruence.
Qed.


(** ** Market orders and their book *)











(** C5, as the code has it.  For a limit order (order type ['limit'] and a
    limit price that is not zero), every order that [openPosition] sends
    outside a stop-loss or take-profit pair is good till cancelled and
    carries the limit price printed by [toFixed(5)]: the price rounded to
    five decimals.  Below [10^21] that string reads back as a number within
    half of [10^-5] of the caller's, and as the caller's number exactly when
    that has at most five decimals. *)
Theorem limit_orders_priced_at_5_decimals
    (env : Env) (w : World) (params : OpenPositionParams) :
  isLimitOrder params = true ->
  (exists evs,
     added w (snd (openPosition params env w)) evs
     /\ Forall (limitEntry params) evs)
  /\ (forall q,
        limitPriceOf params = Fin q ->
        (Qabs q < Numeral.pow10 21)%Q ->
        exists v,
          Str.readDecimal (Numeral.toFixed (limitPriceOf params) 5) = Some v
          /\ (Qabs (v - q) <= (1 # 2) / Numeral.pow10 5)%Q
          /\ ((v == q)%Q <-> hasDecimals q 5)).
Proof.
  intros L. split.
  - destruct (openPosition_entry_orders params env w) as [evs [Ha Hf]].
    exists evs. split; [exact Ha|].
    eapply Forall_impl; [|exact Hf].
    intros e. now apply entryEvent_limit.
  - intros q -> Hq.
    destruct (toFixed_denotes q 5 Hq) as [v [Hread Hv]].
    destruct (fixed_value_close q 5) as [Hclose Hexact].
    exists v. split; [exact Hread|].
    split.
    + now rewrite Hv.
    + now rewrite Hv.
Qed.

Lemma limit_orders_priced_at_5_decimals_witness :
  isLimitOrder limitBuy = true
  /\ exists evs,
       added sampleWorld
         (snd (openPosition limitBuy (sampleEnv filledStatus) sampleWorld)) evs
       /\ Forall (limitEntry limitBuy) evs.
Proof.
  split; [reflexivity|].
  exact (proj1 (limit_orders_priced_at_5_decimals
                  (sampleEnv filledStatus) sampleWorld limitBuy eq_refl)).
Defined.

(** C5, as the specification has it, fails: the limit price 0.123456789
    goes out as 0.12346, which is more than the caller's number. *)
Lemma limit_price_not_verbatim :
  limitPriceOf limitBuy = Fin (123456789 # 1000000000)
  /\ pricesIn
       (history (snd (openPosition limitBuy (sampleEnv filledStatus) sampleWorld)))
     = ["0.12346"%string]
  /\ Str.readDecimal "0.12346" = Some (12346 # 100000)%Q
  /\ (123456789 # 1000000000 < 12346 # 100000)%Q.
Proof. repeat split; vm_compute; reflexivity. Qed.

(** ** Order statuses *)

(** [openPosition] reports a success only for an order whose first status
    is not an error. *)
Lemma openPosition_success_not_error params env w :
  exists r,
    fst (openPosition params env w) = Returned r
    /\ (success r = true ->
        exists h req x st,
          ex_order (exchange env) h req = Resolved x
          /\ extractFirstOrderStatus x = Returned st
          /\ isErrorStatus st = false).
Proof.
  destruct (openPosition_outcome params env w) as [r [Hr O]].
  exists r. split; [exact Hr|]. intros S.
  destruct O as [[_ [F _]]|[[h [req [x [st [Hx [Hst O]]]]]]|[F _]]];
    try congruence.
  exists h, req, x, st. split; [exact Hx|]. split; [exact Hst|].
  destruct (isErrorStatus st); [destruct O; congruence|reflexivity].
Qed.

(** C3, as the code runs.  [openPosition] never reports a success for an
    order whose first status has the shape [{error}], and fails with that
    error.  [closePosition] never looks at the error: whenever the exchange
    answers its reduce-only order it returns a success, with the order id
    it reads off the first status, and its only failures are caught
    exceptions.  Answered with an error status it returns a success with the
    order id 0, and has recorded the trade with the risk manager. *)
Theorem closePosition_reports_error_as_success :
  (forall params env w,
     exists r,
       fst (openPosition params env w) = Returned r
       /\ (success r = true ->
           exists h req x st,
             ex_order (exchange env) h req = Resolved x
             /\ extractFirstOrderStatus x = Returned st
             /\ isErrorStatus st = false))
  /\ (forall params env w,
        exists r,
          fst (closePosition params env w) = Returned r /\ closeOutcome env r)
  /\ isErrorStatus errorStatus = true
  /\ extractFirstOrderStatus (orderResponse errorStatus) = Returned errorStatus
  /\ fst (openPosition marketBuy (sampleEnv errorStatus) sampleWorld)
     = Returned
         (mkActionResult false None
            (Some (OrderFailed (VString "Reduce only order would increase position")))
            1003)
  /\ fst (closePosition closeAll (sampleEnv errorStatus) sampleWorld)
     = Returned (mkActionResult true (Some (Fin 0)) None 1003)
  /\ option_map RiskManager.tradesLog
       (riskManager
          (toolkit (snd (closePosition closeAll (sampleEnv errorStatus) sampleWorld))))
     = Some [mkTradeEntry 1002 (Fin 5)].
Proof.
  split; [exact openPosition_success_not_error|].
  split; [exact closePosition_outcome|].
  repeat split; vm_compute; reflexivity.
Qed.

(** ** Order sizes *)

(** A whole size under [2^53] of an asset with whole sizes is rounded to
    itself, in both directions. *)
Lemma roundedRaw_whole (n : Z) (rounding : Rounding) :
  (0 < n < 2 ^ 53)%Z -> roundedRaw (Num.ofZ n) 0 rounding = Num.ofZ n.
Proof.
  intros Hn. unfold roundedRaw, tenToThe.
  change (inject_Z (10 ^ Z.of_nat 0)) with (inject_Z 1).
  rewrite (round64_int (inject_Z 1) 1) by (reflexivity || lia).
  assert (Mul : (Num.ofZ n * Num.ofZ 1)%num = Num.ofZ n).
  { unfold Num.ofZ, Num.mul. apply round64_int; [lia|]. ring. }
  assert (Div : (Num.ofZ n / Num.ofZ 1)%num = Num.ofZ n).
  { unfold Num.ofZ, Num.div. change (Qeq_bool (inject_Z 1) 0) with false.
    apply round64_int; [lia|]. field. }
  destruct rounding; rewrite Mul; unfold Num.floor, Num.ceil, Num.ofZ at 1;
    [rewrite Qfloor_Z|rewrite Qceiling_Z]; exact Div.
Qed.

(** With no decimals, the digits of a whole size go through the removal
    of trailing zeros as they are. *)
Lemma formatSize_whole (n : Z) (rounding : Rounding) :
  (0 < n < 2 ^ 53)%Z ->
  formatSize (Num.ofZ n) 0 rounding
  = Returned (Str.stripTrailingZeros (Str.ofN (Z.to_N n))).
Proof.
  intros Hn. unfold formatSize. rewrite (roundedRaw_whole n rounding Hn).
  assert (P : (Num.ofZ n <=? Num.zero)%num = false).
  { unfold Num.ofZ, Num.le, Num.zero. apply Qle_bool_false.
    change 0%Q with (inject_Z 0). rewrite <- Zlt_Qlt. lia. }
  rewrite P. cbn [Num.isFinite Num.ofZ negb orb Nat.ltb Nat.leb].
  do 2 f_equal. unfold Numeral.toFixed, Num.ofZ.
  assert (S0 : Num.Qlt_bool (inject_Z n) 0 = false).
  { unfold Num.Qlt_bool. apply negb_false_iff, Qle_bool_iff.
    change 0%Q with (inject_Z 0). rewrite <- Zle_Qle. lia. }
  rewrite S0. cbn [String.append].
  assert (A : Qabs (inject_Z n) = inject_Z n).
  { unfold Qabs, inject_Z. f_equal. lia. }
  rewrite A.
  rewrite (Qle_bool_false (Numeral.pow10 21)).
  2:{ unfold Numeral.pow10. rewrite <- Zlt_Qlt.
      assert (2 ^ 53 < 10 ^ Z.of_nat 21)%Z by reflexivity. lia. }
  unfold Numeral.fixedDigits, Numeral.fixedUnits. cbn [Nat.eqb].
  rewrite (roundHalfUp_wd _ (inject_Z n)); [now rewrite roundHalfUp_Z|].
  unfold Numeral.pow10. change (inject_Z (10 ^ Z.of_nat 0)) with 1%Q. ring.
Qed.

(** C6, as the code runs.  The string [formatSize] returns is not the
    number it rounded to when [decimals] is 0 and the number ends in a
    zero: [toFixed(0)] prints no dot, and the replacement of [/\.?0+$/]
    removes the zeros of the integer.  For every whole size under [2^53]
    the digits of the size go through that replacement; the size 10 of an
    asset with whole sizes comes out as 1, in both directions, and so does
    the size 100. *)
Theorem formatSize_strips_integer_zeros :
  (forall n rounding,
     (0 < n < 2 ^ 53)%Z ->
     roundedRaw (Num.ofZ n) 0 rounding = Num.ofZ n
     /\ formatSize (Num.ofZ n) 0 rounding
        = Returned (Str.stripTrailingZeros (Str.ofN (Z.to_N n))))
  /\ Numeral.toFixed (roundedRaw (Fin 10) 0 Up) 0 = "10"%string
  /\ Str.stripTrailingZeros "10" = "1"%string
  /\ formatSize (Fin 10) 0 Up = Returned "1"%string
  /\ formatSize (Fin 10) 0 Down = Returned "1"%string
  /\ Str.readDecimal "1" = Some 1%Q
  /\ formatSize (Fin 100) 0 Up = Returned "1"%string
  /\ formatSize (Fin 250) 0 Down = Returned "25"%string.
Proof.
  split.
  - intros n rounding Hn. split.
    + now apply roundedRaw_whole.
    + now apply formatSize_whole.
  - repeat split; vm_compute; reflexivity.
Qed.

(** * Further properties *)

(** ** The risk manager *)

(** [checkOpenPosition] denies exactly when a check is violated, with a
    reason of the first one violated. *)
Lemma checkOpenPosition_decides now params positions balance s :
  let result := fst (RiskManager.checkOpenPosition now params positions balance s) in
  match find (violates now params positions balance s) precedence with
  | Some c =>
      allowed result = false
      /\ warnings result = None
      /\ exists r, reason result = Some r /\ checkOf r = c
  | None =>
      allowed result = true /\ reason result = None
      /\ warnings result <> Some []
  end.
Proof.
  unfold RiskManager.checkOpenPosition, precedence, violates.
  rewrite !whenSet_given.
  cbn [find].
  rewrite !if_and.
  set (v1 := Num.given (leverage params) && _).
  set (v2 := (_ >? maxPositionSizeUsd _)%num).
  set (v3 := Num.given (maxOpenPositions _) && _).
  destruct v1; [cbn; repeat split; eauto|].
  destruct v2; [cbn; repeat split; eauto|].
  destruct v3; [cbn; repeat split; eauto|].
  destruct (Num.given (maxDailyLoss (RiskManager.config s))); cbn [andb].
  1: destruct (Num.abs (RiskManager.dailyPnl (RiskManager.updateDailyPnl now s)) >=? _)%num;
       [cbn; repeat split; eauto|].
  1: destruct (_ + _ >=? _)%num.
  all: cbn beta iota; rewrite whenSet_given.
  all: destruct (Num.given (maxDrawdownPercent (RiskManager.config s))); cbn [andb].
  all: try (destruct (_ * Num.ofZ 100 >=? Num.orElse _ _)%num;
            [cbn; repeat split; eauto|]).
  all: try destruct (_ * Num.ofZ 100 >=? _ * dec 8 10)%num.
  all: cbn beta iota.
  all: destruct (_ && negb (Num.given (stopLossPercent params)));
         [cbn; repeat split; eauto|].
  all: destruct (_ >? balance * dec 9 10)%num; [cbn; repeat split; eauto|].
  all: destruct (_ >? balance * dec 7 10)%num.
  all: cbn; repeat split; discriminate.
Qed.

(** A denial reason names a check that is violated. *)
Lemma denial_violates now params positions balance s r :
  reason (fst (RiskManager.checkOpenPosition now params positions balance s))
  = Some r ->
  violates now params positions balance s (checkOf r) = true.
Proof.
  intros H.
  pose proof (checkOpenPosition_decides now params positions balance s) as D.
  cbv zeta in D.
  destruct (find _ precedence) as [c|] eqn:F.
  - destruct D as [_ [_ [r' [Hr <-]]]]. rewrite H in Hr. injection Hr as <-.
    now apply find_some in F.
  - destruct D as [_ [Hr _]]. congruence.
Qed.

(** A violated check means a denial. *)
Lemma violation_denied now params positions balance s c :
  violates now params positions balance s c = true ->
  allowed (fst (RiskManager.checkOpenPosition now params positions balance s))
  = false.
Proof.
  intros H.
  pose proof (checkOpenPosition_decides now params positions balance s) as D.
  cbv zeta in D.
  destruct (find _ precedence) as [c'|] eqn:F.
  - now destruct D.
  - exfalso. pose proof (find_none _ _ F c) as N.
    rewrite H in N. assert (In c precedence) by (destruct c; cbn; tauto).
    specialize (N H0). discriminate.
Qed.

(** X1. A risk check records no trade and changes no limit: the manager
    comes out as it went in, or with the daily window rolled over; with no
    daily-loss limit set it comes out as it went in. *)
Theorem checkOpenPosition_changes_only_the_window
    (now : Z) (params : OpenPositionParams) (positions : list Position)
    (balance : number) (s : RiskManager.t) :
  let s' := snd (RiskManager.checkOpenPosition now params positions balance s) in
  (s' = s \/ s' = RiskManager.updateDailyPnl now s)
  /\ RiskManager.config s' = RiskManager.config s
  /\ RiskManager.tradesLog s' = RiskManager.tradesLog s
  /\ (Num.given (maxDailyLoss (RiskManager.config s)) = false -> s' = s).
Proof.
  assert (U : RiskManager.config (RiskManager.updateDailyPnl now s) = RiskManager.config s
              /\ RiskManager.tradesLog (RiskManager.updateDailyPnl now s)
                 = RiskManager.tradesLog s).
  { unfold RiskManager.updateDailyPnl. destruct (_ >=? _); auto. }
  destruct U as [U1 U2].
  unfold RiskManager.checkOpenPosition.
  rewrite !whenSet_given, !if_and.
  destruct (Num.given (leverage params) && _); [cbn; auto|].
  destruct (_ >? maxPositionSizeUsd _)%num; [cbn; auto|].
  destruct (Num.given (maxOpenPositions _) && _); [cbn; auto|].
  destruct (Num.given (maxDailyLoss (RiskManager.config s))).
  1: destruct (Num.abs (RiskManager.dailyPnl (RiskManager.updateDailyPnl now s)) >=? _)%num;
       [cbn; repeat split; auto; discriminate|].
  1: destruct (_ + _ >=? _)%num.
  all: cbn beta iota; rewrite whenSet_given.
  all: destruct (Num.given (maxDrawdownPercent (RiskManager.config s))).
  all: try (destruct (_ * Num.ofZ 100 >=? Num.orElse _ _)%num;
            [cbn; repeat split; auto; discriminate|]).
  all: try destruct (_ * Num.ofZ 100 >=? _ * dec 8 10)%num.
  all: cbn beta iota.
  all: destruct (_ && negb (Num.given (stopLossPercent params)));
         [cbn; repeat split; auto; discriminate|].
  all: destruct (_ >? balance * dec 9 10)%num;
         [cbn; repeat split; auto; discriminate|].
  all: cbn; repeat split; auto; discriminate.
Qed.

(** *** Numbers *)

Lemma Qle_bool_false_lt a b : Qle_bool a b = false -> (b < a)%Q.
Proof.
  intros H. destruct (Qlt_le_dec b a) as [L|L]; [exact L|].
  apply Qle_bool_iff in L. congruence.
Qed.

Lemma le_false_gt_false x y : (x <=? y)%num = false -> (y >? x)%num = false.
Proof.
  unfold Num.gt. destruct x, y; simpl; try discriminate; auto.
  unfold Num.Qlt_bool. intros H. apply Qle_bool_false_lt in H.
  apply negb_false_iff, Qle_bool_iff. lra.
Qed.

Lemma ofNat_truthy n : (0 < n)%nat -> Num.truthy (Num.ofNat n) = true.
Proof.
  intros H. unfold Num.ofNat, Num.ofZ, Num.truthy.
  apply negb_true_iff. destruct (Qeq_bool _ 0) eqn:E; [|reflexivity].
  apply Qeq_bool_eq in E. unfold Qeq in E. cbn in E. lia.
Qed.

Lemma ofNat_gt n m : (Num.ofNat n >? Num.ofNat m)%num = (m <? n)%nat.
Proof.
  unfold Num.gt, Num.lt, Num.ofNat, Num.ofZ, Num.Qlt_bool.
  destruct (Nat.ltb_spec m n) as [L|L].
  - apply negb_true_iff. destruct (Qle_bool _ _) eqn:E; [|reflexivity].
    apply Qle_bool_iff in E. rewrite <- Zle_Qle in E. lia.
  - apply negb_false_iff, Qle_bool_iff. rewrite <- Zle_Qle. lia.
Qed.

(** *** What the checks look at *)

Lemma validateConfig_size c :
  RiskManager.validateConfig c = inr c ->
  (maxPositionSizeUsd c <=? Num.zero)%num = false.
Proof.
  unfold RiskManager.validateConfig.
  destruct (_ || _); [discriminate|].
  destruct (maxPositionSizeUsd c <=? Num.zero)%num; [discriminate|reflexivity].
Qed.

Lemma validateConfig_dailyLoss c m :
  RiskManager.validateConfig c = inr c ->
  maxDailyLoss c = Some m -> Num.truthy m = true ->
  (m <=? Num.zero)%num = false.
Proof.
  unfold RiskManager.validateConfig. intros H Hm Ht. rewrite Hm, Ht in H.
  destruct (_ || _); [discriminate|].
  destruct (maxPositionSizeUsd c <=? Num.zero)%num; [discriminate|].
  destruct (m <=? Num.zero)%num; [discriminate|reflexivity].
Qed.

Lemma zero_over_truthy v :
  Num.truthy v = true -> (Num.zero / v)%num = Fin 0 \/ exists y, (Num.zero / v)%num = Fin (0 / y).
Proof.
  destruct v as [y| | |]; cbn; intros H; try discriminate; auto.
  apply negb_true_iff in H. rewrite H. eauto.
Qed.

Lemma orElse_one_truthy x : Num.truthy (Num.orElse x Num.one) = true.
Proof.
  destruct x as [v|]; cbn; [|reflexivity].
  unfold Num.or. destruct (Num.truthy v) eqn:E; [exact E|reflexivity].
Qed.

Lemma orElse_not_given x d : Num.given x = false -> Num.orElse x d = d.
Proof.
  destruct x as [v|]; cbn; [|reflexivity]. unfold Num.or. now intros ->.
Qed.

(** X2. An intent sized in coin units ([sizeCoin], no [sizeUsd]) counts as a
    position of 0 USD: a manager with a valid config never denies it for its
    size, and never for its margin while the balance is not negative,
    whatever the size in coins. *)
Theorem coin_sized_intent_skips_size_checks
    (now : Z) (params : OpenPositionParams) (positions : list Position)
    (balance : number) (s : RiskManager.t) :
  Num.given (sizeUsd params) = false ->
  RiskManager.validateConfig (RiskManager.config s) = inr (RiskManager.config s) ->
  let result := fst (RiskManager.checkOpenPosition now params positions balance s) in
  (forall size max, reason result <> Some (PositionSizeExceedsMaximum size max))
  /\ ((Num.zero <=? balance)%num = true ->
      forall required available,
        reason result <> Some (InsufficientMargin required available)).
Proof.
  intros Hsize Hvalid result. split.
  - intros size max H. apply denial_violates in H. cbn [checkOf violates] in H.
    rewrite (orElse_not_given _ _ Hsize) in H.
    rewrite (le_false_gt_false _ _ (validateConfig_size _ Hvalid)) in H.
    discriminate.
  - intros Hbal required available H. apply denial_violates in H.
    cbn [checkOf violates] in H.
    rewrite (orElse_not_given _ _ Hsize) in H.
    assert (Z0 : forall q, (q == 0)%Q ->
                 (Fin q >? balance * dec 9 10)%num = false).
    { intros q Hq. unfold Num.gt.
      assert (D : dec 9 10 = Fin (8106479329266893 # 9007199254740992))
        by (vm_compute; reflexivity).
      rewrite D. set (c := (8106479329266893 # 9007199254740992)%Q).
      assert (Hc : (0 < c)%Q) by reflexivity.
      destruct balance as [b| | |]; try discriminate Hbal.
      - unfold Num.le, Num.zero in Hbal. apply Qle_bool_iff in Hbal.
        assert (N : (0 <= b * c)%Q) by (apply Qmult_le_0_compat; lra).
        pose proof (round64_nonneg _ N) as R. unfold Num.mul.
        destruct (Num.round64 (b * c)) as [r| | |]; try reflexivity;
          try discriminate R.
        unfold Num.lt, Num.zero, Num.Qlt_bool in *.
        apply negb_false_iff, Qle_bool_iff in R.
        apply negb_false_iff, Qle_bool_iff. now rewrite Hq.
      - assert (P : (PosInf * Fin c)%num = PosInf).
        { reflexivity. }
        rewrite P. reflexivity. }
    destruct (zero_over_truthy _ (orElse_one_truthy (leverage params)))
      as [E|[y E]]; rewrite E in H.
    + rewrite Z0 in H by reflexivity. discriminate.
    + rewrite Z0 in H by (unfold Qdiv; ring). discriminate.
Qed.

Lemma coin_sized_intent_skips_size_checks_witness :
  Num.given
    (sizeUsd (mkOpenPositionParams "BTC" "long" None None (Some (Fin 1000000))
                None None None None None None None None))
  = false
  /\ forall size max,
       reason
         (fst (RiskManager.checkOpenPosition 0
                 (mkOpenPositionParams "BTC" "long" None None (Some (Fin 1000000))
                    None None None None None None None None)
                 [] (Fin 10) sampleManager))
       <> Some (PositionSizeExceedsMaximum size max).
Proof.
  split; [reflexivity|].
  exact (proj1 (coin_sized_intent_skips_size_checks 0
                  (mkOpenPositionParams "BTC" "long" None None
                     (Some (Fin 1000000)) None None None None None None None None)
                  [] (Fin 10) sampleManager eq_refl eq_refl)).
Defined.

Lemma recordTrade_config now stamp p s :
  RiskManager.config (RiskManager.recordTrade now stamp p s) = RiskManager.config s.
Proof.
  unfold RiskManager.recordTrade, RiskManager.updateDailyPnl.
  destruct (_ >=? _); reflexivity.
Qed.

Lemma recordTrades_config calls : forall s,
  RiskManager.config (recordTrades calls s) = RiskManager.config s.
Proof.
  induction calls as [|c calls IH]; intros s; [reflexivity|].
  cbn [recordTrades fold_left].
  fold (recordTrades calls
          (RiskManager.recordTrade (call_now c) (call_stamp c) (call_pnl c) s)).
  now rewrite IH, recordTrade_config.
Qed.

(** X3. The daily-loss limit looks at the size of the day's PnL, not at its
    sign: once the running sum, in doubles, of the trades recorded in the
    24 hours (86400000 ms) of the window is at least the limit in absolute
    value, be it a loss or a profit, every intent is denied until the
    window rolls over.  The sum is the one the code keeps: ten losses of
    0.1 add up to 0.9999999999999999 and do not trip a limit of 1. *)
Theorem daily_limit_trips_on_loss_and_on_profit
    (calls : list TradeCall) (s : RiskManager.t) (m : number) (now : Z)
    (params : OpenPositionParams) (positions : list Position)
    (balance : number) :
  maxDailyLoss (RiskManager.config s) = Some m ->
  Num.truthy m = true ->
  Forall (fun c => call_now c - RiskManager.dailyPnlResetTime s < 86400000)
    calls ->
  now - RiskManager.dailyPnlResetTime s < 86400000 ->
  (Num.abs (fold_left Num.add (map call_pnl calls) (RiskManager.dailyPnl s))
   >=? m)%num = true ->
  allowed
    (fst (RiskManager.checkOpenPosition now params positions balance
            (recordTrades calls s)))
  = false
  /\ allowed
       (fst (RiskManager.checkOpenPosition 2000
               (mkOpenPositionParams "BTC" "long" None (Some (Fin 1)) None
                  None None None None None None None None)
               [] (Fin 100000)
               (recordTrades (repeat (mkTradeCall 1000 1000 (dec (-1) 10)) 10)
                  (RiskManager.mk
                     (mkRiskConfig (Fin 10) (Fin 1000) (Some (Fin 1)) None None
                        None)
                     Num.zero 0 []))))
     = true.
Proof.
  intros Hm Ht Hcalls Hnow Hsum. split; [|vm_compute; reflexivity].
  change 86400000 with RiskManager.dayMs in Hcalls, Hnow.
  destruct (recordTrades_within calls s Hcalls) as [Hpnl Hreset].
  apply (violation_denied _ _ _ _ _ CheckDailyLoss).
  cbn [violates]. rewrite recordTrades_config, Hm. cbn [Num.given Num.orElse].
  unfold Num.or. rewrite Ht. cbn [andb].
  rewrite updateDailyPnl_within by (rewrite Hreset; exact Hnow).
  rewrite Hpnl. exact Hsum.
Qed.

(** A day of 600 USD of profit against a limit of 500 USD of loss. *)
Lemma daily_limit_trips_on_loss_and_on_profit_witness :
  allowed
    (fst (RiskManager.checkOpenPosition 3000
            (mkOpenPositionParams "BTC" "long" None (Some (Fin 100)) None
               None None None None None None None None)
            [] (Fin 100000)
            (recordTrades [mkTradeCall 1000 1000 (Fin 250);
                           mkTradeCall 2000 2000 (Fin 350)] sampleManager)))
  = false.
Proof.
  apply (daily_limit_trips_on_loss_and_on_profit
           [mkTradeCall 1000 1000 (Fin 250); mkTradeCall 2000 2000 (Fin 350)]
           sampleManager (Fin 500) 3000
           (mkOpenPositionParams "BTC" "long" None (Some (Fin 100)) None
              None None None None None None None None)
           [] (Fin 100000)); try reflexivity.
  repeat constructor.
Defined.

(** X4. The first check at least 24 hours after the window started finds the
    day's PnL at zero: a manager with a valid config does not deny it for
    the daily loss, whatever was recorded before. *)
Theorem daily_limit_rearms_after_a_day
    (now : Z) (params : OpenPositionParams) (positions : list Position)
    (balance : number) (s : RiskManager.t) :
  RiskManager.validateConfig (RiskManager.config s) = inr (RiskManager.config s) ->
  RiskManager.dayMs <= now - RiskManager.dailyPnlResetTime s ->
  forall loss max,
    reason (fst (RiskManager.checkOpenPosition now params positions balance s))
    <> Some (DailyLossLimitReached loss max).
Proof.
  intros Hvalid Hday loss max H. apply denial_violates in H.
  cbn [checkOf violates] in H.
  rewrite updateDailyPnl_rollover in H by exact Hday.
  cbn [RiskManager.dailyPnl Num.abs] in H.
  destruct (maxDailyLoss (RiskManager.config s)) as [m|] eqn:Hm;
    [|discriminate].
  cbn [Num.given Num.orElse] in H. unfold Num.or in H.
  destruct (Num.truthy m) eqn:Ht; [|discriminate]. cbn [andb] in H.
  pose proof (validateConfig_dailyLoss _ _ Hvalid Hm Ht) as L.
  unfold Num.ge in H.
  destruct m as [q| | |]; cbn in *; try discriminate.
  change (Qabs 0) with 0%Q in H. congruence.
Qed.

Lemma daily_limit_rearms_after_a_day_witness :
  RiskManager.dailyPnl
    (recordTrades [mkTradeCall 1000 1000 (Fin (-600))] sampleManager)
  = Fin (-600)
  /\ forall loss max,
       reason
         (fst (RiskManager.checkOpenPosition 86400000
                 (mkOpenPositionParams "BTC" "long" None (Some (Fin 100)) None
                    None None None None None None None None)
                 [] (Fin 100000)
                 (recordTrades [mkTradeCall 1000 1000 (Fin (-600))] sampleManager)))
       <> Some (DailyLossLimitReached loss max).
Proof.
  split; [reflexivity|].
  apply daily_limit_rearms_after_a_day; [reflexivity|].
  vm_compute. discriminate.
Defined.

Lemma findPosition_existsb c positions :
  RiskManager.findPosition c positions = None
  <-> existsb (fun p => String.eqb (pos_coin p) c) positions = false.
Proof.
  unfold RiskManager.findPosition.
  induction positions as [|p ps IH]; cbn; [tauto|].
  destruct (String.eqb (pos_coin p) c); cbn; [split; discriminate|exact IH].
Qed.

(** X5. The limit on open positions compares coins as they are spelt: with
    as many positions as the limit allows, an intent is denied unless one of
    them bears exactly the intent's coin; it is then never denied for the
    count. *)
Theorem position_count_compares_coins_exactly
    (now : Z) (params : OpenPositionParams) (positions : list Position)
    (balance : number) (s : RiskManager.t) :
  maxOpenPositions (RiskManager.config s) = Some (Num.ofNat (length positions)) ->
  (0 < length positions)%nat ->
  let result := fst (RiskManager.checkOpenPosition now params positions balance s) in
  (existsb (fun p => String.eqb (pos_coin p) (coin params)) positions = false ->
   allowed result = false)
  /\ (existsb (fun p => String.eqb (pos_coin p) (coin params)) positions = true ->
      forall max, reason result <> Some (AtMaximumOpenPositions max)).
Proof.
  intros Hmax Hn result.
  pose proof (findPosition_existsb (coin params) positions) as F.
  assert (V : violates now params positions balance s CheckOpenPositions
              = match RiskManager.findPosition (coin params) positions with
                | Some _ => false
                | None => true
                end).
  { cbn [violates]. rewrite Hmax. cbn [Num.given Num.orElse]. unfold Num.or.
    rewrite (ofNat_truthy _ Hn). cbn [andb]. rewrite ofNat_gt.
    destruct (RiskManager.findPosition _ _).
    - apply Nat.ltb_irrefl.
    - apply Nat.ltb_lt. lia. }
  split.
  - intros E. apply F in E. rewrite E in V.
    exact (violation_denied _ _ _ _ _ _ V).
  - intros E max H. apply denial_violates in H. cbn [checkOf] in H.
    rewrite V in H. destruct F as [F _].
    destruct (RiskManager.findPosition _ _); [discriminate|].
    specialize (F eq_refl). congruence.
Qed.

(** Holding BTC at a limit of one position, an intent for ["btc"] is
    denied. *)
Lemma position_count_compares_coins_exactly_witness :
  allowed
    (fst (RiskManager.checkOpenPosition 0
            (mkOpenPositionParams "btc" "long" None (Some (Fin 100)) None
               None None None None None None None None)
            [mkPosition "BTC" Long (Fin 1) (Fin 100) (Fin 100) (Fin 1) (Fin 0)
               (Fin 0) None]
            (Fin 100000)
            (RiskManager.mk
               (mkRiskConfig (Fin 10) (Fin 1000) None None None (Some (Fin 1)))
               Num.zero 0 [])))
  = false.
Proof.
  apply (position_count_compares_coins_exactly 0
           (mkOpenPositionParams "btc" "long" None (Some (Fin 100)) None
              None None None None None None None None)
           [mkPosition "BTC" Long (Fin 1) (Fin 100) (Fin 100) (Fin 1) (Fin 0)
              (Fin 0) None]);
    [reflexivity|cbn; lia|reflexivity].
Defined.

Lemma validateConfig_idem c c' :
  RiskManager.validateConfig c = inr c' -> RiskManager.validateConfig c' = inr c'.
Proof. intros H. pose proof (validateConfig_returns _ _ H). now subst. Qed.

Lemma mergeConfig_idem c p :
  RiskManager.mergeConfig (RiskManager.mergeConfig c p) p = RiskManager.mergeConfig c p.
Proof.
  unfold RiskManager.mergeConfig. cbn.
  destruct (p_maxLeverage p), (p_maxPositionSizeUsd p), (p_maxDailyLoss p),
    (p_maxDrawdownPercent p), (p_requireStopLoss p), (p_maxOpenPositions p);
    reflexivity.
Qed.

(** X6. [updateConfig] touches nothing but the config, and repeating an
    update changes nothing more: the second call answers as the first did
    and leaves the manager as the first left it. *)
Theorem updateConfig_idempotent (p : PartialRiskConfig) (s : RiskManager.t) :
  let s1 := snd (RiskManager.updateConfig p s) in
  RiskManager.updateConfig p s1 = (fst (RiskManager.updateConfig p s), s1)
  /\ RiskManager.dailyPnl s1 = RiskManager.dailyPnl s
  /\ RiskManager.dailyPnlResetTime s1 = RiskManager.dailyPnlResetTime s
  /\ RiskManager.tradesLog s1 = RiskManager.tradesLog s.
Proof.
  unfold RiskManager.updateConfig.
  destruct (RiskManager.validateConfig
              (RiskManager.mergeConfig (RiskManager.config s) p)) as [e|c] eqn:V;
    cbn [fst snd].
  - rewrite V. auto.
  - pose proof (validateConfig_returns _ _ V) as ->.
    cbn [RiskManager.config RiskManager.dailyPnl RiskManager.dailyPnlResetTime
         RiskManager.tradesLog].
    rewrite mergeConfig_idem, V. auto.
Qed.

(** X7. Validation lets NaN through: a valid config stays valid when its
    [maxLeverage] or its [maxPositionSizeUsd] is replaced by NaN, and a
    manager with such a limit never denies an intent for it. *)
Theorem validateConfig_accepts_NaN (c : RiskConfig) :
  RiskManager.validateConfig c = inr c ->
  (exists c',
     maxLeverage c' = NaN
     /\ RiskManager.validateConfig
          (mkRiskConfig NaN (maxPositionSizeUsd c) (maxDailyLoss c)
             (maxDrawdownPercent c) (requireStopLoss c) (maxOpenPositions c))
        = inr c')
  /\ (exists c',
        maxPositionSizeUsd c' = NaN
        /\ RiskManager.validateConfig
             (mkRiskConfig (maxLeverage c) NaN (maxDailyLoss c)
                (maxDrawdownPercent c) (requireStopLoss c) (maxOpenPositions c))
           = inr c')
  /\ (forall now params positions balance s,
        maxLeverage (RiskManager.config s) = NaN ->
        forall lev max,
          reason (fst (RiskManager.checkOpenPosition now params positions balance s))
          <> Some (LeverageExceedsMaximum lev max))
  /\ (forall now params positions balance s,
        maxPositionSizeUsd (RiskManager.config s) = NaN ->
        forall size max,
          reason (fst (RiskManager.checkOpenPosition now params positions balance s))
          <> Some (PositionSizeExceedsMaximum size max)).
Proof.
  intros H.
  assert (T : ((maxLeverage c <=? Num.zero)%num || (maxLeverage c >? Num.ofZ 50)%num
               = false)
              /\ (maxPositionSizeUsd c <=? Num.zero)%num = false
              /\ forall l z,
                   RiskManager.validateConfig
                     (mkRiskConfig l z (maxDailyLoss c) (maxDrawdownPercent c)
                        (requireStopLoss c) (maxOpenPositions c))
                   = if (l <=? Num.zero)%num || (l >? Num.ofZ 50)%num
                     then inl BadMaxLeverage
                     else if (z <=? Num.zero)%num then inl BadMaxPositionSizeUsd
                     else inr (mkRiskConfig l z (maxDailyLoss c)
                                 (maxDrawdownPercent c) (requireStopLoss c)
                                 (maxOpenPositions c))).
  { unfold RiskManager.validateConfig in *.
    cbn [maxLeverage maxPositionSizeUsd maxDailyLoss maxDrawdownPercent
         requireStopLoss maxOpenPositions].
    destruct ((maxLeverage c <=? Num.zero)%num || (maxLeverage c >? Num.ofZ 50)%num);
      [discriminate|].
    destruct (maxPositionSizeUsd c <=? Num.zero)%num; [discriminate|].
    destruct (match maxDailyLoss c with Some _ => _ | None => _ end);
      [discriminate|].
    destruct (match maxDrawdownPercent c with Some _ => _ | None => _ end);
      [discriminate|].
    destruct (match maxOpenPositions c with Some _ => _ | None => _ end);
      [discriminate|].
    auto. }
  destruct T as [T1 [T2 T3]].
  split; [eexists; split; [|rewrite T3, T2; reflexivity]; reflexivity|].
  split; [eexists; split; [|rewrite T3, T1; reflexivity]; reflexivity|].
  split.
  - intros now params positions balance s E lev max R.
    apply denial_violates in R. cbn [checkOf violates] in R. rewrite E in R.
    unfold Num.gt in R. cbn in R. rewrite andb_false_r in R. discriminate.
  - intros now params positions balance s E size max R.
    apply denial_violates in R. cbn [checkOf violates] in R. rewrite E in R.
    unfold Num.gt in R. cbn in R. discriminate.
Qed.

Lemma validateConfig_accepts_NaN_witness :
  RiskManager.validateConfig sampleConfig = inr sampleConfig
  /\ forall lev max,
       reason
         (fst (RiskManager.checkOpenPosition 0
                 (mkOpenPositionParams "BTC" "long" None (Some (Fin 100)) None
                    (Some (Fin 1000)) None None None None None None None)
                 [] (Fin 100000)
                 (RiskManager.mk
                    (mkRiskConfig NaN (Fin 1000) None None None None)
                    Num.zero 0 [])))
       <> Some (LeverageExceedsMaximum lev max).
Proof.
  split; [reflexivity|].
  apply (proj1 (proj2 (proj2 (validateConfig_accepts_NaN sampleConfig eq_refl)))).
  reflexivity.
Defined.

(** *** Statistics *)

(** With one reading of the clock for every entry, the filter of
    [getStats] is a plain filter. *)
Lemma filterRecent_constant (t : Z) (l : list TradeEntry) : forall i,
  RiskManager.filterRecent (fun _ => t) i l
  = filter (fun e => t - timestamp e <? 86400000) l.
Proof.
  induction l as [|e l IH]; intros i; cbn [RiskManager.filterRecent filter];
    [reflexivity|].
  change RiskManager.dayMs with 86400000. rewrite (IH (S i)). reflexivity.
Qed.

Lemma filter_length_le {A} (f : A -> bool) l :
  (length (filter f l) <= length l)%nat.
Proof. induction l as [|x l IH]; cbn; [lia|]. destruct (f x); cbn; lia. Qed.

(** A share [w / n] of [n] as a percentage, in doubles, is between 0 and
    100. *)
Lemma percentage_bounds (w n : nat) :
  (0 < n)%nat -> (w <= n)%nat ->
  let p := (Num.ofNat w / Num.ofNat n * Num.ofZ 100)%num in
  (Num.zero <=? p)%num = true /\ (p <=? Num.ofZ 100)%num = true.
Proof.
  intros Hn Hw. unfold Num.ofNat, Num.ofZ. cbn [Num.div].
  destruct (Qeq_bool (inject_Z (Z.of_nat n)) 0) eqn:E.
  { apply Qeq_bool_eq in E. unfold Qeq in E. cbn in E. lia. }
  assert (P : (0 < inject_Z (Z.of_nat n))%Q).
  { change 0%Q with (inject_Z 0). rewrite <- Zlt_Qlt. lia. }
  assert (A : (0 <= inject_Z (Z.of_nat w))%Q).
  { change 0%Q with (inject_Z 0). rewrite <- Zle_Qle. lia. }
  assert (B : (inject_Z (Z.of_nat w) <= inject_Z (Z.of_nat n))%Q).
  { rewrite <- Zle_Qle. lia. }
  set (a := inject_Z (Z.of_nat w)) in *.
  set (b := inject_Z (Z.of_nat n)) in *.
  clearbody a b.
  assert (Q0 : (0 <= a / b)%Q).
  { apply Qle_shift_div_l; [exact P|]. lra. }
  assert (Q1 : (a / b <= inject_Z 1)%Q).
  { apply Qle_shift_div_r; [exact P|]. change (inject_Z 1) with 1%Q. lra. }
  pose proof (round64_nonneg _ Q0) as R0.
  pose proof (round64_le_int _ 1 ltac:(reflexivity) Q1 ltac:(discriminate)) as R1.
  destruct (Num.round64 (a / b)) as [x| | |]; try discriminate R1;
    try discriminate R0.
  unfold Num.lt, Num.le, Num.zero, Num.ofZ, Num.Qlt_bool in R0, R1.
  apply negb_false_iff, Qle_bool_iff in R0. apply Qle_bool_iff in R1.
  change (inject_Z 1) with 1%Q in R1.
  cbn [Num.mul].
  assert (X0 : (0 <= x * inject_Z 100)%Q).
  { apply Qmult_le_0_compat; [exact R0|discriminate]. }
  assert (X1 : (x * inject_Z 100 <= inject_Z 100)%Q).
  { change (inject_Z 100) with 100%Q. lra. }
  pose proof (round64_nonneg _ X0) as S0.
  pose proof (round64_le_int _ 100 ltac:(reflexivity) X1 ltac:(discriminate)) as S1.
  split; [|exact S1].
  destruct (Num.round64 (x * inject_Z 100)) as [y| | |]; try discriminate S1;
    try discriminate S0.
  unfold Num.lt, Num.le, Num.zero, Num.Qlt_bool in *.
  now apply negb_false_iff in S0.
Qed.

Lemma fold_pnl (l : list TradeEntry) : forall a,
  fold_left (fun sum e => (sum + pnl e)%num) l a
  = fold_left Num.add (map pnl l) a.
Proof. induction l as [|e l IH]; intros a; cbn; [reflexivity|apply IH]. Qed.

(** X8. With one reading [t] of the clock, [getStats] reports the logged
    trades less than 24 hours (86400000 ms) older than [t]: their number,
    the running double sum of their pnl, in the order of the log, over
    their number, and the share of those with a pnl above 0 as a
    percentage, which is between 0 and 100; with no such trade the average
    and the win rate are 0.  The daily PnL is the one of the window at
    [now], and the log is left as it was. *)
Theorem getStats_counts_recent_trades (now t : Z) (s : RiskManager.t) :
  let st := fst (RiskManager.getStats now (fun _ => t) s) in
  let recent :=
    filter (fun e => t - timestamp e <? 86400000) (RiskManager.tradesLog s) in
  let wins := filter (fun e => (pnl e >? Num.zero)%num) recent in
  st_totalTrades st = length recent
  /\ (length wins <= length recent <= length (RiskManager.tradesLog s))%nat
  /\ st_avgPnl st
     = (if (0 <? length recent)%nat
        then (fold_left Num.add (map pnl recent) Num.zero
              / Num.ofNat (length recent))%num
        else Num.zero)
  /\ st_winRate st
     = (if (0 <? length recent)%nat
        then (Num.ofNat (length wins) / Num.ofNat (length recent)
              * Num.ofZ 100)%num
        else Num.zero)
  /\ (Num.zero <=? st_winRate st)%num = true
  /\ (st_winRate st <=? Num.ofZ 100)%num = true
  /\ st_dailyPnl st
     = RiskManager.dailyPnl (RiskManager.updateDailyPnl now s)
  /\ RiskManager.tradesLog (snd (RiskManager.getStats now (fun _ => t) s))
     = RiskManager.tradesLog s.
Proof.
  unfold RiskManager.getStats.
  cbn [fst snd st_totalTrades st_winRate st_avgPnl st_dailyPnl].
  rewrite updateDailyPnl_tradesLog, filterRecent_constant.
  set (recent := filter _ (RiskManager.tradesLog s)).
  set (wins := filter _ recent).
  assert (W : (length wins <= length recent)%nat) by apply filter_length_le.
  rewrite fold_pnl.
  split; [reflexivity|].
  split; [split; [exact W|apply filter_length_le]|].
  split; [reflexivity|]. split; [reflexivity|].
  split; [|split; [|split; reflexivity]].
  - destruct (Nat.ltb_spec 0 (length recent)) as [L|L]; [|reflexivity].
    apply (percentage_bounds _ _ L W).
  - destruct (Nat.ltb_spec 0 (length recent)) as [L|L]; [|reflexivity].
    apply (percentage_bounds _ _ L W).
Qed.

(** *** The risk of a position *)

Lemma Qabs_zero_iff q : Qeq_bool (Qabs q) 0 = Qeq_bool q 0.
Proof.
  destruct (Qeq_bool q 0) eqn:E.
  - apply Qeq_bool_eq in E. apply Qeq_bool_iff. rewrite E. reflexivity.
  - destruct (Qeq_bool (Qabs q) 0) eqn:E'; [|reflexivity].
    apply Qeq_bool_eq in E'. apply Qeq_bool_neq in E. exfalso. apply E.
    revert E'. apply Qabs_case; intros; lra.
Qed.

(** X10. Without a stop-loss a position has a risk amount of 0 and no reward
    ratio; without a take-profit it has no reward ratio either: a reward
    ratio is only given with both.  A stop or a target of 0 counts as
    absent. *)
Theorem calculatePositionRisk_without_stops (position : PositionWithStops) :
  (Num.given (stopLoss position) = false ->
   riskAmount (calculatePositionRisk position) = Num.zero
   /\ rewardRatio (calculatePositionRisk position) = None)
  /\ (Num.given (takeProfit position) = false ->
      rewardRatio (calculatePositionRisk position) = None)
  /\ (forall ratio,
        rewardRatio (calculatePositionRisk position) = Some ratio ->
        Num.given (stopLoss position) = true
        /\ Num.given (takeProfit position) = true).
Proof.
  unfold calculatePositionRisk. rewrite !whenSet_given.
  cbn [riskAmount rewardRatio].
  assert (Z : (Num.zero >? Num.zero)%num = false) by reflexivity.
  destruct (Num.given (stopLoss position)), (Num.given (takeProfit position));
    rewrite ?Z, ?andb_false_r; cbn [andb];
    repeat split; try discriminate; try reflexivity; auto.
Qed.

(** ** The asset maps *)

Lemma upperChar_idem c : Str.upperChar (Str.upperChar c) = Str.upperChar c.
Proof.
  destruct c as [[] [] [] [] [] [] [] []]; reflexivity.
Qed.

Lemma toUpperCase_idem s : Str.toUpperCase (Str.toUpperCase s) = Str.toUpperCase s.
Proof.
  induction s as [|c s IH]; [reflexivity|].
  cbn. rewrite upperChar_idem. f_equal. exact IH.
Qed.

Lemma Dict_get_set_same {A} k (v : A) d : Dict.get k (Dict.set k v d) = Some v.
Proof.
  induction d as [|[k' x] d IH]; cbn.
  - now rewrite String.eqb_refl.
  - destruct (String.eqb k' k) eqn:E; cbn; rewrite E; [reflexivity|exact IH].
Qed.

Lemma Dict_get_set_other {A} k k' (v : A) d :
  k <> k' -> Dict.get k' (Dict.set k v d) = Dict.get k' d.
Proof.
  intros N. induction d as [|[k0 x] d IH]; cbn.
  - destruct (String.eqb_spec k k'); [contradiction|reflexivity].
  - destruct (String.eqb_spec k0 k) as [->|]; cbn.
    + destruct (String.eqb_spec k k'); [contradiction|reflexivity].
    + destruct (String.eqb k0 k'); [reflexivity|exact IH].
Qed.

(** What stands under a key of the perp map: the asset of that name that
    comes last in the universe, with its place there. *)
Lemma buildAssetMap_get universe : forall i m k info,
  Dict.get k (buildAssetMap i universe m) = Some info ->
  (Dict.get k m = Some info /\ Forall (fun a => pa_name a <> k) universe)
  \/ exists j a,
       nth_error universe j = Some a
       /\ pa_name a = k
       /\ info = mkPerpInfo (i + Z.of_nat j) (pa_szDecimals a)
       /\ forall j' a', (j < j')%nat -> nth_error universe j' = Some a' ->
                        pa_name a' <> k.
Proof.
  induction universe as [|a rest IH]; intros i m k info H; cbn in H.
  - left. split; [exact H|constructor].
  - destruct (IH _ _ _ _ H) as [[G F]|[j [a' [Hn [Hk [Hi Hl]]]]]].
    + destruct (String.eqb_spec (pa_name a) k) as [E|N].
      * right. exists 0%nat, a. rewrite E, Dict_get_set_same in G.
        injection G as <-. rewrite Z.add_0_r.
        repeat split; auto.
        intros [|j'] a' L Hn; [lia|]. cbn in Hn.
        rewrite Forall_forall in F.
        apply F. eapply nth_error_In; eauto.
      * left. rewrite Dict_get_set_other in G by exact N.
        split; [exact G|]. constructor; assumption.
    + right. exists (S j), a'. cbn [nth_error].
      repeat split; auto.
      * rewrite Hi. f_equal. lia.
      * intros [|j'] a'' L Hn'; [lia|]. cbn in Hn'.
        apply (Hl j'); [lia|exact Hn'].
Qed.

(** X11. A perp asset is found under the upper-case form of the coin, among
    the names of the universe as the exchange spells them: the lookup
    returns the place in the universe of the last asset so named and its
    size decimals, and an asset whose name is not its own upper-case form
    is never returned. *)
Theorem getAssetIndex_perp_place
    (coin : string) (env : Env) (w w' : World) (ai : AssetIndex) :
  assetMap (toolkit w) = None ->
  getAssetIndex coin "perp" env w = (Returned ai, w') ->
  exists universe j a,
    ex_meta (exchange env) (history w) = Resolved universe
    /\ nth_error universe j = Some a
    /\ index ai = Z.of_nat j
    /\ szDecimals ai = pa_szDecimals a
    /\ pairName ai = coin
    /\ pa_name a = Str.toUpperCase coin
    /\ Str.toUpperCase (pa_name a) = pa_name a
    /\ forall j' a', (j < j')%nat -> nth_error universe j' = Some a' ->
                     pa_name a' <> Str.toUpperCase coin.
Proof.
  intros Hmap Hrun.
  unfold getAssetIndex in Hrun. cbn [String.eqb Ascii.eqb Bool.eqb] in Hrun.
  unfold bind, getToolkit in Hrun. rewrite Hmap in Hrun.
  unfold InfoClient.meta, request, bind, setToolkit, ret in Hrun.
  destruct (ex_meta (exchange env) (history w)) as [universe|msg] eqn:Ex;
    [|discriminate].
  cbn [toolkit history ticks] in Hrun.
  destruct (Dict.get (Str.toUpperCase coin) (buildAssetMap 0 universe []))
    as [info|] eqn:G; [|discriminate].
  injection Hrun as <- _.
  destruct (buildAssetMap_get _ _ _ _ _ G) as [[G0 _]|[j [a [Hn [Hk [Hi Hl]]]]]];
    [discriminate|].
  exists universe, j, a. subst info. cbn.
  repeat split; auto.
  rewrite Hk. apply toUpperCase_idem.
Qed.

Lemma getAssetIndex_perp_place_witness :
  exists universe j a,
    ex_meta (exchange (sampleEnv filledStatus)) (history sampleWorld)
    = Resolved universe
    /\ nth_error universe j = Some a
    /\ index (mkAssetIndex 1 "doge" 0) = Z.of_nat j
    /\ szDecimals (mkAssetIndex 1 "doge" 0) = pa_szDecimals a
    /\ pairName (mkAssetIndex 1 "doge" 0) = "doge"%string
    /\ pa_name a = Str.toUpperCase "doge"
    /\ Str.toUpperCase (pa_name a) = pa_name a
    /\ forall j' a', (j < j')%nat -> nth_error universe j' = Some a' ->
                     pa_name a' <> Str.toUpperCase "doge".
Proof.
  eapply (getAssetIndex_perp_place "doge" (sampleEnv filledStatus) sampleWorld).
  - reflexivity.
  - vm_compute. reflexivity.
Defined.

(** X12. The perp universe is fetched once: a lookup that finds no map sends
    one request for it and keeps the answer, whether or not the coin is in
    it; a lookup that finds a map sends nothing, changes nothing, and
    answers from that map. *)
Theorem getAssetIndex_perp_cached
    (coin later : string) (env : Env) (w : World) (universe : list PerpAsset) :
  assetMap (toolkit w) = None ->
  ex_meta (exchange env) (history w) = Resolved universe ->
  let w1 := snd (getAssetIndex coin "perp" env w) in
  history w1 = history w ++ [Sent Meta]
  /\ assetMap (toolkit w1) = Some (buildAssetMap 0 universe [])
  /\ snd (getAssetIndex later "perp" env w1) = w1
  /\ fst (getAssetIndex later "perp" env w1)
     = match Dict.get (Str.toUpperCase later) (buildAssetMap 0 universe []) with
       | Some info =>
           Returned (mkAssetIndex (perp_index info) later (perp_szDecimals info))
       | None => Threw ("Unknown perp asset: " ++ later)
       end.
Proof.
  intros Hmap Hex.
  assert (First : snd (getAssetIndex coin "perp" env w)
                  = mkWorld
                      (mkToolkit (address (toolkit w)) (riskManager (toolkit w))
                         (defaultSlippage (toolkit w))
                         (Some (buildAssetMap 0 universe []))
                         (spotAssetMap (toolkit w)))
                      (history w ++ [Sent Meta]) (ticks w)).
  { unfold getAssetIndex. cbn [String.eqb Ascii.eqb Bool.eqb].
    unfold bind, getToolkit. rewrite Hmap.
    unfold InfoClient.meta, request, bind, setToolkit, ret. rewrite Hex.
    cbn [toolkit history ticks].
    destruct (Dict.get _ _); reflexivity. }
  cbv zeta. rewrite First. cbn [history toolkit assetMap].
  split; [reflexivity|]. split; [reflexivity|].
  unfold getAssetIndex. cbn [String.eqb Ascii.eqb Bool.eqb].
  unfold bind, getToolkit. cbn [toolkit assetMap]. unfold ret.
  destruct (Dict.get _ _); split; reflexivity.
Qed.

Lemma getAssetIndex_perp_cached_witness :
  snd (getAssetIndex "BTC" "perp" (sampleEnv filledStatus)
         (snd (getAssetIndex "ETH" "perp" (sampleEnv filledStatus) sampleWorld)))
  = snd (getAssetIndex "ETH" "perp" (sampleEnv filledStatus) sampleWorld).
Proof.
  refine (proj1 (proj2 (proj2
            (getAssetIndex_perp_cached "ETH" "BTC" (sampleEnv filledStatus)
               sampleWorld _ eq_refl eq_refl)))).
Defined.

(** What stands under a key of the spot map: a pair of the universe whose
    base token is known, under the name of the pair or of the token. *)
Lemma buildSpotAssetMap_get toks pairs : forall m k info,
  Dict.get k (fold_left (addSpotPair toks) pairs m) = Some info ->
  Dict.get k m = Some info
  \/ exists pair tok,
       In pair pairs
       /\ tokenByIndex toks (pair_base pair) = Some tok
       /\ info = mkSpotInfo (pair_index pair) (pair_name pair) (tok_szDecimals tok)
       /\ (k = Str.toUpperCase (tok_name tok)
           \/ k = Str.toUpperCase (pair_name pair)).
Proof.
  induction pairs as [|pair rest IH]; intros m k info H; cbn [fold_left] in H.
  - now left.
  - destruct (IH _ _ _ H) as [G|[pair' [tok [Hin Hrest]]]].
    + unfold addSpotPair in G.
      destruct (tokenByIndex toks (pair_base pair)) as [tok|] eqn:T; [|now left].
      destruct (String.eqb_spec (Str.toUpperCase (pair_name pair)) k) as [E|N].
      * right. exists pair, tok. rewrite E, Dict_get_set_same in G.
        injection G as <-. cbn [In]. auto 6.
      * rewrite Dict_get_set_other in G by exact N.
        destruct (Dict.get (Str.toUpperCase (tok_name tok)) m) eqn:D; [now left|].
        destruct (String.eqb_spec (Str.toUpperCase (tok_name tok)) k) as [E|N'].
        -- right. exists pair, tok. rewrite E, Dict_get_set_same in G.
           injection G as <-. cbn [In]. auto 6.
        -- rewrite Dict_get_set_other in G by exact N'. now left.
    + right. exists pair', tok. cbn [In]. tauto.
Qed.

(** X13. A spot asset is found under the upper-case name of a base token or
    of a pair: the lookup returns 10000 plus the index of a pair of the
    universe, the name of that pair, and the size decimals of its base
    token; the coin is never matched against the quote token of a pair. *)
Theorem getAssetIndex_spot_pair
    (coin : string) (env : Env) (w w' : World) (ai : AssetIndex) :
  spotAssetMap (toolkit w) = None ->
  getAssetIndex coin "spot" env w = (Returned ai, w') ->
  exists meta pair tok,
    ex_spotMeta (exchange env) (history w) = Resolved meta
    /\ In pair (spotUniverse meta)
    /\ tokenByIndex (tokens meta) (pair_base pair) = Some tok
    /\ index ai = 10000 + pair_index pair
    /\ pairName ai = pair_name pair
    /\ szDecimals ai = tok_szDecimals tok
    /\ (Str.toUpperCase coin = Str.toUpperCase (tok_name tok)
        \/ Str.toUpperCase coin = Str.toUpperCase (pair_name pair)).
Proof.
  intros Hmap Hrun.
  assert (Run : fst (getAssetIndex coin "spot" env w)
                = match ex_spotMeta (exchange env) (history w) with
                  | Resolved meta =>
                      match Dict.get (Str.toUpperCase coin) (buildSpotAssetMap meta) with
                      | Some info =>
                          Returned (mkAssetIndex (10000 + spot_index info)
                                      (spot_pairName info) (spot_szDecimals info))
                      | None =>
                          Threw ("Unknown spot asset: " ++ coin
                                 ++ ". Available tokens: "
                                 ++ Str.join ", "
                                      (firstn 20 (Dict.keys (buildSpotAssetMap meta)))
                                 ++ "...")
                      end
                  | Rejected msg => Threw msg
                  end).
  { unfold getAssetIndex. cbn [String.eqb Ascii.eqb Bool.eqb].
    unfold bind, getToolkit. rewrite Hmap.
    unfold InfoClient.spotMeta, request, bind, setToolkit, ret.
    destruct (ex_spotMeta (exchange env) (history w)) as [meta|msg];
      [|reflexivity].
    cbn [toolkit history ticks].
    destruct (Dict.get _ _); reflexivity. }
  rewrite Hrun in Run. cbn [fst] in Run. clear Hrun.
  destruct (ex_spotMeta (exchange env) (history w)) as [meta|msg];
    [|congruence].
  destruct (Dict.get (Str.toUpperCase coin) (buildSpotAssetMap meta))
    as [info|] eqn:G; [|congruence].
  assert (E : ai = mkAssetIndex (10000 + spot_index info) (spot_pairName info)
                     (spot_szDecimals info)) by congruence.
  clear Run. subst ai.
  destruct (buildSpotAssetMap_get _ _ _ _ _ G)
    as [G0|[pair [tok [Hin [Ht [Hi Hk]]]]]]; [discriminate G0|].
  exists meta, pair, tok. subst info.
  cbn [index pairName szDecimals spot_index spot_pairName spot_szDecimals].
  repeat split; auto.
Qed.

Lemma getAssetIndex_spot_pair_witness :
  exists meta pair tok,
    ex_spotMeta (exchange (sampleEnv filledStatus)) (history sampleWorld)
    = Resolved meta
    /\ In pair (spotUniverse meta)
    /\ tokenByIndex (tokens meta) (pair_base pair) = Some tok
    /\ index (mkAssetIndex 10000 "PURR/USDC" 0) = 10000 + pair_index pair
    /\ pairName (mkAssetIndex 10000 "PURR/USDC" 0) = pair_name pair
    /\ szDecimals (mkAssetIndex 10000 "PURR/USDC" 0) = tok_szDecimals tok
    /\ (Str.toUpperCase "purr" = Str.toUpperCase (tok_name tok)
        \/ Str.toUpperCase "purr" = Str.toUpperCase (pair_name pair)).
Proof.
  eapply (getAssetIndex_spot_pair "purr" (sampleEnv filledStatus) sampleWorld).
  - reflexivity.
  - vm_compute. reflexivity.
Defined.

(** ** What the trading actions send *)

(** X14. An [openPosition] for the spot market sets no leverage and places no
    stop-loss or take-profit order, whatever the caller asked for: it
    fetches the spot metadata and a book, sends its entry order and writes
    to the console, and nothing else. *)
Theorem spot_order_sends_only_its_entry
    (params : OpenPositionParams) (env : Env) (w : World) :
  marketOf params = "spot"%string ->
  exists evs,
    added w (snd (openPosition params env w)) evs
    /\ Forall (spotEvent params) evs.
Proof.
  intros Hspot.
  assert (Hperp : marketOf params <> "perp"%string)
    by (rewrite Hspot; discriminate).
  pose proof (sent_openPosition env
                (since w (spotEvent params) (fun _ => True))
                (spotEvent params) (fun _ => True)) as K.
  specialize (K (since_tick _ _ _) (fun e w' => since_record _ _ _ e w')).
  specialize (K (since_store _ _ _) (since_toolkit _ _ _)).
  specialize (K (fun _ _ _ => Logic.I) (fun _ _ _ => Logic.I) params).
  specialize (K (fun P => False_ind _ (Hperp P)) (fun _ => Logic.I)).
  specialize (K (fun _ => eq_refl)).
  specialize (K (fun N => False_ind _ (N Hspot))).
  assert (En : forall tif a price size,
             spotEvent params
               (Sent (PlaceOrder
                        (limitOrder tif a (isBuyOrder params) price size false)))).
  { intros tif a price size. exists tif, a, price, size. reflexivity. }
  specialize (K En (fun N => False_ind _ (N Hspot))
                (fun N => False_ind _ (N Hspot)) (fun _ => Logic.I)).
  specialize (K (fun P => False_ind _ (Hperp P)) (fun P => False_ind _ (Hperp P))
                (fun P => False_ind _ (Hperp P)) (fun P => False_ind _ (Hperp P))).
  destruct (K w (since_start _ _ _ Logic.I)) as [[H _] _]. exact H.
Qed.

Lemma spot_order_sends_only_its_entry_witness :
  exists evs,
    added sampleWorld
      (snd (openPosition
              (mkOpenPositionParams "PURR" "buy" (Some "spot"%string) (Some (Fin 100))
                 None (Some (Fin 5)) None (Some (Fin 2)) None (Some (Fin 4))
                 None None None)
              (sampleEnv filledStatus) sampleWorld))
      evs
    /\ Forall
         (spotEvent
            (mkOpenPositionParams "PURR" "buy" (Some "spot"%string) (Some (Fin 100))
               None (Some (Fin 5)) None (Some (Fin 2)) None (Some (Fin 4))
               None None None))
         evs.
Proof.
  apply spot_order_sends_only_its_entry. reflexivity.
Defined.

(** X15. Whenever [openPosition] sets the leverage it sets cross margin at
    the leverage asked for, and at 1 when none, or 0, was asked for; and
    every order it sends is its entry order or a reduce-only trigger order
    on the other side. *)
Theorem openPosition_leverage_and_orders
    (params : OpenPositionParams) (env : Env) (w : World) :
  exists evs,
    added w (snd (openPosition params env w)) evs
    /\ Forall (openEvent params) evs.
Proof.
  pose proof (sent_openPosition env
                (since w (openEvent params) (fun _ => True))
                (openEvent params) (fun _ => True)) as K.
  specialize (K (since_tick _ _ _) (fun e w' => since_record _ _ _ e w')).
  specialize (K (since_store _ _ _) (since_toolkit _ _ _)).
  specialize (K (fun _ _ _ => Logic.I) (fun _ _ _ => Logic.I) params).
  specialize (K (fun _ => Logic.I) (fun _ => Logic.I) (fun _ => Logic.I)).
  specialize (K (fun _ _ => conj eq_refl eq_refl)).
  assert (En : forall tif a price size,
             openEvent params
               (Sent (PlaceOrder
                        (limitOrder tif a (isBuyOrder params) price size false)))).
  { intros tif a price size. left. exists tif, a, price, size. reflexivity. }
  assert (Tr : forall kind a price size,
             openEvent params
               (Sent (PlaceOrder
                        (triggerOrder kind a (negb (isBuyOrder params)) price size)))).
  { intros kind a price size. right. exists kind, a, price, size. reflexivity. }
  specialize (K En (fun _ => Logic.I) (fun _ => Tr) (fun _ => Logic.I)).
  specialize (K (fun _ _ => Logic.I) (fun _ => Logic.I) (fun _ _ _ => Logic.I)
                (fun _ _ _ _ => Logic.I)).
  destruct (K w (since_start _ _ _ Logic.I)) as [[H _] _]. exact H.
Qed.

(** X16. A partial close is not recorded: when [closePosition] is asked for
    a share other than 100 percent, the risk manager comes out as it went
    in, so the PnL of the close never reaches the daily PnL. *)
Theorem partial_close_is_not_recorded
    (params : ClosePositionParams) (env : Env) (w : World) :
  (closePercentOf params =? Num.ofZ 100)%num = false ->
  riskManager (toolkit (snd (closePosition params env w)))
  = riskManager (toolkit w).
Proof.
  intros Hpartial.
  pose proof (sent_closePosition env
                (since w (fun _ => True) (keepsRiskManager w))
                (fun _ => True) (keepsRiskManager w)) as K.
  specialize (K (since_tick _ _ _)).
  specialize (K (fun e w' _ => since_record _ _ _ e w' Logic.I)).
  specialize (K (since_store _ _ _) (since_toolkit _ _ _)).
  specialize (K (fun _ _ H => H) (fun _ _ H => H) params).
  specialize (K (fun _ => Logic.I) Logic.I Logic.I (fun _ => Logic.I)).
  specialize (K (fun _ => True) (fun _ _ _ _ _ _ _ _ _ => Logic.I)).
  specialize (K (fun _ _ _ _ _ => Logic.I)).
  assert (R : (closePercentOf params =? Num.ofZ 100)%num = true ->
              forall tk rm position now stamp,
                True -> keepsRiskManager w tk ->
                keepsRiskManager w
                  (mkToolkit (address tk)
                     (Some (RiskManager.recordTrade now stamp
                              (unrealizedPnl position) rm))
                     (defaultSlippage tk) (assetMap tk) (spotAssetMap tk))).
  { intros C. congruence. }
  specialize (K R).
  destruct (K w (since_start _ _ _ eq_refl)) as [[_ H] _]. exact H.
Qed.

Lemma partial_close_is_not_recorded_witness :
  riskManager
    (toolkit
       (snd (closePosition (mkClosePositionParams "BTC" (Some (Fin 50)) None)
               (sampleEnv filledStatus) sampleWorld)))
  = riskManager (toolkit sampleWorld).
Proof.
  apply partial_close_is_not_recorded. reflexivity.
Defined.





(** *** Positions *)

Lemma abs_not_zero x :
  (x =? Num.zero)%num = false ->
  (Num.abs x =? Num.zero)%num = false /\ (Num.abs x <? Num.zero)%num = false.
Proof.
  destruct x as [q| | |]; cbn; auto.
  intros H. rewrite Qabs_zero_iff. split; [exact H|].
  unfold Num.Qlt_bool. apply negb_false_iff, Qle_bool_iff, Qabs_nonneg.
Qed.

(** How a position of [getPositions] is made of an asset position of the
    account. *)
Lemma positionsOf_each mids state :
  Forall2
    (fun ap p =>
       (szi ap =? Num.zero)%num = false
       /\ pos_coin p = ap_coin ap
       /\ pos_size p = Num.abs (szi ap)
       /\ pos_side p = (if (szi ap >? Num.zero)%num then Long else Short)
       /\ pos_entryPrice p = entryPx ap
       /\ pos_currentPrice p = midOf mids (ap_coin ap)
       /\ unrealizedPnl p = ap_unrealizedPnl ap
       /\ (pos_size p =? Num.zero)%num = false
       /\ (pos_size p <? Num.zero)%num = false)
    (filter (fun ap => negb (szi ap =? Num.zero)%num) (assetPositions state))
    (positionsOf mids state).
Proof.
  unfold positionsOf.
  induction (assetPositions state) as [|ap l IH]; cbn [filter map];
    [constructor|].
  destruct (szi ap =? Num.zero)%num eqn:Z; cbn [negb map]; [exact IH|].
  constructor; [|exact IH].
  destruct (abs_not_zero _ Z) as [A B].
  cbn. repeat split; assumption.
Qed.

(** X18. [getPositions] never throws and leaves the toolkit as it was.  It
    asks for the clearinghouse state of the toolkit's address and then for
    the mids, and of the replies it returns one position for every asset
    position of the account whose size is not zero, in their order: the
    coin, the absolute value of the size, long for a size above 0 and short
    otherwise, the entry price, the mid of the coin as the current price
    (0 without one) and the unrealized pnl; so no position it returns has a
    zero or a negative size.  A rejected request makes the result a failure
    with the message of the rejection, and the mids are not asked for after
    a rejected state. *)
Theorem getPositions_sizes (env : Env) (w : World) :
  let run := getPositions env w in
  let user := address (toolkit w) in
  exists r,
    fst run = Returned r
    /\ toolkit (snd run) = toolkit w
    /\ match ex_clearinghouseState (exchange env) (history w) user with
       | Rejected msg =>
           added w (snd run) [Sent (ClearinghouseState user)]
           /\ success r = false /\ data r = None
           /\ error r = Some (Message msg)
       | Resolved state =>
           added w (snd run) [Sent (ClearinghouseState user); Sent AllMids]
           /\ match ex_allMids (exchange env)
                      (history w ++ [Sent (ClearinghouseState user)]) with
              | Rejected msg =>
                  success r = false /\ data r = None
                  /\ error r = Some (Message msg)
              | Resolved mids =>
                  success r = true
                  /\ exists positions,
                       data r = Some positions
                       /\ Forall2
                            (fun ap p =>
                               (szi ap =? Num.zero)%num = false
                               /\ pos_coin p = ap_coin ap
                               /\ pos_size p = Num.abs (szi ap)
                               /\ pos_side p
                                  = (if (szi ap >? Num.zero)%num
                                     then Long else Short)
                               /\ pos_entryPrice p = entryPx ap
                               /\ pos_currentPrice p = midOf mids (ap_coin ap)
                               /\ unrealizedPnl p = ap_unrealizedPnl ap
                               /\ (pos_size p =? Num.zero)%num = false
                               /\ (pos_size p <? Num.zero)%num = false)
                            (filter (fun ap => negb (szi ap =? Num.zero)%num)
                               (assetPositions state))
                            positions
              end
       end.
Proof.
  cbv zeta.
  unfold getPositions, tryCatch, bind, getToolkit, InfoClient.clearinghouseState,
    InfoClient.allMids, request, succeed, fail, dateNow, ret, added.
  cbn [fst snd history toolkit].
  destruct (ex_clearinghouseState (exchange env) (history w)
              (address (toolkit w))) as [state|msg]; cbn [fst snd history toolkit].
  - destruct (ex_allMids (exchange env)
                (history w ++ [Sent (ClearinghouseState (address (toolkit w)))]))
      as [mids|msg]; cbn [fst snd history toolkit].
    + eexists. split; [reflexivity|]. split; [reflexivity|].
      split; [now rewrite <- app_assoc|].
      cbn [success data]. split; [reflexivity|].
      eexists. split; [reflexivity|]. apply positionsOf_each.
    + eexists. split; [reflexivity|]. split; [reflexivity|].
      split; [now rewrite <- app_assoc|].
      cbn [success data error]. auto.
  - eexists. split; [reflexivity|]. split; [reflexivity|].
    split; [reflexivity|]. cbn [success data error]. auto.
Qed.

(** ** The order book *)

Lemma truncate_Z (z : Z) : truncate (inject_Z z) = z.
Proof.
  unfold truncate. destruct (Num.Qlt_bool _ _).
  - apply Qceiling_Z.
  - apply Qfloor_Z.
Qed.

Lemma sliceTo_prefix {A : Type} (d : number) (l : list A) :
  exists n, sliceTo d l = firstn n l.
Proof.
  destruct d as [q| | |]; cbn.
  - destruct (_ <? 0); eauto.
  - exists (length l). symmetry. apply firstn_all.
  - exists 0%nat. reflexivity.
  - exists 0%nat. reflexivity.
Qed.

Lemma sliceTo_count {A : Type} (k : nat) (l : list A) :
  length (sliceTo (Num.ofNat k) l) = Nat.min k (length l).
Proof.
  unfold sliceTo, Num.ofNat, Num.ofZ. rewrite truncate_Z.
  destruct (Z.ltb_spec (Z.of_nat k) 0); [lia|].
  rewrite Nat2Z.id. apply length_firstn.
Qed.

Lemma sliceTo_from_end {A : Type} (k : nat) (l : list A) :
  (0 < k)%nat ->
  length (sliceTo (Num.ofZ (- Z.of_nat k)) l) = (length l - k)%nat.
Proof.
  intros Hk. unfold sliceTo, Num.ofZ. rewrite truncate_Z.
  destruct (Z.ltb_spec (- Z.of_nat k) 0); [|lia].
  rewrite length_firstn. lia.
Qed.

(** X19. [getOrderBook] sends one request, for the book of the coin at 5
    significant figures, and never throws.  Of a book it returns the best
    levels of each side in the book's order: as many as [depth] when that
    is a positive whole number, 10 when no depth or a depth of 0 is given,
    never more than the book holds; a negative depth leaves out that many
    of the last levels.  Without a book the result is a failure. *)
Theorem getOrderBook_depth
    (coin : string) (depth : option number) (env : Env) (w : World) :
  let run := getOrderBook coin depth env w in
  added w (snd run) [Sent (L2Book coin 5)]
  /\ toolkit (snd run) = toolkit w
  /\ exists r,
       fst run = Returned r
       /\ match ex_l2Book (exchange env) (history w) coin 5 with
          | Resolved (Some bk) =>
              exists d,
                success r = true /\ data r = Some d
                /\ (exists n, ob_bids d = map levelPair (firstn n (bids bk)))
                /\ (exists n, ob_asks d = map levelPair (firstn n (asks bk)))
                /\ (Num.given depth = false ->
                    length (ob_bids d) = Nat.min 10 (length (bids bk))
                    /\ length (ob_asks d) = Nat.min 10 (length (asks bk)))
                /\ (forall k, depth = Some (Num.ofNat k) -> (0 < k)%nat ->
                    length (ob_bids d) = Nat.min k (length (bids bk))
                    /\ length (ob_asks d) = Nat.min k (length (asks bk)))
                /\ (forall k, depth = Some (Num.ofZ (- Z.of_nat k)) -> (0 < k)%nat ->
                    length (ob_bids d) = (length (bids bk) - k)%nat
                    /\ length (ob_asks d) = (length (asks bk) - k)%nat)
          | Resolved None =>
              success r = false /\ data r = None
              /\ error r = Some (Message ("No order book available for " ++ coin))
          | Rejected msg =>
              success r = false /\ data r = None /\ error r = Some (Message msg)
          end.
Proof.
  unfold getOrderBook, tryCatch, bind, InfoClient.l2Book, request, added.
  destruct (ex_l2Book (exchange env) (history w) coin 5) as [[bk|]|msg]; cbn.
  - split; [reflexivity|]. split; [reflexivity|].
    eexists. split; [reflexivity|].
    eexists. cbn [success data].
    split; [reflexivity|]. split; [reflexivity|]. cbn [ob_bids ob_asks].
    assert (T : forall k, (0 < k)%nat -> Num.truthy (Num.ofZ (- Z.of_nat k)) = true).
    { intros k Hk. unfold Num.ofZ, Num.truthy. apply negb_true_iff.
      destruct (Qeq_bool _ 0) eqn:E; [|reflexivity].
      apply Qeq_bool_eq in E. unfold Qeq in E. cbn in E. lia. }
    split; [|split; [|split; [|split]]].
    + destruct (sliceTo_prefix (Num.orElse depth (Num.ofZ 10)) (bids bk)) as [n ->].
      eauto.
    + destruct (sliceTo_prefix (Num.orElse depth (Num.ofZ 10)) (asks bk)) as [n ->].
      eauto.
    + intros H. rewrite (orElse_not_given _ _ H), !length_map.
      split; apply (sliceTo_count 10).
    + intros k -> Hk. cbn [Num.orElse]. unfold Num.or.
      rewrite (ofNat_truthy _ Hk), !length_map. split; apply sliceTo_count.
    + intros k -> Hk. cbn [Num.orElse]. unfold Num.or.
      rewrite (T _ Hk), !length_map. split; now apply sliceTo_from_end.
  - split; [reflexivity|]. split; [reflexivity|].
    eexists. split; [reflexivity|]. cbn. auto.
  - split; [reflexivity|]. split; [reflexivity|].
    eexists. split; [reflexivity|]. cbn. auto.
Qed.

(** ** Order sizes *)

Local Open Scope string_scope.

(** A whole number of units of [10^-decimals], one at least, is a size
    above 0. *)
Lemma units_positive (k : Z) (decimals : nat) :
  (1 <= k)%Z -> (decimals <= 15)%nat ->
  (Num.ofZ k / tenToThe decimals <=? Num.zero)%num = false.
Proof.
  intros Hk Hd. rewrite tenToThe_exact by exact Hd.
  assert (F0 : (0 < 10 ^ Z.of_nat decimals)%Z) by (apply Z.pow_pos_nonneg; lia).
  assert (F15 : (10 ^ Z.of_nat decimals <= 10 ^ 15)%Z)
    by (apply Z.pow_le_mono_r; lia).
  unfold Num.ofZ, Num.div.
  destruct (Qeq_bool (inject_Z (10 ^ Z.of_nat decimals)) 0) eqn:E.
  { apply Qeq_bool_eq in E. unfold Qeq in E. cbn in E. lia. }
  apply round64_pos.
  assert (P : (0 < inject_Z (10 ^ Z.of_nat decimals))%Q).
  { change 0%Q with (inject_Z 0). now rewrite <- Zlt_Qlt. }
  apply Qle_shift_div_l; [exact P|].
  assert (A : (Qpower 2 (-1074) * inject_Z (10 ^ 15) <= 1)%Q)
    by (vm_compute; discriminate).
  assert (B : (inject_Z (10 ^ Z.of_nat decimals) <= inject_Z (10 ^ 15))%Q)
    by now rewrite <- Zle_Qle.
  assert (C : (1 <= inject_Z k)%Q)
    by (change 1%Q with (inject_Z 1); now rewrite <- Zle_Qle).
  pose proof (pow2_pos (-1074)) as P0.
  assert (D : (Qpower 2 (-1074) * inject_Z (10 ^ Z.of_nat decimals)
               <= Qpower 2 (-1074) * inject_Z (10 ^ 15))%Q).
  { rewrite !(Qmult_comm (Qpower 2 (-1074))).
    apply Qmult_le_compat_r; [exact B|]. lra. }
  lra.
Qed.

Lemma infinity_over_ten (decimals : nat) :
  (decimals <= 15)%nat -> (PosInf / tenToThe decimals)%num = PosInf.
Proof.
  intros Hd. rewrite tenToThe_exact by exact Hd.
  assert (F0 : (0 < 10 ^ Z.of_nat decimals)%Z) by (apply Z.pow_pos_nonneg; lia).
  unfold Num.ofZ, Num.div.
  destruct (Qeq_bool (inject_Z (10 ^ Z.of_nat decimals)) 0) eqn:E;
    [reflexivity|].
  unfold Num.sign, Num.Qsign. cbn [Qnum inject_Z].
  destruct (10 ^ Z.of_nat decimals)%Z; [lia|reflexivity|lia].
Qed.

(** X20. [formatSize] throws for a size that is not a positive finite
    number.  For a positive double and up to 15 decimals, rounding up
    always returns a string.  Rounding down returns one when the size times
    [10^decimals] is at least 1, and throws when that product is at most
    the largest double under 1, [1 - 2^-53]: the product is rounded to a
    double before its floor is taken, so that a product between the two may
    be rounded up to 1. *)
Theorem formatSize_returns_or_throws (q : Q) (decimals : nat) :
  (Qpower 2 (-1074) <= q)%Q ->
  (decimals <= 15)%nat ->
  (exists s, formatSize (Fin q) decimals Up = Returned s)
  /\ ((1 <= q * Numeral.pow10 decimals)%Q ->
      exists s, formatSize (Fin q) decimals Down = Returned s)
  /\ ((q * Numeral.pow10 decimals <= 1 - Qpower 2 (-53))%Q ->
      formatSize (Fin q) decimals Down
      = Threw ("Order size too small for asset precision ("
               ++ Str.ofNat decimals ++ " decimals)"))
  /\ (forall size rounding,
        Num.isFinite size = false \/ (size <=? Num.zero)%num = true ->
        formatSize size decimals rounding
        = Threw "Order size must be greater than zero").
Proof.
  intros Hq Hd.
  pose proof (pow10_pos decimals) as Hp. pose proof (pow2_pos (-1074)) as P0.
  assert (Q0 : (0 < q)%Q) by lra.
  assert (Pos : (Fin q <=? Num.zero)%num = false).
  { unfold Num.le, Num.zero. now apply Qle_bool_false. }
  assert (D : (100 <? decimals)%nat = false) by (apply Nat.ltb_ge; lia).
  assert (F1 : (1 <= Numeral.pow10 decimals)%Q).
  { unfold Numeral.pow10. change 1%Q with (inject_Z 1). rewrite <- Zle_Qle.
    assert (0 < 10 ^ Z.of_nat decimals)%Z by (apply Z.pow_pos_nonneg; lia). lia. }
  assert (Prod : (Fin q * tenToThe decimals)%num
                 = Num.round64 (q * Numeral.pow10 decimals)).
  { rewrite tenToThe_exact by exact Hd. reflexivity. }
  assert (Ret : forall rounding,
             (roundedRaw (Fin q) decimals rounding <=? Num.zero)%num = false ->
             exists s, formatSize (Fin q) decimals rounding = Returned s).
  { intros rounding H. unfold formatSize. cbn [Num.isFinite negb orb].
    rewrite Pos, H, D. eauto. }
  split; [|split; [|split]].
  - apply Ret. unfold roundedRaw. rewrite Prod.
    assert (R : (Num.round64 (q * Numeral.pow10 decimals) <=? Num.zero)%num = false).
    { apply round64_pos. nra. }
    destruct (Num.round64 (q * Numeral.pow10 decimals)) as [x| | |];
      cbn [Num.ceil].
    + apply units_positive; [|exact Hd].
      unfold Num.le, Num.zero in R.
      assert (X : (0 < x)%Q).
      { apply Qnot_le_lt. intros C. apply Qle_bool_iff in C. congruence. }
      pose proof (Qle_ceiling x) as Cx.
      assert (0 < inject_Z (Qceiling x))%Q by lra.
      change 0%Q with (inject_Z 0) in H. rewrite <- Zlt_Qlt in H. lia.
    + now rewrite infinity_over_ten.
    + discriminate R.
    + reflexivity.
  - intros Big. apply Ret. unfold roundedRaw. rewrite Prod.
    pose proof (round64_ge_int _ 1 ltac:(split; [lia|reflexivity]) Big) as R.
    destruct (Num.round64 (q * Numeral.pow10 decimals)) as [x| | |];
      cbn [Num.floor]; try discriminate R.
    + apply units_positive; [|exact Hd].
      unfold Num.le, Num.ofZ in R. apply Qle_bool_iff in R.
      change 1%Z with (Qfloor (inject_Z 1)). now apply Qfloor_resp_le.
    + now rewrite infinity_over_ten.
  - intros Small. unfold formatSize. cbn [Num.isFinite negb orb]. rewrite Pos.
    unfold roundedRaw. rewrite Prod.
    destruct (round64_below_one (q * Numeral.pow10 decimals)
                ltac:(nra) Small) as [x [-> [X0 X1]]].
    cbn [Num.floor].
    assert (Fl : Qfloor x = 0%Z).
    { pose proof (Qfloor_le x) as Lo. pose proof (Qlt_floor x) as Hi.
      rewrite inject_Z_plus in Hi. change (inject_Z 1) with 1%Q in Hi.
      assert (A : (inject_Z (-1) < inject_Z (Qfloor x))%Q)
        by (change (inject_Z (-1)) with (- (1))%Q; lra).
      assert (B : (inject_Z (Qfloor x) < inject_Z 1)%Q)
        by (change (inject_Z 1) with 1%Q; lra).
      rewrite <- Zlt_Qlt in A, B. lia. }
    rewrite Fl, tenToThe_exact by exact Hd.
    unfold Num.ofZ, Num.div.
    destruct (Qeq_bool (inject_Z (10 ^ Z.of_nat decimals)) 0) eqn:E.
    { apply Qeq_bool_eq in E. unfold Numeral.pow10 in Hp. rewrite E in Hp.
      discriminate Hp. }
    rewrite round64_zero by (unfold Qdiv; ring). reflexivity.
  - intros size rounding H. unfold formatSize.
    destruct H as [H|H]; rewrite H; [reflexivity|].
    now rewrite orb_true_r.
Qed.

(** The 1024th part of a coin at two decimals is too small to round
    down. *)
Lemma formatSize_returns_or_throws_witness :
  (Qpower 2 (-1074) <= 1 # 1024)%Q
  /\ formatSize (Fin (1 # 1024)) 2 Down
     = Threw ("Order size too small for asset precision ("
              ++ Str.ofNat 2 ++ " decimals)").
Proof.
  split; [vm_compute; discriminate|].
  apply (proj1 (proj2 (proj2 (formatSize_returns_or_throws (1 # 1024) 2
                                ltac:(vm_compute; discriminate) ltac:(lia))))).
  vm_compute. discriminate.
Defined.

(** *** Trailing zeros *)

Lemma app_assoc_str (a b c : string) : (a ++ b) ++ c = a ++ (b ++ c).
Proof. induction a as [|x a IH]; cbn; [reflexivity|now rewrite IH]. Qed.

Lemma app_nil_r_str (a : string) : a ++ "" = a.
Proof. induction a as [|x a IH]; cbn; [reflexivity|now rewrite IH]. Qed.

Lemma rev_append_spec (s : string) : forall acc,
  Str.rev_append s acc = Str.rev s ++ acc.
Proof.
  unfold Str.rev. induction s as [|c s IH]; intros acc; cbn [Str.rev_append].
  - reflexivity.
  - rewrite (IH (String c acc)), (IH (String c "")), app_assoc_str. reflexivity.
Qed.

Lemma rev_cons c s : Str.rev (String c s) = Str.rev s ++ String c "".
Proof. unfold Str.rev at 1. cbn [Str.rev_append]. apply rev_append_spec. Qed.

Lemma rev_app (a b : string) : Str.rev (a ++ b) = Str.rev b ++ Str.rev a.
Proof.
  induction a as [|c a IH]; cbn [String.append].
  - now rewrite app_nil_r_str.
  - now rewrite !rev_cons, IH, app_assoc_str.
Qed.

Lemma rev_involutive (s : string) : Str.rev (Str.rev s) = s.
Proof.
  induction s as [|c s IH]; [reflexivity|].
  rewrite rev_cons, rev_app, IH. reflexivity.
Qed.

Lemma zeros_snoc j : Str.zeros j ++ "0" = String "0" (Str.zeros j).
Proof. induction j as [|j IH]; cbn; [reflexivity|now rewrite IH]. Qed.

Lemma rev_zeros j : Str.rev (Str.zeros j) = Str.zeros j.
Proof.
  induction j as [|j IH]; [reflexivity|].
  cbn [Str.zeros]. rewrite rev_cons, IH. apply zeros_snoc.
Qed.

Lemma onlyDigits_app (a b : string) :
  onlyDigits (a ++ b) = onlyDigits a && onlyDigits b.
Proof.
  induction a as [|c a IH]; cbn; [reflexivity|].
  destruct (Str.digitValue c); [exact IH|reflexivity].
Qed.

Lemma onlyDigits_rev (s : string) : onlyDigits (Str.rev s) = onlyDigits s.
Proof.
  induction s as [|c s IH]; [reflexivity|].
  rewrite rev_cons, onlyDigits_app, IH. cbn.
  destruct (Str.digitValue c); [apply andb_true_r|apply andb_false_r].
Qed.

Lemma onlyDigits_read (s : string) : forall acc v,
  Str.readDigits s acc = Some v -> onlyDigits s = true.
Proof.
  induction s as [|c s IH]; intros acc v H; cbn in *; [reflexivity|].
  destruct (Str.digitValue c); [eapply IH; eassumption|discriminate].
Qed.

Lemma read_onlyDigits (s : string) : forall acc,
  onlyDigits s = true -> exists v, Str.readDigits s acc = Some v.
Proof.
  induction s as [|c s IH]; intros acc H; cbn in *; [eauto|].
  destruct (Str.digitValue c); [now apply IH|discriminate].
Qed.

(** The zeros a string begins with, and what follows them. *)
Lemma dropZeros_split (x : string) :
  exists j,
    x = Str.zeros j ++ Str.dropZeros x
    /\ match Str.dropZeros x with
       | EmptyString => True
       | String d _ => Ascii.eqb d "0" = false
       end.
Proof.
  induction x as [|c x [j [E H]]]; cbn [Str.dropZeros].
  - exists 0%nat. auto.
  - destruct (Ascii.eqb_spec c "0") as [->|N].
    + exists (S j). cbn [Str.zeros String.append]. split; [now f_equal|exact H].
    + exists 0%nat. cbn. split; [reflexivity|].
      now apply Ascii.eqb_neq.
Qed.

Lemma dropZeros_zeros (j : nat) (y : string) :
  Str.dropZeros (Str.zeros j ++ y) = Str.dropZeros y.
Proof. induction j as [|j IH]; cbn; [reflexivity|exact IH]. Qed.

Lemma dropZeros_head d y :
  Ascii.eqb d "0" = false -> Str.dropZeros (String d y) = String d y.
Proof. intros H. cbn. now rewrite H. Qed.

(** [stripTrailingZeros] on a numeral with a dot: the zeros that end the
    decimals go, and the dot with them when no decimal is left; the digits
    before the dot stay. *)
Lemma stripTrailingZeros_decimals (a b : string) :
  onlyDigits b = true ->
  b <> "" ->
  exists b' j,
    b = b' ++ Str.zeros j
    /\ onlyDigits b' = true
    /\ Str.stripTrailingZeros (a ++ String "." b)
       = match b' with
         | EmptyString => a
         | String _ _ => a ++ String "." b'
         end.
Proof.
  intros Db Nb.
  assert (R : Str.rev (a ++ String "." b)
              = Str.rev b ++ String "." (Str.rev a)).
  { rewrite rev_app, rev_cons, app_assoc_str. reflexivity. }
  destruct (dropZeros_split (Str.rev b)) as [j [Ex Hx]].
  set (x' := Str.dropZeros (Str.rev b)) in *.
  assert (Eb : b = Str.rev x' ++ Str.zeros j).
  { rewrite <- (rev_involutive b), Ex, rev_app, rev_zeros. reflexivity. }
  assert (Dx : onlyDigits x' = true).
  { rewrite <- onlyDigits_rev in Db. rewrite Ex, onlyDigits_app in Db.
    now apply andb_prop in Db. }
  exists (Str.rev x'), j. split; [exact Eb|].
  split; [now rewrite onlyDigits_rev|].
  unfold Str.stripTrailingZeros. rewrite R, Ex, app_assoc_str.
  destruct j as [|j]; cbn [Str.zeros String.append].
  - (* the last decimal is not a zero *)
    destruct x' as [|d r] eqn:X.
    + exfalso. apply Nb. rewrite Eb. reflexivity.
    + cbn [String.append]. rewrite Hx.
      rewrite Eb at 1. cbn [Str.zeros]. rewrite app_nil_r_str.
      destruct (Str.rev (String d r)) eqn:V; [|reflexivity].
      apply (f_equal Str.rev) in V. rewrite rev_involutive in V. discriminate.
  - change (Ascii.eqb "0" "0") with true. cbv iota.
    rewrite dropZeros_zeros.
    destruct x' as [|d r] eqn:X; cbn [String.append].
    + cbn [Str.dropZeros]. change (Ascii.eqb "." "0") with false. cbv iota.
      change (Ascii.eqb "." ".") with true. cbv iota.
      change (Str.rev "") with "". apply rev_involutive.
    + rewrite dropZeros_head by exact Hx.
      cbn in Dx. destruct (Str.digitValue d) as [dv|] eqn:Dd; [|discriminate].
      rewrite (digitValue_not_dot _ _ Dd).
      change (String d (r ++ String "." (Str.rev a)))
        with (String d r ++ String "." (Str.rev a)).
      rewrite rev_app, rev_cons, rev_involutive, app_assoc_str.
      destruct (Str.rev (String d r)) eqn:V; [|reflexivity].
      apply (f_equal Str.rev) in V. rewrite rev_involutive in V. discriminate.
Qed.

Lemma readDigits_zeros_only j : Str.readDigits (Str.zeros j) 0 = Some 0%N.
Proof.
  rewrite <- (app_nil_r_str (Str.zeros j)), readDigits_zeros. reflexivity.
Qed.

(** With decimals, [fixedDigits] prints digits, a dot and [f] digits. *)
Lemma fixedDigits_shape (n : N) (f : nat) :
  (1 <= f)%nat ->
  exists a b na nb,
    Numeral.fixedDigits n f = a ++ String "." b
    /\ String.length b = f
    /\ a <> ""
    /\ Str.readDigits a 0 = Some na
    /\ Str.readDigits b 0 = Some nb
    /\ (na * 10 ^ N.of_nat f + nb = n)%N.
Proof.
  intros Hf. unfold Numeral.fixedDigits.
  destruct (Nat.eqb_spec f 0) as [->|_]; [lia|].
  set (m := if (String.length (Str.ofN n) <=? f)%nat
            then Str.zeros (f + 1 - String.length (Str.ofN n)) ++ Str.ofN n
            else Str.ofN n).
  assert (Hm : Str.readDigits m 0 = Some n).
  { subst m. destruct (_ <=? _)%nat; [rewrite readDigits_zeros|]; apply readDigits_ofN. }
  assert (Hk : (f + 1 <= String.length m)%nat).
  { subst m. destruct (Nat.leb_spec (String.length (Str.ofN n)) f).
    - rewrite length_append, length_zeros. lia.
    - lia. }
  set (k := String.length m) in *.
  set (a := substring 0 (k - f) m).
  set (b := substring (k - f) f m).
  assert (Hab : a ++ b = m) by (apply substring_split; lia).
  assert (Hb : String.length b = f) by (apply length_substring; lia).
  assert (Ha : (1 <= String.length a)%nat).
  { subst a. rewrite length_substring; lia. }
  rewrite <- Hab, readDigits_app in Hm.
  destruct (Str.readDigits a 0) as [na|] eqn:Ra; [|discriminate].
  rewrite readDigits_acc in Hm.
  destruct (Str.readDigits b 0) as [nb|] eqn:Rb; [|discriminate].
  injection Hm as Hn.
  exists a, b, na, nb. rewrite Hb in Hn.
  repeat split; auto.
  intros E. rewrite E in Ha. cbn in Ha. lia.
Qed.

Lemma readUnsigned_digits (a : string) (na : N) :
  a <> "" -> Str.readDigits a 0 = Some na ->
  Str.readUnsigned a = Some (inject_Z (Z.of_N na)).
Proof.
  intros Na Ra. unfold Str.readUnsigned.
  rewrite (splitDot_digits_only _ _ _ Ra).
  destruct a; [contradiction|]. now rewrite Ra.
Qed.

Lemma readUnsigned_decimals (a b : string) (na nb : N) :
  a <> "" -> b <> "" ->
  Str.readDigits a 0 = Some na -> Str.readDigits b 0 = Some nb ->
  Str.readUnsigned (a ++ String "." b)
  = Some (inject_Z (Z.of_N na)
          + inject_Z (Z.of_N nb) / inject_Z (10 ^ Z.of_nat (String.length b)))%Q.
Proof.
  intros Na Nb Ra Rb. unfold Str.readUnsigned.
  rewrite (splitDot_digits _ _ _ _ Ra).
  destruct a; [contradiction|]. destruct b; [contradiction|].
  now rewrite Ra, Rb.
Qed.

(** The numeral [formatSize] makes of [n] units of [10^-f], [f] at least 1,
    reads back as [n / 10^f]. *)
Lemma stripped_fixedDigits_read (n : N) (f : nat) :
  (1 <= f)%nat ->
  exists v,
    Str.readDecimal (Str.stripTrailingZeros (Numeral.fixedDigits n f)) = Some v
    /\ (v == inject_Z (Z.of_N n) / Numeral.pow10 f)%Q.
Proof.
  intros Hf.
  destruct (fixedDigits_shape n f Hf) as [a [b [na [nb [E [Lb [Na [Ra [Rb Hn]]]]]]]]].
  assert (Nb : b <> "") by (intros ->; cbn in Lb; lia).
  destruct (stripTrailingZeros_decimals a b (onlyDigits_read _ _ _ Rb) Nb)
    as [b' [j [Eb [Db' S]]]].
  rewrite E, S.
  destruct (read_onlyDigits b' 0 Db') as [nb' Rb'].
  assert (Hnb : nb = (nb' * 10 ^ N.of_nat j)%N).
  { rewrite Eb, readDigits_app, Rb', readDigits_acc, readDigits_zeros_only,
      length_zeros in Rb.
    injection Rb as <-. lia. }
  assert (Hlen : f = (String.length b' + j)%nat).
  { rewrite <- Lb, Eb, length_append, length_zeros. reflexivity. }
  pose proof (pow10_pos f) as Pf. pose proof (pow10_pos j) as Pj.
  pose proof (pow10_pos (String.length b')) as Pb.
  assert (Pow : (Numeral.pow10 f
                 == Numeral.pow10 (String.length b') * Numeral.pow10 j)%Q).
  { unfold Numeral.pow10. rewrite Hlen, Nat2Z.inj_add, Z.pow_add_r by lia.
    rewrite inject_Z_mult. reflexivity. }
  assert (Vn : (inject_Z (Z.of_N n)
                == inject_Z (Z.of_N na) * Numeral.pow10 f
                   + inject_Z (Z.of_N nb') * Numeral.pow10 j)%Q).
  { rewrite <- Hn, Hnb. unfold Numeral.pow10.
    rewrite !N2Z.inj_add, !N2Z.inj_mul, !N2Z.inj_pow, !nat_N_Z.
    change (Z.of_N 10) with 10%Z.
    rewrite inject_Z_plus, !inject_Z_mult. reflexivity. }
  destruct b' as [|c b''] eqn:B.
  - exists (inject_Z (Z.of_N na)). split.
    + apply readDecimal_unsigned, readUnsigned_digits; assumption.
    + injection Rb' as <-. rewrite Vn. change (inject_Z (Z.of_N 0)) with 0%Q.
      field. lra.
  - rewrite <- B in *.
    eexists. split.
    + apply readDecimal_unsigned, (readUnsigned_decimals a b' na nb');
        try assumption.
      rewrite B. discriminate.
    + rewrite Vn, Pow. fold (Numeral.pow10 (String.length b')).
      set (x := Numeral.pow10 (String.length b')) in *.
      set (y := Numeral.pow10 j) in *.
      clearbody x y. field. split; lra.
Qed.

(** X21. With 1 to 100 decimals, the removal of trailing zeros leaves the
    number standing: the string [formatSize] returns reads back as a
    number of at most [decimals] decimals that is the double the size was
    rounded to, [roundedRaw], printed by [toFixed]: within half a unit of
    [10^-decimals] of that double, and that double itself when it has at
    most [decimals] decimals. *)
Theorem formatSize_denotes_rounded_size
    (size : number) (decimals : nat) (rounding : Rounding) (s : string)
    (w : Q) :
  (1 <= decimals <= 100)%nat ->
  formatSize size decimals rounding = Returned s ->
  roundedRaw size decimals rounding = Fin w ->
  (w < Numeral.pow10 21)%Q ->
  exists v,
    Str.readDecimal s = Some v
    /\ (0 < w)%Q
    /\ hasDecimals v decimals
    /\ (Qabs (v - w) <= (1 # 2) / Numeral.pow10 decimals)%Q
    /\ ((v == w)%Q <-> hasDecimals w decimals).
Proof.
  intros [Hd1 Hd2] Hrun Ew Hbig.
  pose proof (pow10_pos decimals) as Hp.
  unfold formatSize in Hrun.
  destruct (negb (Num.isFinite size) || (size <=? Num.zero)%num);
    [discriminate|].
  rewrite Ew in Hrun. unfold Num.le at 1, Num.zero in Hrun.
  destruct (Qle_bool w 0) eqn:W; [discriminate|].
  destruct (100 <? decimals)%nat; [discriminate|].
  injection Hrun as <-.
  assert (W0 : (0 < w)%Q).
  { apply Qnot_le_lt. intros C. apply Qle_bool_iff in C. congruence. }
  unfold Numeral.toFixed.
  assert (S0 : Num.Qlt_bool w 0 = false).
  { unfold Num.Qlt_bool. apply negb_false_iff, Qle_bool_iff. lra. }
  rewrite S0. cbn [String.append].
  assert (Aw : (Qabs w == w)%Q) by (apply Qabs_pos; lra).
  rewrite (Qle_bool_false (Numeral.pow10 21) (Qabs w)) by (rewrite Aw; exact Hbig).
  set (n := Numeral.fixedUnits (Qabs w) decimals).
  assert (N0 : (0 <= n)%Z) by (apply fixedUnits_nonneg, Qabs_nonneg).
  destruct (stripped_fixedDigits_read (Z.to_N n) decimals Hd1) as [v [Hv Ev]].
  rewrite Z2N.id in Ev by exact N0.
  destruct (fixed_close_nonneg (Qabs w) decimals (Qabs_nonneg w)) as [C X].
  fold n in C, X.
  exists v. split; [exact Hv|]. split; [exact W0|].
  split; [|split].
  - exists n. rewrite Ev. field. lra.
  - rewrite Ev, <- Aw. exact C.
  - rewrite Ev. split.
    + intros E. rewrite <- Aw in E. apply X in E.
      destruct E as [z Hz]. exists z. now rewrite <- Aw.
    + intros [z Hz]. rewrite <- Aw. apply X. exists z. now rewrite Aw.
Qed.

(** 1.25 at one decimal, rounded up: 13 tenths, the double nearest to 1.3,
    printed as 1.3. *)
Lemma formatSize_denotes_rounded_size_witness :
  formatSize (Fin (5 # 4)) 1 Up = Returned "1.3"
  /\ roundedRaw (Fin (5 # 4)) 1 Up
     = Fin (5854679515581645 # 4503599627370496)
  /\ exists v,
       Str.readDecimal "1.3" = Some v
       /\ (0 < 5854679515581645 # 4503599627370496)%Q
       /\ hasDecimals v 1
       /\ (Qabs (v - (5854679515581645 # 4503599627370496))
           <= (1 # 2) / Numeral.pow10 1)%Q
       /\ ((v == 5854679515581645 # 4503599627370496)%Q
           <-> hasDecimals (5854679515581645 # 4503599627370496) 1).
Proof.
  split; [vm_compute; reflexivity|]. split; [vm_compute; reflexivity|].
  apply (formatSize_denotes_rounded_size (Fin (5 # 4)) 1 Up "1.3"
           (5854679515581645 # 4503599627370496)).
  - lia.
  - vm_compute. reflexivity.
  - vm_compute. reflexivity.
  - vm_compute. reflexivity.
Defined.

Local Close Scope string_scope.
